(** * t-game: the movement and frame-update core, embedded in Rocq

    The repository holds three generations of the same browser demo:

    - [src/src/game.ts]: the current version ([InputManager], pause key,
      bounds check that ignores the radius);
    - [src/unnamed/part_000]: the refactored version ([updateFPS],
      [handleInput], bounds check that takes the radius into account),
      followed by the first prototype, a key handler that moves the player
      by half a cell ([Prototype]);
    - [src/unnamed/part_001]: the version with module-level movement flags
      and a [Vector2.normalize] that works in place.

    JavaScript's [number] is an IEEE-754 binary64 value.  Rocq's primitive
    [float] is the same format with the same rounding (to nearest, ties to
    even) and a correctly rounded [sqrt], so every arithmetic expression of
    the source is written here with the operation of the same name and
    evaluates to the bit pattern the program computes.

    The file has three parts: the program, the vocabulary of the
    statements, and the properties.  A tick is embedded with the effects
    it emits; the drawing procedures behind those effects are embedded as
    the lists of calls they make on their canvas context. *)

From Stdlib Require Import Reals Lra.
From Stdlib Require Import ZArith Floats List String Ascii Bool Lia.
Import ListNotations.

Set Warnings "-inexact-float".
#[local] Open Scope float_scope.

(** ** JavaScript comparison operators on numbers *)

(** [a > b], [a >= b] and [a !== b].  Every ordered comparison with a NaN
    operand is false, and [NaN !== b] is true. *)
Definition gtb (a b : float) : bool := b <? a.
Definition geb (a b : float) : bool := b <=? a.
Definition neqb (a b : float) : bool := negb (a =? b).

Notation "a >? b" := (gtb a b) (at level 70, no associativity) : float_scope.
Notation "a >=? b" := (geb a b) (at level 70, no associativity) : float_scope.
Notation "a !== b" := (neqb a b) (at level 70, no associativity) : float_scope.

(** A division that refuses a zero divisor.  JavaScript itself never raises
    on [a / 0]; this operator exists to state that a piece of code does not
    rely on that. *)
Definition checked_div (a b : float) : option float :=
  if b =? 0 then None else Some (a / b).

(** ** class Vector2

    Methods that assign to [this] are written in receiver-passing style: the
    call returns the receiver as the method leaves it.  A method that returns
    a value as well returns the pair (value, receiver). *)
Module Vector2.

Record t : Set := new { x : float; y : float }.

(** [add(other) { this.x += other.x; this.y += other.y; }] *)
Definition add (this other : t) : t :=
  new (x this + x other) (y this + y other).

(** [array() { return [this.x, this.y]; }] *)
Definition array (this : t) : float * float := (x this, y this).

(** [normalize()] of game.ts:68 and part_000:111.  It allocates its
    result; the receiver is not assigned. *)
Definition normalize (this : t) : t * t :=
  let length := sqrt (x this * x this + y this * y this) in
  if length >? 0
  then (new (x this / length) (y this / length), this)
  else (new 0 0, this).

(** The same method with every [/] replaced by [checked_div]. *)
Definition normalize_checked (this : t) : option (t * t) :=
  let length := sqrt (x this * x this + y this * y this) in
  if length >? 0
  then match checked_div (x this) length, checked_div (y this) length with
       | Some qx, Some qy => Some (new qx qy, this)
       | _, _ => None
       end
  else Some (new 0 0, this).

(** [normalize()] of part_001:68:
    [if (length > 0) { this.x /= length; this.y /= length; } return this;]
    The returned reference is the receiver itself. *)
Definition normalize_in_place (this : t) : t * t :=
  let length := sqrt (x this * x this + y this * y this) in
  let this :=
    if length >? 0
    then let this := new (x this / length) (y this) in
         new (x this) (y this / length)
    else this in
  (this, this).

Definition normalize_in_place_checked (this : t) : option (t * t) :=
  let length := sqrt (x this * x this + y this * y this) in
  if length >? 0
  then match checked_div (x this) length, checked_div (y this) length with
       | Some qx, Some qy => Some (new qx qy, new qx qy)
       | _, _ => None
       end
  else Some (this, this).

(** [Math.sqrt(x*x + y*y)], the magnitude as the program computes it. *)
Definition magnitude (v : t) : float := sqrt (x v * x v + y v * y v).

End Vector2.

(** ** class Player *)
Module Player.

Record t : Set := new
  { position : Vector2.t; radius : float; color : string; speed : float }.

(** [this.position.x = v] and [this.position.y = v]. *)
Definition set_x (this : t) (v : float) : t :=
  new (Vector2.new v (Vector2.y (position this)))
      (radius this) (color this) (speed this).
Definition set_y (this : t) (v : float) : t :=
  new (Vector2.new (Vector2.x (position this)) v)
      (radius this) (color this) (speed this).

End Player.

(** [new Player(new Vector2(0.5, 0.5), 0.2, "lightgreen", 0.05)], the player
    every version creates at start-up. *)
Definition initial_player : Player.t :=
  Player.new (Vector2.new 0.5 0.5) 0.2 "lightgreen" 0.05.

(** ** class InputManager

    Only the keyboard half is read by the game loops; it comes first, and
    the object with its mouse fields and handlers is [FullInputManager]
    below. *)

(** [String.prototype.toLowerCase] on the ASCII letters, which is all a
    [KeyboardEvent.key] of the keys used here contains. *)
Definition lower_ascii (c : ascii) : ascii :=
  let n := nat_of_ascii c in
  if (65 <=? n)%nat && (n <=? 90)%nat then ascii_of_nat (n + 32) else c.

Fixpoint toLowerCase (s : string) : string :=
  match s with
  | EmptyString => EmptyString
  | String c s' => String (lower_ascii c) (toLowerCase s')
  end.

Inductive InputManagerTypes : Set := keyboard | mouse.

Module InputManager.

(** [keys: Set<string>], kept in insertion order without duplicates. *)
Record t : Set := mk { type : InputManagerTypes; keys : list string }.

Definition new (type : InputManagerTypes) : t := mk type [].

Definition has (k : string) (s : list string) : bool :=
  existsb (String.eqb k) s.
Definition set_add (k : string) (s : list string) : list string :=
  if has k s then s else s ++ [k].
Definition set_delete (k : string) (s : list string) : list string :=
  filter (fun k' => negb (String.eqb k k')) s.

(** [onKeyDown(event)] and [onKeyUp(event)], with [key = event.key]. *)
Definition onKeyDown (this : t) (key : string) : t :=
  match type this with
  | keyboard => mk (type this) (set_add (toLowerCase key) (keys this))
  | mouse => this
  end.

Definition onKeyUp (this : t) (key : string) : t :=
  match type this with
  | keyboard => mk (type this) (set_delete (toLowerCase key) (keys this))
  | mouse => this
  end.

Definition isKeyPressed (this : t) (key : string) : bool :=
  has (toLowerCase key) (keys this).

End InputManager.

(** ** What a tick does to the outside world *)

Inductive LogMessage : Set :=
| LogPause (paused : bool)        (* "Game Paused" / "Game Resumed" *)
| LogFPS (frameCount : float)     (* "FPS: ${frameCount}" *)
| LogMovement (m : float * float) (* "Player Movement: ${movement.array()}" *).

Inductive Effect : Set :=
| ConsoleLog (msg : LogMessage)
| DrawFPS (frameCount : float)    (* drawFPS(uiCtx, frameCount) *)
| UpdateLayer (p : Player.t)      (* updateLayer(objCtx, ctx => player.draw(ctx)) *)
| RequestAnimationFrame           (* requestAnimationFrame(gameLoop) *)
| SetTimeout (delay : float)      (* setTimeout(() => requestAnimationFrame(gameLoop), delay) *).

(** ** Key events

    What the browser hands to a [keydown] or [keyup] listener:
    [event.key]. *)
Inductive KeyEvent : Set :=
| keydown (key : string)
| keyup (key : string).

(** The [switch (event.key)] of the key listeners of part_001:180 and 205
    and of the first prototype, part_000:601: the cases "w"/"W", "a"/"A",
    "s"/"S" and "d"/"D", in this order; any other key leaves the switch
    without a statement. *)
Inductive Direction : Set := Up | Left | Down | Right.

Definition keyDirection (key : string) : option Direction :=
  if (key =? "w")%string || (key =? "W")%string then Some Up
  else if (key =? "a")%string || (key =? "A")%string then Some Left
  else if (key =? "s")%string || (key =? "S")%string then Some Down
  else if (key =? "d")%string || (key =? "D")%string then Some Right
  else None.

(** ** The 2D context of a canvas

    A drawing procedure is embedded as the list of the method calls and
    property assignments it performs on its [ctx], in the order of the
    source. *)
Module Canvas.

(** The text handed to [fillText]: [`FPS: ${frameCount}`]. *)
Inductive Text : Set := FPSText (frameCount : float).

Inductive Call : Set :=
| save
| restore
| beginPath
| set_strokeStyle (color : string)     (* ctx.strokeStyle = color *)
| set_lineWidth (lineWidth : float)    (* ctx.lineWidth = lineWidth *)
| moveTo (x y : float)
| lineTo (x y : float)
| stroke
| set_fillStyle (color : string)       (* ctx.fillStyle = color *)
| arc (x y radius startAngle endAngle : float)
| fill
| clearRect (x y w h : float)
| fillRect (x y w h : float)
| set_font (font : string)             (* ctx.font = font *)
| set_textAlign (align : string)       (* ctx.textAlign = align *)
| fillText (text : Text) (x y maxWidth : float)
| scale (x y : float).

(** [ctx.canvas.width] and [ctx.canvas.height], as a procedure reads
    them. *)
Record Size : Set := mkSize { width : float; height : float }.

(** What [ctx.measureText] answers; the procedure reads three fields. *)
Record TextMetrics : Set := mkTextMetrics
  { metrics_width : float;
    actualBoundingBoxAscent : float;
    actualBoundingBoxDescent : float }.

(** *** What the browser does with the calls

    The drawing state of a context, as far as the procedures assign it,
    and the stack of saved states: [save()] pushes a copy of the current
    state, [restore()] pops the last one saved and does nothing on an
    empty stack, [scale(x, y)] multiplies the scaling of the current
    transformation.  The path and painting calls do not touch the
    state. *)
Record State : Set := mkState
  { strokeStyle : string;
    lineWidth : float;
    fillStyle : string;
    font : string;
    textAlign : string;
    scaleX : float;
    scaleY : float }.

Record Context : Set := mkContext { current : State; saved : list State }.

Definition perform (ctx : Context) (c : Call) : Context :=
  let s := current ctx in
  let assign s' := mkContext s' (saved ctx) in
  match c with
  | save => mkContext s (s :: saved ctx)
  | restore =>
      match saved ctx with
      | [] => ctx
      | s' :: rest => mkContext s' rest
      end
  | set_strokeStyle v =>
      assign (mkState v (lineWidth s) (fillStyle s) (font s) (textAlign s)
                      (scaleX s) (scaleY s))
  | set_lineWidth v =>
      assign (mkState (strokeStyle s) v (fillStyle s) (font s) (textAlign s)
                      (scaleX s) (scaleY s))
  | set_fillStyle v =>
      assign (mkState (strokeStyle s) (lineWidth s) v (font s) (textAlign s)
                      (scaleX s) (scaleY s))
  | set_font v =>
      assign (mkState (strokeStyle s) (lineWidth s) (fillStyle s) v
                      (textAlign s) (scaleX s) (scaleY s))
  | set_textAlign v =>
      assign (mkState (strokeStyle s) (lineWidth s) (fillStyle s) (font s) v
                      (scaleX s) (scaleY s))
  | scale x y =>
      assign (mkState (strokeStyle s) (lineWidth s) (fillStyle s) (font s)
                      (textAlign s) (scaleX s * x) (scaleY s * y))
  | beginPath | moveTo _ _ | lineTo _ _ | stroke | arc _ _ _ _ _ | fill
  | clearRect _ _ _ _ | fillRect _ _ _ _ | fillText _ _ _ _ => ctx
  end.

Definition run (ctx : Context) (cs : list Call) : Context :=
  fold_left perform cs ctx.

End Canvas.

(** ** The drawing procedures

    [drawLine], [drawCircle], [drawGrid] and [updateLayer] have the same
    text in game.ts, part_000 and part_001.  Every call in the sources
    passes [lineWidth] to [drawLine] and [color] to [drawCircle]; the
    default values of those parameters are not part of the embedding. *)

(** [Math.PI]. *)
Definition Math_PI : float := 3.141592653589793.

(** [drawLine(ctx, p1, p2, color, lineWidth)], game.ts:143. *)
Definition drawLine (p1 p2 : Vector2.t) (color : string) (lineWidth : float)
  : list Canvas.Call :=
  let (x1, y1) := Vector2.array p1 in
  let (x2, y2) := Vector2.array p2 in
  [Canvas.save; Canvas.beginPath;
   Canvas.set_strokeStyle color; Canvas.set_lineWidth lineWidth;
   Canvas.moveTo x1 y1; Canvas.lineTo x2 y2;
   Canvas.stroke; Canvas.restore].

(** [drawCircle(ctx, p, radius, color)], game.ts:160. *)
Definition drawCircle (p : Vector2.t) (radius : float) (color : string)
  : list Canvas.Call :=
  let (x, y) := Vector2.array p in
  [Canvas.save; Canvas.beginPath;
   Canvas.set_fillStyle color;
   Canvas.arc x y radius 0 (2 * Math_PI);
   Canvas.fill; Canvas.restore].

(** [Player.draw(ctx)], game.ts:46. *)
Definition Player_draw (this : Player.t) : list Canvas.Call :=
  drawCircle (Player.position this) (Player.radius this) (Player.color this).

(** [for (let i = start; i <= limit; ++i) body(i)] with a numeric counter.
    The loop is run on fuel; [None] says that the fuel ran out before the
    test failed. *)
Fixpoint for_upto (fuel : nat) (i limit : float)
                  (body : float -> list Canvas.Call)
  : option (list Canvas.Call) :=
  match fuel with
  | O => None
  | S fuel =>
      if i <=? limit
      then match for_upto fuel (i + 1) limit body with
           | Some rest => Some (body i ++ rest)
           | None => None
           end
      else Some []
  end.

(** [drawGrid(ctx, color)], game.ts:174, for the constants [GRID_COLS] and
    [GRID_ROWS] of the version.  The second loop starts when the first has
    ended. *)
Definition drawGrid (GRID_COLS GRID_ROWS : float) (fuel : nat)
                    (color : string) : option (list Canvas.Call) :=
  match for_upto fuel 0 GRID_COLS
          (fun x => drawLine (Vector2.new x 0) (Vector2.new x GRID_ROWS)
                             color 0.1) with
  | None => None
  | Some columns =>
      match for_upto fuel 0 GRID_ROWS
              (fun y => drawLine (Vector2.new 0 y) (Vector2.new GRID_COLS y)
                                 color 0.1) with
      | None => None
      | Some rows => Some (columns ++ rows)
      end
  end.

(** The default value of the parameter [color] of [drawGrid]. *)
Definition drawGrid_color : string := "#303030".

(** [updateLayer(ctx, drawFn)], game.ts:183: nothing for a null context,
    else the whole canvas is cleared and [drawFn] draws. *)
Definition updateLayer (ctx : option Canvas.Size)
                       (drawFn : Canvas.Size -> option (list Canvas.Call))
  : option (list Canvas.Call) :=
  match ctx with
  | None => Some []
  | Some ctx =>
      match drawFn ctx with
      | Some drawn =>
          Some (Canvas.clearRect 0 0 (Canvas.width ctx) (Canvas.height ctx)
                :: drawn)
      | None => None
      end
  end.

(** [drawFPS(ctx, frameCount)], game.ts:194 and part_000:335.  [metrics]
    is what [ctx.measureText] answered; [metrics && ctx] is a test of two
    objects and holds. *)
Definition drawFPS (ctx : Canvas.Size) (metrics : Canvas.TextMetrics)
                   (frameCount : float) : list Canvas.Call :=
  let fontHeight :=
    Canvas.actualBoundingBoxAscent metrics
    + Canvas.actualBoundingBoxDescent metrics in
  [Canvas.clearRect 0 0 (Canvas.width ctx) (Canvas.height ctx);
   Canvas.set_font "50px Arial";
   Canvas.set_fillStyle "white";
   Canvas.set_textAlign "right";
   Canvas.fillText (Canvas.FPSText frameCount)
     (Canvas.width ctx - Canvas.metrics_width metrics - 10)
     (fontHeight + 10) 100].

(** The background every version paints once: the body of
    [initBackground] of part_000:449 and of the [updateLayer(bgCtx, ...)]
    call of game.ts:250. *)
Definition initBackground (GRID_COLS GRID_ROWS : float) (fuel : nat)
                          (ctx : Canvas.Size) : option (list Canvas.Call) :=
  updateLayer (Some ctx)
    (fun ctx =>
       match drawGrid GRID_COLS GRID_ROWS fuel drawGrid_color with
       | Some grid =>
           Some (Canvas.set_fillStyle "#181818"
                 :: Canvas.fillRect 0 0 (Canvas.width ctx) (Canvas.height ctx)
                 :: grid)
       | None => None
       end).

(** ** The document

    What the start-up code sees of the page: the canvas elements it looks
    up by id, their size, and whether [getContext("2d")] answers a
    context or [null]. *)
Module Dom.

Record HTMLCanvasElement : Set := mkCanvas
  { width : float; height : float; supports2d : bool }.

(** [document.getElementById]; [None] is [null]. *)
Definition Document : Set := string -> option HTMLCanvasElement.

(** The document after an assignment to a field of the element [id]. *)
Definition update (document : Document) (id : string)
                  (c : HTMLCanvasElement) : Document :=
  fun id' => if (id' =? id)%string then Some c else document id'.

(** [c.width = w; c.height = h]. *)
Definition resize (c : HTMLCanvasElement) (w h : float)
  : HTMLCanvasElement :=
  mkCanvas w h (supports2d c).

(** A 2D context: its canvas, as [ctx.canvas] shows it, and the calls
    made on the context so far. *)
Record RenderingContext : Set := mkContext
  { canvas : HTMLCanvasElement; calls : list Canvas.Call }.

(** [c.getContext("2d")]. *)
Definition getContext (c : HTMLCanvasElement) : option RenderingContext :=
  if supports2d c then Some (mkContext c []) else None.

(** The context after further calls, and the context of an element whose
    fields have been assigned: [ctx.canvas] is the element itself. *)
Definition call (ctx : RenderingContext) (cs : list Canvas.Call)
  : RenderingContext :=
  mkContext (canvas ctx) (calls ctx ++ cs).

Definition onCanvas (ctx : RenderingContext) (c : HTMLCanvasElement)
  : RenderingContext :=
  mkContext c (calls ctx).

Definition size (ctx : RenderingContext) : Canvas.Size :=
  Canvas.mkSize (width (canvas ctx)) (height (canvas ctx)).

(** [ctx.scale(ctx.canvas.width / cols, ctx.canvas.height / rows)]. *)
Definition scaleToGrid (cols rows : float) (ctx : RenderingContext)
  : RenderingContext :=
  call ctx [Canvas.scale (width (canvas ctx) / cols)
                         (height (canvas ctx) / rows)].

(** How a piece of start-up code ends: with a thrown [Error] or with its
    value. *)
Inductive Completion (A : Set) : Set :=
| Throw (message : string)
| Return (value : A).
Arguments Throw {A} message.
Arguments Return {A} value.

(** The four contexts of the layered versions. *)
Record Layers : Set := mkLayers
  { bgCtx : RenderingContext;
    objCtx : RenderingContext;
    evtCtx : RenderingContext;
    uiCtx : RenderingContext }.

End Dom.

(** ** The blocks the three game loops share *)

(** The four [if (held) movement.add(new Vector2(..))] statements, on a
    fresh [new Vector2(0, 0)], for the held directions in the order up, down,
    left, right (game.ts:290-294, part_000:382-386, part_001:270-274). *)
Definition accumulate (up down left right : bool) (speed dt : float)
  : Vector2.t :=
  let movement := Vector2.new 0 0 in
  let movement :=
    if up then Vector2.add movement (Vector2.new 0 (- speed * dt))
    else movement in
  let movement :=
    if down then Vector2.add movement (Vector2.new 0 (speed * dt))
    else movement in
  let movement :=
    if left then Vector2.add movement (Vector2.new (- speed * dt) 0)
    else movement in
  let movement :=
    if right then Vector2.add movement (Vector2.new (speed * dt) 0)
    else movement in
  movement.

(** The FPS block of game.ts:282-288 and part_001:261-267:
[[
    if (currentTime > lastFPS + 1000) {
      lastFPS = currentTime;
      if (uiCtx) drawFPS(uiCtx, frameCount);
      console.log(`[t-game]: FPS: ${frameCount}`);
      frameCount = 0;
    }
    frameCount++;
]]
    It returns the new [lastFPS], the new [frameCount] and the effects. *)
Definition sampleFPS (currentTime lastFPS frameCount : float)
  : float * float * list Effect :=
  let '(lastFPS, frameCount, out) :=
    if currentTime >? lastFPS + 1000
    then (currentTime, 0, [DrawFPS frameCount; ConsoleLog (LogFPS frameCount)])
    else (lastFPS, frameCount, []) in
  (lastFPS, frameCount + 1, out).

(** ** game.ts

    [const GRID_ROWS = 10; const GRID_COLS = 10;] *)
Module Game.

Definition GRID_ROWS : float := 10.
Definition GRID_COLS : float := 10.

(** [Player.move], game.ts:30. *)
Definition move (this : Player.t) (direction : Vector2.t) : Player.t :=
  let normalizedDirection := fst (Vector2.normalize direction) in
  let deltaX := Vector2.x normalizedDirection * Player.speed this in
  let deltaY := Vector2.y normalizedDirection * Player.speed this in
  let newX := Vector2.x (Player.position this) + deltaX in
  let newY := Vector2.y (Player.position this) + deltaY in
  let this :=
    if (newX >=? 0) && (newX <=? GRID_COLS) then Player.set_x this newX
    else this in
  let this :=
    if (newY >=? 0) && (newY <=? GRID_ROWS) then Player.set_y this newY
    else this in
  this.

(** The variables the closure [gameLoop] reads and assigns. *)
Record State : Set := mkState
  { GAMERUN : bool;
    player1 : Player.t;
    lastTime : float;
    lastFPS : float;
    frameCount : float;
    inputManager : InputManager.t;
    paused : bool;
    lastPausePressed : bool }.

(** The raw movement of game.ts:290-296.  [movement.normalize()] is the
    allocating method and its result is dropped, so [movement] is what the
    accumulation left. *)
Definition readMovement (im : InputManager.t) (speed dt : float)
  : Vector2.t :=
  let movement :=
    accumulate (InputManager.isKeyPressed im "w")
               (InputManager.isKeyPressed im "s")
               (InputManager.isKeyPressed im "a")
               (InputManager.isKeyPressed im "d") speed dt in
  if (Vector2.x movement !== 0) || (Vector2.y movement !== 0)
  then snd (Vector2.normalize movement)
  else movement.

(** [gameLoop(currentTime)], game.ts:264.  No statement of the file
    assigns [lastPausePressed]. *)
Definition gameLoop (currentTime : float) (s : State)
  : State * list Effect :=
  if negb (GAMERUN s) then (s, []) else
  let pausePressed := InputManager.isKeyPressed (inputManager s) "Escape" in
  let '(paused, out) :=
    if pausePressed && negb (lastPausePressed s)
    then (negb (paused s), [ConsoleLog (LogPause (negb (paused s)))])
    else (paused s, []) in
  if paused then
    (mkState (GAMERUN s) (player1 s) (lastTime s) (lastFPS s) (frameCount s)
             (inputManager s) paused (lastPausePressed s),
     out ++ [RequestAnimationFrame])
  else
  let dt := (currentTime - lastTime s) / 1000 in
  let lastTime := currentTime in
  let '(lastFPS, frameCount, fps) :=
    sampleFPS currentTime (lastFPS s) (frameCount s) in
  let movement :=
    readMovement (inputManager s) (Player.speed (player1 s)) dt in
  let player1 := move (player1 s) movement in
  (mkState (GAMERUN s) player1 lastTime lastFPS frameCount
           (inputManager s) paused (lastPausePressed s),
   out ++ fps
       ++ [ConsoleLog (LogMovement (Vector2.array movement));
           UpdateLayer player1;
           RequestAnimationFrame]).

(** The state the start-up code builds before the first call
    [gameLoop(performance.now())]: [t0] and [t1] are the two clock reads
    that initialise [lastTime] and [lastFPS]. *)
Definition initial (t0 t1 : float) : State :=
  mkState true initial_player t0 t1 0 (InputManager.new keyboard)
          false false.

(** *** The loop in its environment

    Between two ticks the browser delivers key events to the handlers of
    [inputManager]; an animation frame calls [gameLoop] only if the
    previous call (or the start-up code) asked for one. *)
Inductive Event : Set :=
| KeyDown (key : string)
| KeyUp (key : string)
| AnimationFrame (currentTime : float).

Record Session : Set := mkSession
  { state : State; pending : bool; trace : list Effect }.

Definition withInput (s : State) (im : InputManager.t) : State :=
  mkState (GAMERUN s) (player1 s) (lastTime s) (lastFPS s) (frameCount s)
          im (paused s) (lastPausePressed s).

Definition requestsFrame (out : list Effect) : bool :=
  existsb (fun e => match e with RequestAnimationFrame => true
                           | _ => false end) out.

Definition deliver (ss : Session) (e : Event) : Session :=
  match e with
  | KeyDown k =>
      mkSession
        (withInput (state ss)
                   (InputManager.onKeyDown (inputManager (state ss)) k))
        (pending ss) (trace ss)
  | KeyUp k =>
      mkSession
        (withInput (state ss)
                   (InputManager.onKeyUp (inputManager (state ss)) k))
        (pending ss) (trace ss)
  | AnimationFrame t =>
      if pending ss then
        let (s', out) := gameLoop t (state ss) in
        mkSession s' (requestsFrame out) (trace ss ++ out)
      else ss
  end.

Definition run (ss : Session) (es : list Event) : Session :=
  fold_left deliver es ss.

(** [GAMERUN = true; gameLoop(performance.now());] *)
Definition start (t0 t1 : float) : Session :=
  mkSession (initial t0 t1) true [].

(** How many times a trace reports a change of [paused]. *)
Definition pauseToggles (out : list Effect) : nat :=
  List.length
    (filter (fun e => match e with ConsoleLog (LogPause _) => true
                            | _ => false end) out).

(** [paused] as the test of game.ts:274 sees it. *)
Definition pausedAfterCheck (s : State) : bool :=
  if InputManager.isKeyPressed (inputManager s) "Escape"
     && negb (lastPausePressed s)
  then negb (paused s) else paused s.

(** *** Start-up, game.ts:212-245

    The four canvases are looked up and their contexts obtained at the top
    level of the script, each step throwing when something is missing;
    the body of the asynchronous function then sizes the three layers and
    scales their contexts to the grid.  The UI canvas is neither sized
    nor scaled. *)
Definition setup (document : Dom.Document)
  : Dom.Document * Dom.Completion Dom.Layers :=
  match document "background"%string, document "objects"%string,
        document "events"%string, document "ui"%string with
  | Some gameBackground, Some gameObjects, Some gameEvents, Some gameUi =>
      match Dom.getContext gameBackground, Dom.getContext gameObjects,
            Dom.getContext gameEvents, Dom.getContext gameUi with
      | Some bgCtx, Some objCtx, Some evtCtx, Some uiCtx =>
          let gameBackground := Dom.resize gameBackground 800 800 in
          let gameObjects := Dom.resize gameObjects 800 800 in
          let gameEvents := Dom.resize gameEvents 800 800 in
          let document := Dom.update document "background" gameBackground in
          let document := Dom.update document "objects" gameObjects in
          let document := Dom.update document "events" gameEvents in
          let bgCtx := Dom.onCanvas bgCtx gameBackground in
          let objCtx := Dom.onCanvas objCtx gameObjects in
          let evtCtx := Dom.onCanvas evtCtx gameEvents in
          (document,
           Dom.Return
             (Dom.mkLayers (Dom.scaleToGrid GRID_COLS GRID_ROWS bgCtx)
                           (Dom.scaleToGrid GRID_COLS GRID_ROWS objCtx)
                           (Dom.scaleToGrid GRID_COLS GRID_ROWS evtCtx)
                           uiCtx))
      | _, _, _, _ =>
          (document,
           Dom.Throw "2D context is not supported on one or more canvases")
      end
  | _, _, _, _ => (document, Dom.Throw "One or more canvases not found")
  end.

End Game.

(** ** part_000 (the refactored version)

    [GRID_COLS] and [GRID_ROWS] are imported from [./config.js], which is
    not among the sources. *)
Module Part000.

(** Modelled from the spec: the constants of config.js, from the glossary
    entry "Grid unit: one cell of the fixed-size logical playfield (10x10
    in all variants)". *)
Definition GRID_ROWS : float := 10.
Definition GRID_COLS : float := 10.

(** [Player.move], part_000:45. *)
Definition move (this : Player.t) (direction : Vector2.t) : Player.t :=
  let normalizedDirection := fst (Vector2.normalize direction) in
  let deltaX := Vector2.x normalizedDirection * Player.speed this in
  let deltaY := Vector2.y normalizedDirection * Player.speed this in
  let newX := Vector2.x (Player.position this) + deltaX in
  let newY := Vector2.y (Player.position this) + deltaY in
  let this :=
    if (newX - Player.radius this >=? 0)
       && (newX + Player.radius this <=? GRID_COLS)
    then Player.set_x this newX else this in
  let this :=
    if (newY - Player.radius this >=? 0)
       && (newY + Player.radius this <=? GRID_ROWS)
    then Player.set_y this newY else this in
  this.

(** [updateFPS(ctx, lastFPS, frameCount)], part_000:362.  The function
    reads the clock itself: [now1] is the [performance.now()] of the test,
    [now2] the one assigned to [lastFPS]. *)
Definition updateFPS (now1 now2 lastFPS frameCount : float)
  : float * float * list Effect :=
  if now1 >? lastFPS + 1000
  then (now2, 0, [DrawFPS frameCount; ConsoleLog (LogFPS frameCount)])
  else (lastFPS, frameCount, []).

(** [handleInput(player, inputManager, dt)], part_000:381. *)
Definition handleInput (player : Player.t) (im : InputManager.t)
                       (dt : float) : Vector2.t :=
  let pressed := InputManager.isKeyPressed im in
  let movement :=
    accumulate (pressed "w" || pressed "arrowup")%string
               (pressed "s" || pressed "arrowdown")%string
               (pressed "a" || pressed "arrowleft")%string
               (pressed "d" || pressed "arrowright")%string
               (Player.speed player) dt in
  if (Vector2.x movement !== 0) || (Vector2.y movement !== 0)
  then fst (Vector2.normalize movement)
  else Vector2.new 0 0.

Record State : Set := mkState
  { GAMERUN : bool;
    player : Player.t;
    lastTime : float;
    lastFPS : float;
    frameCount : float;
    inputManager : InputManager.t }.

(** [gameLoop(currentTime)], part_000:482. *)
Definition gameLoop (currentTime now1 now2 : float) (s : State)
  : State * list Effect :=
  if negb (GAMERUN s) then (s, []) else
  let dt := (currentTime - lastTime s) / 1000 in
  let lastTime := currentTime in
  let '(lastFPS, frameCount, fps) :=
    updateFPS now1 now2 (lastFPS s) (frameCount s) in
  let frameCount := frameCount + 1 in
  let movement := handleInput (player s) (inputManager s) dt in
  let player := move (player s) movement in
  (mkState (GAMERUN s) player lastTime lastFPS frameCount (inputManager s),
   fps ++ [UpdateLayer player; RequestAnimationFrame]).

(** [initCanvas()], part_000:399.  The three layers are sized before the
    contexts are asked for. *)
Definition initCanvas (document : Dom.Document)
  : Dom.Document * Dom.Completion Dom.Layers :=
  match document "background"%string, document "objects"%string,
        document "events"%string, document "ui"%string with
  | Some gameBackground, Some gameObjects, Some gameEvents, Some gameUi =>
      let gameBackground := Dom.resize gameBackground 800 800 in
      let gameObjects := Dom.resize gameObjects 800 800 in
      let gameEvents := Dom.resize gameEvents 800 800 in
      let document := Dom.update document "background" gameBackground in
      let document := Dom.update document "objects" gameObjects in
      let document := Dom.update document "events" gameEvents in
      match Dom.getContext gameBackground, Dom.getContext gameObjects,
            Dom.getContext gameEvents, Dom.getContext gameUi with
      | Some bgCtx, Some objCtx, Some evtCtx, Some uiCtx =>
          (document,
           Dom.Return
             (Dom.mkLayers (Dom.scaleToGrid GRID_COLS GRID_ROWS bgCtx)
                           (Dom.scaleToGrid GRID_COLS GRID_ROWS objCtx)
                           (Dom.scaleToGrid GRID_COLS GRID_ROWS evtCtx)
                           uiCtx))
      | _, _, _, _ =>
          (document,
           Dom.Throw "2D context is not supported on one or more canvases")
      end
  | _, _, _, _ => (document, Dom.Throw "One or more canvases not found")
  end.

(** [initPlayer(ctx)], part_000:464: the player and the calls that draw
    it. *)
Definition initPlayer : Player.t * list Canvas.Call :=
  let player := Player.new (Vector2.new 0.5 0.5) 0.2 "lightgreen" 0.05 in
  (player, Player_draw player).

(** [class Wall], part_000:228. *)
Record Wall : Set := mkWall
  { wall_position : Vector2.t;
    wall_width : float;
    wall_height : float;
    wall_color : string }.

(** [Wall.draw(ctx)]. *)
Definition Wall_draw (this : Wall) : list Canvas.Call :=
  let (x, y) := Vector2.array (wall_position this) in
  [Canvas.save;
   Canvas.set_fillStyle (wall_color this);
   Canvas.fillRect x y (wall_width this) (wall_height this);
   Canvas.restore].

End Part000.

(** ** part_001 (movement flags, in-place normalize) *)
Module Part001.

Definition GRID_ROWS : float := 10.
Definition GRID_COLS : float := 10.
Definition FPS : float := 60.
Definition frameDuration : float := 1000 / FPS.

(** [Player.move], part_001:30.  The text is that of game.ts, but
    [direction.normalize()] is the in-place method: the caller's vector is
    normalized as a side effect, so [move] returns it as well. *)
Definition move (this : Player.t) (direction : Vector2.t)
  : Player.t * Vector2.t :=
  let (normalizedDirection, direction) :=
    Vector2.normalize_in_place direction in
  let deltaX := Vector2.x normalizedDirection * Player.speed this in
  let deltaY := Vector2.y normalizedDirection * Player.speed this in
  let newX := Vector2.x (Player.position this) + deltaX in
  let newY := Vector2.y (Player.position this) + deltaY in
  let this :=
    if (newX >=? 0) && (newX <=? GRID_COLS) then Player.set_x this newX
    else this in
  let this :=
    if (newY >=? 0) && (newY <=? GRID_ROWS) then Player.set_y this newY
    else this in
  (this, direction).

Record State : Set := mkState
  { GAMERUN : bool;
    player1 : Player.t;
    lastTime : float;
    lastFPS : float;
    frameCount : float;
    moveUp : bool;
    moveDown : bool;
    moveLeft : bool;
    moveRight : bool }.

(** The raw movement of part_001:270-276; here [movement.normalize()]
    does assign to [movement]. *)
Definition readMovement (s : State) (dt : float) : Vector2.t :=
  let movement :=
    accumulate (moveUp s) (moveDown s) (moveLeft s) (moveRight s)
               (Player.speed (player1 s)) dt in
  if (Vector2.x movement !== 0) || (Vector2.y movement !== 0)
  then snd (Vector2.normalize_in_place movement)
  else movement.

(** [gameLoop(currentTime)], part_001:256. *)
Definition gameLoop (currentTime : float) (s : State)
  : State * list Effect :=
  if negb (GAMERUN s) then (s, []) else
  let dt := (currentTime - lastTime s) / 1000 in
  let lastTime := currentTime in
  let '(lastFPS, frameCount, fps) :=
    sampleFPS currentTime (lastFPS s) (frameCount s) in
  let movement := readMovement s dt in
  let '(player1, movement) := move (player1 s) movement in
  (mkState (GAMERUN s) player1 lastTime lastFPS frameCount
           (moveUp s) (moveDown s) (moveLeft s) (moveRight s),
   fps ++ [ConsoleLog (LogMovement (Vector2.array movement));
           UpdateLayer player1;
           if dt >? frameDuration then RequestAnimationFrame
           else SetTimeout (frameDuration - dt)]).

(** [drawFPS(ctx, frameCount)] of part_001:129: the text of game.ts
    without the assignments to [fillStyle] and [textAlign]. *)
Definition drawFPS (ctx : Canvas.Size) (metrics : Canvas.TextMetrics)
                   (frameCount : float) : list Canvas.Call :=
  let fontHeight :=
    Canvas.actualBoundingBoxAscent metrics
    + Canvas.actualBoundingBoxDescent metrics in
  [Canvas.clearRect 0 0 (Canvas.width ctx) (Canvas.height ctx);
   Canvas.set_font "50px Arial";
   Canvas.fillText (Canvas.FPSText frameCount)
     (Canvas.width ctx - Canvas.metrics_width metrics - 10)
     (fontHeight + 10) 100].

(** *** The key listeners, part_001:179 and 204

    Both listeners are the [switch (event.key)] of [keyDirection]; the
    cases assign the flag of the direction and log a line. *)

(** [moveUp = v], [moveLeft = v], [moveDown = v], [moveRight = v]. *)
Definition setFlag (d : Direction) (v : bool) (s : State) : State :=
  match d with
  | Up =>
      mkState (GAMERUN s) (player1 s) (lastTime s) (lastFPS s) (frameCount s)
              v (moveDown s) (moveLeft s) (moveRight s)
  | Left =>
      mkState (GAMERUN s) (player1 s) (lastTime s) (lastFPS s) (frameCount s)
              (moveUp s) (moveDown s) v (moveRight s)
  | Down =>
      mkState (GAMERUN s) (player1 s) (lastTime s) (lastFPS s) (frameCount s)
              (moveUp s) v (moveLeft s) (moveRight s)
  | Right =>
      mkState (GAMERUN s) (player1 s) (lastTime s) (lastFPS s) (frameCount s)
              (moveUp s) (moveDown s) (moveLeft s) v
  end.

(** The line a listener logs: "[t-game]: `keydown` Movement `Up`". *)
Inductive KeyLog : Set := LogKey (e : string) (d : Direction).

Definition onKeyDown (key : string) (s : State) : State * list KeyLog :=
  match keyDirection key with
  | Some d => (setFlag d true s, [LogKey "keydown" d])
  | None => (s, [])
  end.

Definition onKeyUp (key : string) (s : State) : State * list KeyLog :=
  match keyDirection key with
  | Some d => (setFlag d false s, [LogKey "keyup" d])
  | None => (s, [])
  end.

(** The listener the document runs on a key event. *)
Definition listen (s : State) (e : KeyEvent) : State * list KeyLog :=
  match e with
  | keydown key => onKeyDown key s
  | keyup key => onKeyUp key s
  end.

(** The state the start-up code builds: the four flags are false. *)
Definition initial (t0 t1 : float) : State :=
  mkState true initial_player t0 t1 0 false false false false.

End Part001.

(** ** class InputManager, with the mouse

    The object with its four fields: the keyboard half [InputManager.t]
    above, which is all the game loops read, and the two mouse fields
    (game.ts:79, part_000:123). *)
Module FullInputManager.

(** SameValueZero, the equality of a [Set] on numbers: [NaN] is equal to
    [NaN], and [+0] to [-0]. *)
Definition sameValueZero (a b : float) : bool :=
  (a =? b) || (is_nan a && is_nan b).

Record t : Set := mk
  { keyboard_fields : InputManager.t;
    mouseButtons : list float;
    mousePosition : Vector2.t }.

Definition type (this : t) : InputManagerTypes :=
  InputManager.type (keyboard_fields this).

(** The events the listeners of the class take, with the fields they
    read: [event.key], [event.button], [event.offsetX] and
    [event.offsetY]. *)
Inductive DomEvent : Set :=
| key_event (e : KeyEvent)
| mousedown (button : float)
| mouseup (button : float)
| mousemove (offsetX offsetY : float).

(** The constructor: the fields start empty, and the listeners that
    [document.addEventListener] registers depend on [type]. *)
Definition new (type : InputManagerTypes) : t :=
  mk (InputManager.new type) [] (Vector2.new 0 0).

Definition registered (type : InputManagerTypes) (e : DomEvent) : bool :=
  match type, e with
  | keyboard, key_event _ => true
  | mouse, (mousedown _ | mouseup _ | mousemove _ _) => true
  | _, _ => false
  end.

Definition has (b : float) (s : list float) : bool :=
  existsb (sameValueZero b) s.
Definition set_add (b : float) (s : list float) : list float :=
  if has b s then s else s ++ [b].
Definition set_delete (b : float) (s : list float) : list float :=
  filter (fun b' => negb (sameValueZero b b')) s.

Definition onKeyDown (this : t) (key : string) : t :=
  mk (InputManager.onKeyDown (keyboard_fields this) key)
     (mouseButtons this) (mousePosition this).

Definition onKeyUp (this : t) (key : string) : t :=
  mk (InputManager.onKeyUp (keyboard_fields this) key)
     (mouseButtons this) (mousePosition this).

Definition onMouseDown (this : t) (button : float) : t :=
  match type this with
  | mouse => mk (keyboard_fields this) (set_add button (mouseButtons this))
                (mousePosition this)
  | keyboard => this
  end.

Definition onMouseUp (this : t) (button : float) : t :=
  match type this with
  | mouse => mk (keyboard_fields this)
                (set_delete button (mouseButtons this)) (mousePosition this)
  | keyboard => this
  end.

Definition onMouseMove (this : t) (offsetX offsetY : float) : t :=
  match type this with
  | mouse => mk (keyboard_fields this) (mouseButtons this)
                (Vector2.new offsetX offsetY)
  | keyboard => this
  end.

Definition getMousePosition (this : t) : Vector2.t := mousePosition this.

Definition isMouseButtonPressed (this : t) (button : float) : bool :=
  has button (mouseButtons this).

Definition isKeyPressed (this : t) (key : string) : bool :=
  InputManager.isKeyPressed (keyboard_fields this) key.

(** A listener of the object, called by the browser. *)
Definition handle (this : t) (e : DomEvent) : t :=
  match e with
  | key_event (keydown key) => onKeyDown this key
  | key_event (keyup key) => onKeyUp this key
  | mousedown button => onMouseDown this button
  | mouseup button => onMouseUp this button
  | mousemove offsetX offsetY => onMouseMove this offsetX offsetY
  end.

(** The document delivers an event to the listeners registered for it. *)
Definition dispatch (this : t) (e : DomEvent) : t :=
  if registered (type this) e then handle this e else this.

End FullInputManager.

(** ** The first prototype, part_000:505-626

    One canvas, no game loop: the [keydown] listener moves the player by
    half a cell and redraws everything. *)
Module Prototype.

Definition GRID_ROWS : float := 10.
Definition GRID_COLS : float := 10.
Definition playerRadius : float := 0.2.
Definition playerColor : string := "lightgreen".

(** [const speed = 0.5] of the listener. *)
Definition speed : float := 0.5.

(** What the prototype sends to the console and to the context, in
    order. *)
Inductive Output : Set :=
| LogMovement (d : Direction)          (* "[t-game]: Movement `Up`" *)
| LogPlayerPos (pos : float * float)   (* "[t-game]: Player Pos: ${player1.array()}" *)
| Draw (c : Canvas.Call).

(** The two [for] loops that draw the grid, part_000:573 and 589. *)
Definition gridLines (fuel : nat) : option (list Canvas.Call) :=
  drawGrid GRID_COLS GRID_ROWS fuel "#303030".

(** [updateContext(ctx)], part_000:584. *)
Definition updateContext (fuel : nat) (ctx : Canvas.Size)
                         (player1 : Vector2.t) : option (list Output) :=
  match gridLines fuel with
  | None => None
  | Some lines =>
      Some (map Draw
              ([Canvas.clearRect 0 0 (Canvas.width ctx) (Canvas.height ctx);
                Canvas.set_fillStyle "#181818";
                Canvas.fillRect 0 0 (Canvas.width ctx) (Canvas.height ctx)]
               ++ lines)
            ++ LogPlayerPos (Vector2.array player1)
            :: map Draw (drawCircle player1 playerRadius playerColor))
  end.

(** The [switch] of the [keydown] listener, part_000:601: the move, if
    its bound allows it, and the line logged. *)
Definition move (key : string) (player1 : Vector2.t)
  : Vector2.t * list Output :=
  let x := Vector2.x player1 in
  let y := Vector2.y player1 in
  match keyDirection key with
  | Some Up =>
      (if y - speed >=? 0 then Vector2.new x (y - speed) else player1,
       [LogMovement Up])
  | Some Left =>
      (if x - speed >=? 0 then Vector2.new (x - speed) y else player1,
       [LogMovement Left])
  | Some Down =>
      (if y + speed <=? GRID_ROWS then Vector2.new x (y + speed)
       else player1,
       [LogMovement Down])
  | Some Right =>
      (if x + speed <=? GRID_COLS then Vector2.new (x + speed) y
       else player1,
       [LogMovement Right])
  | None => (player1, [])
  end.

(** The [keydown] listener, part_000:599. *)
Definition onKeyDown (fuel : nat) (ctx : Canvas.Size) (key : string)
                     (player1 : Vector2.t)
  : option (Vector2.t * list Output) :=
  let (player1, logged) := move key player1 in
  match updateContext fuel ctx player1 with
  | Some drawn => Some (player1, logged ++ drawn)
  | None => None
  end.

(** The start-up code, part_000:556-582: the canvas is looked up and
    sized, the background and the grid are drawn, and the player is
    created. *)
Definition main (fuel : nat) (document : Dom.Document)
  : option (Dom.Document
            * Dom.Completion (Dom.RenderingContext * Vector2.t)) :=
  match document "game"%string with
  | None =>
      Some (document, Dom.Throw "Canvas with the id `game` not found")
  | Some game =>
      let game := Dom.resize game 800 800 in
      let document := Dom.update document "game" game in
      match Dom.getContext game with
      | None => Some (document, Dom.Throw "2D context is not supported")
      | Some ctx =>
          match gridLines fuel with
          | None => None
          | Some lines =>
              let ctx :=
                Dom.call ctx
                  [Canvas.set_fillStyle "#181818";
                   Canvas.fillRect 0 0 (Dom.width (Dom.canvas ctx))
                                   (Dom.height (Dom.canvas ctx))] in
              let ctx := Dom.scaleToGrid GRID_COLS GRID_ROWS ctx in
              let ctx := Dom.call ctx lines in
              Some (document, Dom.Return (ctx, Vector2.new 0.5 0.5))
          end
      end
  end.

End Prototype.

(** ** game.ts:68 over the real numbers

    The text of [Vector2.normalize] once more, with [number] read as a real
    number: [Math.sqrt] is the real square root and no operation rounds,
    overflows or underflows.  It says what the method computes in exact
    arithmetic and is used for that purpose only. *)
Module Exact.
#[local] Open Scope R_scope.

Definition normalize (x y : R) : R * R :=
  let length := R_sqrt.sqrt (x * x + y * y) in
  if Rlt_dec 0 length then (x / length, y / length) else (0, 0).

Definition magnitude (v : R * R) : R :=
  R_sqrt.sqrt (fst v * fst v + snd v * snd v).

End Exact.

(** * The vocabulary of the statements *)

(** ** Sequences of calls and bounds *)

(** The players after each call of a sequence of [move] calls. *)
Fixpoint moves (move : Player.t -> Vector2.t -> Player.t)
               (p : Player.t) (ds : list Vector2.t) : list Player.t :=
  match ds with
  | [] => []
  | d :: ds => let p' := move p d in p' :: moves move p' ds
  end.

(** [0 <= position.x <= cols] and [0 <= position.y <= rows]. *)
Definition in_grid (cols rows : float) (p : Player.t) : bool :=
  let pos := Player.position p in
  (0 <=? Vector2.x pos) && (Vector2.x pos <=? cols)
  && (0 <=? Vector2.y pos) && (Vector2.y pos <=? rows).

(** [radius <= position.x <= cols - radius] and
    [radius <= position.y <= rows - radius]. *)
Definition in_grid_radius (cols rows : float) (p : Player.t) : bool :=
  let pos := Player.position p in
  let r := Player.radius p in
  (r <=? Vector2.x pos) && (Vector2.x pos <=? cols - r)
  && (r <=? Vector2.y pos) && (Vector2.y pos <=? rows - r).

(** The invariant of part_000 together with the radius it is proved for. *)
Definition in_grid_radius_02 (p : Player.t) : bool :=
  Leibniz.eqb (Player.radius p) 0.2
  && in_grid_radius Part000.GRID_COLS Part000.GRID_ROWS p.

(** [newX] and [newY] of [move], as a vector. *)
Definition candidate (normalizedDirection : Vector2.t) (p : Player.t)
  : Vector2.t :=
  Vector2.new
    (Vector2.x (Player.position p)
     + Vector2.x normalizedDirection * Player.speed p)
    (Vector2.y (Player.position p)
     + Vector2.y normalizedDirection * Player.speed p).

(** The two bounds tests of [move], on one coordinate:
    [v >= 0 && v <= limit] and [v - r >= 0 && v + r <= limit]. *)
Definition within (limit v : float) : bool := (v >=? 0) && (v <=? limit).
Definition within_radius (r limit v : float) : bool :=
  (v - r >=? 0) && (v + r <=? limit).

(** ** Signed zeros and steps in range *)

(** [Object.is(a, -0)]. *)
Definition is_neg_zero (a : float) : bool := Leibniz.eqb a neg_zero.

(** Neither coordinate is the negative zero. *)
Definition no_neg_zero (v : Vector2.t) : bool :=
  negb (is_neg_zero (Vector2.x v)) && negb (is_neg_zero (Vector2.y v)).

(** The step [speed * dt] lies between 2^-500 and 2^500, so that its square
    neither underflows nor overflows. *)
Definition step_in_range (speed dt : float) : bool :=
  let a := speed * dt in
  (0x1p-500 <=? a) && (a <=? 0x1p500).

(** ** The FPS sampler of the specification *)

(** Section 4.4 of the specification, in its words: "when
    now > lastFpsSampleTime + 1000ms, emit the current frameCount, reset
    lastFpsSampleTime = now, reset count to 0; otherwise increment count and
    do not emit".  The result is the new sample time, the new count and the
    counts emitted. *)
Definition spec_sample (now lastFpsSampleTime frameCount : float)
  : float * float * list float :=
  if now >? lastFpsSampleTime + 1000
  then (now, 0, [frameCount])
  else (lastFpsSampleTime, frameCount + 1, []).

(** The counts a list of effects displays. *)
Definition emitted (out : list Effect) : list float :=
  flat_map (fun e => match e with DrawFPS c => [c] | _ => [] end) out.

(** The FPS block run over the ticks at times [ts]. *)
Definition sampleRun (lastFPS frameCount : float) (ts : list float)
  : float * float * list Effect :=
  fold_left
    (fun (acc : float * float * list Effect) t =>
       let '(l, c, out) := acc in
       let '(l', c', o) := sampleFPS t l c in (l', c', out ++ o))
    ts (lastFPS, frameCount, []).

(** ** Sessions with Escape down *)

(** The conditions under which every delivered frame finds Escape down:
    the loop runs and is scheduled, "escape" is in the key set, and
    [lastPausePressed] is false. *)
Definition escape_down (ss : Game.Session) : Prop :=
  Game.GAMERUN (Game.state ss) = true
  /\ Game.lastPausePressed (Game.state ss) = false
  /\ InputManager.isKeyPressed (Game.inputManager (Game.state ss)) "Escape"
     = true
  /\ Game.pending ss = true.

(** ** Sample inputs *)

(** A running, unpaused loop at start-up with Escape down. *)
Definition escape_held : Game.State :=
  Game.mkState true initial_player 0 0 0
               (InputManager.mk keyboard ["escape"%string]) false false.

(** Sixty ticks, 15 ms apart, from 15 ms to 900 ms. *)
Definition sixty_ticks : list float :=
  map (fun i => 15 * of_uint63 (Uint63.of_Z (Z.of_nat i))) (seq 1 60).

(** "d" and "s" held, and a frame 16 ms after the previous one. *)
Definition right_and_down : InputManager.t :=
  InputManager.mk keyboard ["d"; "s"]%string.
Definition dt16 : float := (16 - 0) / 1000.

(** Frame times from 1 ms to 1 s, in steps of 1 ms, in seconds. *)
Definition frame_times : list float :=
  map (fun i => of_uint63 (Uint63.of_Z (Z.of_nat i)) / 1000) (seq 1 1000).

(** The non-zero raw movements of the sixteen key combinations at speed
    0.05 and [dt16]: twelve vectors, in eight directions. *)
Definition game_directions : list Vector2.t :=
  let keys := [true; false] in
  filter (fun v => (Vector2.x v !== 0) || (Vector2.y v !== 0))
    (flat_map (fun up =>
       flat_map (fun down =>
         flat_map (fun left =>
           map (fun right => accumulate up down left right 0.05 dt16) keys)
         keys) keys) keys).

(** ** Representations of binary64 values

    [Prim2SF] maps a float to its sign, mantissa and exponent.  The three
    constants the radius-aware bounds test compares with: 0.2, 10 and
    [10 - 0.2]. *)
Definition R02 : spec_float := S754_finite false 7205759403792794 (-55).
Definition TEN : spec_float := S754_finite false 5629499534213120 (-49).
Definition D98 : spec_float := S754_finite false 5516909543528858 (-49).

(** The shape of what rounding the mantissa [p] at exponent [e] gives, for
    an exponent that is not below the smallest one: an infinity or a finite
    value of the same sign, never a zero; the mantissa itself when it has
    at most 53 bits, and otherwise a value not below the truncation of [p]
    to 53 bits. *)
Definition rounded (s : bool) (p : positive) (e : Z) (r : spec_float)
  : Prop :=
  let d := Zpos (digits2_pos p) in
  match r with
  | S754_infinity s' => s' = s
  | S754_finite s' m' e' =>
      s' = s
      /\ (d <= 53 -> m' = p /\ e' = e)%Z
      /\ (53 < d ->
          e + d - 53 < e'
          \/ (e' = e + d - 53 /\ Zpos p / 2 ^ (d - 53) <= Zpos m'))%Z
  | _ => False
  end.

(** An infinity or a non-zero finite value of sign [s]. *)
Definition signed_nonzero (s : bool) (r : spec_float) : Prop :=
  match r with
  | S754_infinity s' | S754_finite s' _ _ => s' = s
  | _ => False
  end.

(** After [k >= 1] right shifts of [P], the record holds the quotient, the
    last bit shifted out and whether anything below it was not zero. *)
Definition shifted (P : Z) (k : Z) (r : shr_record) : Prop :=
  (0 <= shr_m r
   /\ exists low, 0 <= low < 2 ^ (k - 1)
        /\ P = shr_m r * 2 ^ k + (if shr_r r then 2 ^ (k - 1) else 0) + low
        /\ (shr_s r = true <-> 0 < low))%Z.


(** ** Histories of input events *)

(** The listener a keyboard [InputManager] runs on a key event. *)
Definition key_listener (im : InputManager.t) (e : KeyEvent)
  : InputManager.t :=
  match e with
  | keydown key => InputManager.onKeyDown im key
  | keyup key => InputManager.onKeyUp im key
  end.

(** Whether the last event of [es] about the key [k], compared without
    case, is a [keydown]; [init] when [es] has no event about [k]. *)
Fixpoint last_key_down (k : string) (init : bool) (es : list KeyEvent)
  : bool :=
  match es with
  | [] => init
  | keydown k' :: es =>
      last_key_down k
        (if (toLowerCase k' =? toLowerCase k)%string then true else init) es
  | keyup k' :: es =>
      last_key_down k
        (if (toLowerCase k' =? toLowerCase k)%string then false else init) es
  end.

(** The flags of part_001 after a sequence of key events. *)
Definition flags_after (es : list KeyEvent) (s : Part001.State)
  : Part001.State :=
  fold_left (fun s e => fst (Part001.listen s e)) es s.

(** The flags of part_001 and a key set agree on the four movement
    keys. *)
Definition flags_agree (s : Part001.State) (im : InputManager.t) : Prop :=
  Part001.moveUp s = InputManager.isKeyPressed im "w"
  /\ Part001.moveLeft s = InputManager.isKeyPressed im "a"
  /\ Part001.moveDown s = InputManager.isKeyPressed im "s"
  /\ Part001.moveRight s = InputManager.isKeyPressed im "d".

(** Whether the last [mousedown] or [mouseup] of [es] about the button
    [b] is a [mousedown]; [init] when there is none. *)
Fixpoint last_button_down (b : float) (init : bool)
                          (es : list FullInputManager.DomEvent) : bool :=
  match es with
  | [] => init
  | FullInputManager.mousedown b' :: es =>
      last_button_down b
        (if FullInputManager.sameValueZero b' b then true else init) es
  | FullInputManager.mouseup b' :: es =>
      last_button_down b
        (if FullInputManager.sameValueZero b' b then false else init) es
  | _ :: es => last_button_down b init es
  end.

(** The coordinates of the last [mousemove] of [es]; [init] when there is
    none. *)
Fixpoint last_mouse_move (init : Vector2.t)
                         (es : list FullInputManager.DomEvent) : Vector2.t :=
  match es with
  | [] => init
  | FullInputManager.mousemove offsetX offsetY :: es =>
      last_mouse_move (Vector2.new offsetX offsetY) es
  | _ :: es => last_mouse_move init es
  end.

(** Numbers as a [Set] tells them apart: the representation with the sign
    of a zero dropped. *)
Definition set_key (a : float) : spec_float :=
  match Prim2SF a with
  | S754_zero _ => S754_zero false
  | r => r
  end.

(** The key events among the events of a document. *)
Definition key_events (es : list FullInputManager.DomEvent)
  : list KeyEvent :=
  flat_map (fun e => match e with
                     | FullInputManager.key_event k => [k]
                     | _ => []
                     end) es.

(** ** Sessions of game.ts *)

(** No [KeyDown] of [es] is about one of the keys [ks], given in lower
    case. *)
Definition never_pressed (ks : list string) (es : list Game.Event) : bool :=
  forallb (fun e =>
             match e with
             | Game.KeyDown key =>
                 negb (existsb (String.eqb (toLowerCase key)) ks)
             | _ => true
             end) es.

(** The animation frames among the events. *)
Definition frames (es : list Game.Event) : nat :=
  List.length (filter (fun e => match e with
                                | Game.AnimationFrame _ => true
                                | _ => false
                                end) es).

(** How many times a trace redraws the objects layer. *)
Definition redraws (out : list Effect) : nat :=
  List.length (filter (fun e => match e with
                                | UpdateLayer _ => true
                                | _ => false
                                end) out).

(** What a session of game.ts keeps at every moment: the loop runs and a
    frame is requested, the input manager is the keyboard one,
    [lastPausePressed] is false, and the player is the initial player but
    for its position, which is inside the grid and has no negative zero
    coordinate. *)
Definition session_invariant (ss : Game.Session) : Prop :=
  let s := Game.state ss in
  let p := Game.player1 s in
  Game.GAMERUN s = true
  /\ Game.pending ss = true
  /\ InputManager.type (Game.inputManager s) = keyboard
  /\ Game.lastPausePressed s = false
  /\ Player.radius p = 0.2
  /\ Player.color p = "lightgreen"%string
  /\ Player.speed p = 0.05
  /\ in_grid Game.GRID_COLS Game.GRID_ROWS p = true
  /\ no_neg_zero (Player.position p) = true.

(** ** One direction held *)

(** The four flags when only the direction [d] is held, in the order up,
    down, left, right. *)
Definition only (d : Direction) : bool * bool * bool * bool :=
  match d with
  | Up => (true, false, false, false)
  | Down => (false, true, false, false)
  | Left => (false, false, true, false)
  | Right => (false, false, false, true)
  end.

(** The unit vector of a direction; y grows downwards. *)
Definition unit_vector (d : Direction) : Vector2.t :=
  match d with
  | Up => Vector2.new 0 (-1)
  | Down => Vector2.new 0 1
  | Left => Vector2.new (-1) 0
  | Right => Vector2.new 1 0
  end.

(** The vector of length [a] along the axis of a direction. *)
Definition axis_vector (d : Direction) (a : float) : Vector2.t :=
  match d with
  | Up => Vector2.new 0 (- a)
  | Down => Vector2.new 0 a
  | Left => Vector2.new (- a) 0
  | Right => Vector2.new a 0
  end.

(** The raw movement when only [d] is held. *)
Definition accumulate_only (d : Direction) (speed dt : float) : Vector2.t :=
  let '(u, dn, l, r) := only d in accumulate u dn l r speed dt.

(** The position one step of length [speed] away from [pos] in the
    direction [d]. *)
Definition stepped (d : Direction) (pos : Vector2.t) (speed : float)
  : Vector2.t :=
  match d with
  | Up => Vector2.new (Vector2.x pos) (Vector2.y pos - speed)
  | Down => Vector2.new (Vector2.x pos) (Vector2.y pos + speed)
  | Left => Vector2.new (Vector2.x pos - speed) (Vector2.y pos)
  | Right => Vector2.new (Vector2.x pos + speed) (Vector2.y pos)
  end.

(** The coordinate a step in the direction [d] changes, and the grid
    constant that bounds it. *)
Definition along (d : Direction) (v : Vector2.t) : float :=
  match d with
  | Up | Down => Vector2.y v
  | Left | Right => Vector2.x v
  end.

Definition bound (d : Direction) (GRID_COLS GRID_ROWS : float)
  : float :=
  match d with
  | Up | Down => GRID_ROWS
  | Left | Right => GRID_COLS
  end.

(** ** What a list of canvas calls draws *)

(** The numbers 0, 1, ..., 10. *)
Definition zero_to_ten : list float :=
  map (fun i => of_uint63 (Uint63.of_Z (Z.of_nat i))) (seq 0 11).

(** The segments a list of calls strokes: the end points of each
    [moveTo; lineTo; stroke], with the stroke style and line width
    assigned just before. *)
Fixpoint segments (cs : list Canvas.Call)
  : list (string * float * (float * float) * (float * float)) :=
  match cs with
  | Canvas.set_strokeStyle color :: Canvas.set_lineWidth w
    :: Canvas.moveTo x1 y1 :: Canvas.lineTo x2 y2 :: Canvas.stroke :: cs' =>
      (color, w, (x1, y1), (x2, y2)) :: segments cs'
  | _ :: cs' => segments cs'
  | [] => []
  end.

(** The circles a list of calls fills: centre and radius of each
    [arc; fill]. *)
Fixpoint circles (cs : list Canvas.Call)
  : list (float * float * float) :=
  match cs with
  | Canvas.arc x y r _ _ :: Canvas.fill :: cs' => (x, y, r) :: circles cs'
  | _ :: cs' => circles cs'
  | [] => []
  end.

(** The grid as a list of segments: the eleven vertical lines from left
    to right, then the eleven horizontal lines from top to bottom. *)
Definition grid_segments (color : string)
  : list (string * float * (float * float) * (float * float)) :=
  map (fun x => (color, 0.1, (x, 0), (x, 10))) zero_to_ten
  ++ map (fun y => (color, 0.1, (0, y), (10, y))) zero_to_ten.

(** The calls [drawGrid] makes for the constants 10 and 10: one
    [drawLine] per vertical line, then one per horizontal line. *)
Definition grid_calls (color : string) : list Canvas.Call :=
  flat_map (fun x => drawLine (Vector2.new x 0) (Vector2.new x 10) color 0.1)
           zero_to_ten
  ++ flat_map (fun y => drawLine (Vector2.new 0 y) (Vector2.new 10 y)
                                 color 0.1)
              zero_to_ten.

(** The canvas calls among the outputs of the prototype. *)
Definition drawn (out : list Prototype.Output) : list Canvas.Call :=
  flat_map (fun o => match o with Prototype.Draw c => [c] | _ => [] end) out.

(** ** The half-cell lattice of the prototype *)

(** The coordinates 0, 0.5, 1, ..., 10. *)
Definition halves : list float :=
  map (fun i => of_uint63 (Uint63.of_Z (Z.of_nat i)) / 2) (seq 0 21).

Definition on_halves (v : float) : bool := existsb (Leibniz.eqb v) halves.

(** The player of the prototype after a sequence of [keydown] events,
    given by their [event.key]. *)
Definition prototype_after (keys : list string) : Vector2.t :=
  fold_left (fun player1 key => fst (Prototype.move key player1)) keys
            (Vector2.new 0.5 0.5).

(** The opposite direction. *)
Definition opposite (d : Direction) : Direction :=
  match d with Up => Down | Down => Up | Left => Right | Right => Left end.

(** ** What the objects layer shows *)

(** The player the last [updateLayer(objCtx, ...)] of a trace drew; [p0]
    when the trace has none. *)
Definition last_drawn (out : list Effect) (p0 : Player.t) : Player.t :=
  fold_left (fun p e => match e with UpdateLayer q => q | _ => p end) out p0.

(** The calls the redraw of a tick makes on the objects context:
    [updateLayer(objCtx, (ctx) => { player1.draw(ctx); })]. *)
Definition redraw (objCtx : Canvas.Size) (p : Player.t)
  : option (list Canvas.Call) :=
  updateLayer (Some objCtx) (fun _ => Some (Player_draw p)).

(** ** The start-up of the layered versions *)

(** The four canvases are in the document, and each of them answers
    [getContext("2d")]. *)
Definition canvases_found (document : Dom.Document) : bool :=
  match document "background"%string, document "objects"%string,
        document "events"%string, document "ui"%string with
  | Some _, Some _, Some _, Some _ => true
  | _, _, _, _ => false
  end.

Definition contexts_supported (document : Dom.Document) : bool :=
  forallb (fun id => match document id with
                     | Some c => Dom.supports2d c
                     | None => false
                     end)
          ["background"; "objects"; "events"; "ui"]%string.

(** The size of the element [id], if the document has it. *)
Definition size_of (document : Dom.Document) (id : string)
  : option (float * float) :=
  match document id with
  | Some c => Some (Dom.width c, Dom.height c)
  | None => None
  end.

(** The animation frames of [es] that find Escape held, [held] saying
    whether it is held before the first event. *)
Fixpoint escape_frames (held : bool) (es : list Game.Event) : nat :=
  match es with
  | [] => 0
  | Game.KeyDown key :: es =>
      escape_frames (held || (toLowerCase key =? "escape")%string) es
  | Game.KeyUp key :: es =>
      escape_frames (held && negb (toLowerCase key =? "escape")%string) es
  | Game.AnimationFrame _ :: es =>
      (if held then 1 else 0) + escape_frames held es
  end.

(** * Properties *)

(** ** Facts about binary64 comparisons *)

Lemma SF_of_zero : Prim2SF 0 = S754_zero false.
Proof. reflexivity. Qed.

(** [len > 0] excludes [len == 0]. *)
Lemma gtb_zero_neq (a : float) : (a >? 0) = true -> (a =? 0) = false.
Proof.
  unfold gtb. rewrite FloatAxioms.ltb_spec, FloatAxioms.eqb_spec, SF_of_zero.
  unfold SFltb, SFeqb.
  destruct (Prim2SF a) as [s | s | | s m e]; simpl; try discriminate;
    destruct s; simpl; intros; try discriminate; reflexivity.
Qed.

(** Mantissas are compared as integers; [lia] is kept away from large
    [positive] constants. *)
Lemma compare_cont_Z (a b : positive) :
  Pos.compare_cont Eq a b = (Zpos a ?= Zpos b)%Z.
Proof. reflexivity. Qed.

(** ** Binary64 rounding

    The axioms of the standard library say that the primitive operations
    compute what [SFadd], [SFsub], [SFmul], [SFdiv] compute on the
    representations.  The lemmas of this section follow those definitions
    as far as the bounds tests and the movement code need them. *)

Section Rounding.
#[local] Open Scope Z_scope.

Lemma digits2_bounds (p : positive) :
  2 ^ (Zpos (digits2_pos p) - 1) <= Zpos p < 2 ^ Zpos (digits2_pos p).
Proof.
  induction p as [p IH | p IH | ]; cbn [digits2_pos].
  - rewrite Pos2Z.inj_succ. replace (Z.succ (Zpos (digits2_pos p)) - 1) with (Zpos (digits2_pos p)) by lia.
    rewrite Z.pow_succ_r by lia.
    assert (E : Zpos (digits2_pos p) = Z.succ (Zpos (digits2_pos p) - 1)) by lia.
    rewrite E at 1. rewrite Z.pow_succ_r by lia. lia.
  - rewrite Pos2Z.inj_succ. replace (Z.succ (Zpos (digits2_pos p)) - 1) with (Zpos (digits2_pos p)) by lia.
    rewrite Z.pow_succ_r by lia.
    assert (E : Zpos (digits2_pos p) = Z.succ (Zpos (digits2_pos p) - 1)) by lia.
    rewrite E at 1. rewrite Z.pow_succ_r by lia. lia.
  - cbn. lia.
Qed.

Lemma iter_xO_pow (m d : positive) :
  Zpos (Pos.iter xO m d) = Zpos m * 2 ^ Zpos d.
Proof.
  induction d as [ | d IH] using Pos.peano_ind.
  - cbn. lia.
  - rewrite Pos.iter_succ, Pos2Z.inj_succ, Z.pow_succ_r by lia.
    rewrite Pos2Z.inj_xO, IH. lia.
Qed.

Lemma shr_1_m (r : shr_record) :
  0 <= shr_m r -> shr_m (shr_1 r) = shr_m r / 2.
Proof.
  destruct r as [m b s]. cbn [shr_m]. intros Hm.
  destruct m as [ | [p | p | ] | p]; cbn [shr_1 shr_m]; try lia;
    try reflexivity.
  - apply Z.div_unique with 1; lia.
  - apply Z.div_unique with 0; lia.
Qed.

Lemma pow2_xI (n : positive) : 2 ^ Zpos n~1 = 2 * (2 ^ Zpos n * 2 ^ Zpos n).
Proof.
  replace (Zpos n~1) with (1 + (Zpos n + Zpos n)) by lia.
  rewrite !Z.pow_add_r by lia. reflexivity.
Qed.

Lemma pow2_xO (n : positive) : 2 ^ Zpos n~0 = 2 ^ Zpos n * 2 ^ Zpos n.
Proof.
  replace (Zpos n~0) with (Zpos n + Zpos n) by lia.
  now rewrite Z.pow_add_r by lia.
Qed.

Lemma iter_shr_m (n : positive) :
  forall r, 0 <= shr_m r ->
  shr_m (iter_pos shr_1 n r) = shr_m r / 2 ^ Zpos n.
Proof.
  induction n as [n IH | n IH | ]; intros r Hr; cbn [iter_pos].
  - assert (Hp : 0 < 2 ^ Zpos n) by (apply Z.pow_pos_nonneg; lia).
    assert (H1 : 0 <= shr_m (shr_1 r)) by (rewrite shr_1_m by assumption; apply Z.div_pos; lia).
    assert (H2 : 0 <= shr_m (iter_pos shr_1 n (shr_1 r))) by (rewrite IH by assumption; apply Z.div_pos; lia).
    rewrite IH, IH, shr_1_m by assumption.
    rewrite !Z.div_div by lia. f_equal. rewrite pow2_xI. lia.
  - assert (Hp : 0 < 2 ^ Zpos n) by (apply Z.pow_pos_nonneg; lia).
    assert (H2 : 0 <= shr_m (iter_pos shr_1 n r)) by (rewrite IH by assumption; apply Z.div_pos; lia).
    rewrite IH, IH by assumption.
    rewrite !Z.div_div by lia. f_equal. rewrite pow2_xO. lia.
  - now apply shr_1_m.
Qed.

Lemma round_nearest_even_ge (m : Z) (l : location) :
  m <= round_nearest_even m l <= m + 1.
Proof.
  destruct l as [ | [ | | ]]; cbn; try lia.
  destruct (Z.even m); lia.
Qed.

Lemma fexp_eq (x : Z) : fexp prec emax x = Z.max (x - 53) (-1074).
Proof. reflexivity. Qed.

Lemma shl_align_ge (m : positive) (e e' : Z) :
  e <= e' -> shl_align m e e' = (m, e).
Proof.
  intros H. unfold shl_align.
  destruct (e' - e) eqn:E; try reflexivity. lia.
Qed.

Lemma shl_align_lt (m : positive) (e e' : Z) :
  e' < e -> shl_align m e e' = (Pos.iter xO m (Z.to_pos (e - e')), e').
Proof.
  intros H. unfold shl_align.
  destruct (e' - e) eqn:E; try lia.
  replace (e - e') with (Zpos p) by lia. reflexivity.
Qed.

Lemma shr_pos (r : shr_record) (e n : Z) :
  0 < n -> shr r e n = (iter_pos shr_1 (Z.to_pos n) r, e + n).
Proof. destruct n; try lia. reflexivity. Qed.

Lemma shr_nonpos (r : shr_record) (e n : Z) :
  n <= 0 -> shr r e n = (r, e).
Proof. destruct n; try lia; reflexivity. Qed.

Lemma binary_round_aux_rounded (s : bool) (p : positive) (e : Z) :
  -1074 <= e ->
  rounded s p e (binary_round_aux prec emax s (Zpos p) e loc_Exact).
Proof.
  intros He. unfold binary_round_aux, shr_fexp.
  cbn [Zdigits2 shr_record_of_loc]. rewrite fexp_eq.
  pose proof (digits2_bounds p) as Hd.
  unfold rounded.
  remember (Zpos (digits2_pos p)) as d eqn:Ed. clear Ed.
  destruct (Z_le_gt_dec d 53) as [Hle | Hgt].
  - (* no shift *)
    rewrite shr_nonpos by lia. cbn [shr_m loc_of_shr_record round_nearest_even].
    cbn [Zdigits2 shr_record_of_loc]. rewrite fexp_eq.
    pose proof (digits2_bounds p) as Hd'.
    assert (Zpos (digits2_pos p) <= 53).
    { destruct (Z_le_gt_dec (Zpos (digits2_pos p)) 53) as [ | Hgt]; [ assumption | exfalso ].
      assert (2 ^ 53 <= 2 ^ (Zpos (digits2_pos p) - 1)) by (apply Z.pow_le_mono_r; lia).
      assert (2 ^ d <= 2 ^ 53) by (apply Z.pow_le_mono_r; lia). lia. }
    rewrite shr_nonpos by lia. cbn [shr_m].
    destruct (e <=? emax - prec); repeat split; try lia; auto.
  - rewrite shr_pos by lia.
    replace (Z.max (d + e - 53) (-1074) - e) with (d - 53) by lia.
    set (r1 := iter_pos shr_1 (Z.to_pos (d - 53)) _).
    assert (Hm1 : shr_m r1 = Zpos p / 2 ^ (d - 53)).
    { unfold r1. rewrite iter_shr_m by (cbn; lia). cbn [shr_m].
      rewrite Z2Pos.id by lia. reflexivity. }
    assert (Hp2 : 0 < 2 ^ (d - 53)) by (apply Z.pow_pos_nonneg; lia).
    assert (Hsplit : 2 ^ d = 2 ^ 53 * 2 ^ (d - 53)).
    { rewrite <- Z.pow_add_r by lia. f_equal. lia. }
    assert (Hsplit' : 2 ^ (d - 1) = 2 ^ 52 * 2 ^ (d - 53)).
    { rewrite <- Z.pow_add_r by lia. f_equal. lia. }
    assert (Hb1 : 2 ^ 52 <= shr_m r1 < 2 ^ 53).
    { rewrite Hm1. split.
      - apply Z.div_le_lower_bound; lia.
      - apply Z.div_lt_upper_bound; lia. }
    pose proof (round_nearest_even_ge (shr_m r1) (loc_of_shr_record r1)) as Hr.
    set (m2 := round_nearest_even _ _) in *.
    change (2 ^ 52) with 4503599627370496 in Hb1.
    change (2 ^ 53) with 9007199254740992 in Hb1.
    destruct m2 as [ | q | q] eqn:Eq; try lia.
    cbn [Zdigits2 shr_record_of_loc]. rewrite fexp_eq.
    pose proof (digits2_bounds q) as Hd2.
    remember (Zpos (digits2_pos q)) as d2 eqn:Ed2. clear Ed2.
    assert (Hd2' : d2 = 53 \/ d2 = 54).
    { destruct (Z_lt_ge_dec d2 53) as [Hlt | Hge].
      - exfalso. assert (2 ^ d2 <= 2 ^ 52) by (apply Z.pow_le_mono_r; lia).
        change (2 ^ 52) with 4503599627370496 in *. lia.
      - destruct (Z_le_gt_dec d2 54) as [Hle | Hgt']; [ lia | ].
        exfalso. assert (2 ^ 54 <= 2 ^ (d2 - 1)) by (apply Z.pow_le_mono_r; lia).
        change (2 ^ 54) with 18014398509481984 in *. lia. }
    destruct Hd2' as [Hd2' | Hd2'].
    + rewrite shr_nonpos by lia. cbn [shr_m].
      destruct (e + (d - 53) <=? emax - prec); repeat split; try lia.
    + rewrite shr_pos by lia.
      replace (Z.max (d2 + (e + (d - 53)) - 53) (-1074) - (e + (d - 53))) with 1 by lia.
      cbn [Z.to_pos iter_pos].
      assert (Hq : shr_m (shr_1 {| shr_m := Zpos q; shr_r := false; shr_s := false |}) = Zpos q / 2).
      { now rewrite shr_1_m by (cbn; lia). }
      assert (Hq2 : 2 ^ 52 <= Zpos q / 2).
      { apply Z.div_le_lower_bound; [ lia | ]. rewrite Hd2' in Hd2.
        change (2 ^ (54 - 1)) with 9007199254740992 in Hd2. 
        change (2 ^ 52) with 4503599627370496. lia. }
      change (2 ^ 52) with 4503599627370496 in Hq2.
      destruct (shr_m (shr_1 _)) as [ | q' | q'] eqn:Eq'; try lia.
      destruct (e + (d - 53) + 1 <=? emax - prec); repeat split; try lia.
Qed.

Lemma rounded_signed_nonzero s p e r : rounded s p e r -> signed_nonzero s r.
Proof. destruct r; cbn; tauto. Qed.

Lemma binary_round_signed (s : bool) (p : positive) (e : Z) :
  -1074 <= e -> signed_nonzero s (binary_round prec emax s p e).
Proof.
  intros He. unfold binary_round. rewrite fexp_eq.
  destruct (Z_le_gt_dec e (Z.max (Zpos (digits2_pos p) + e - 53) (-1074)))
    as [Hle | Hgt].
  - rewrite shl_align_ge by assumption.
    eapply rounded_signed_nonzero, binary_round_aux_rounded; assumption.
  - rewrite shl_align_lt by lia.
    eapply rounded_signed_nonzero, binary_round_aux_rounded; lia.
Qed.

Lemma binary_round_large (s : bool) (p : positive) (e : Z) :
  -1074 <= e -> 53 < Zpos (digits2_pos p) ->
  rounded s p e (binary_round prec emax s p e).
Proof.
  intros He Hd. unfold binary_round. rewrite fexp_eq.
  rewrite shl_align_ge by lia. now apply binary_round_aux_rounded.
Qed.

(** What validity says about a finite binary64 value. *)
Lemma bounded_inv (m : positive) (e : Z) :
  bounded prec emax m e = true ->
  -1074 <= e <= 971 /\ Zpos m < 2 ^ 53
  /\ (-1074 < e -> 2 ^ 52 <= Zpos m).
Proof.
  unfold bounded, canonical_mantissa. rewrite fexp_eq. intros H.
  apply andb_true_iff in H as [Hc He].
  apply Z.eqb_eq in Hc. apply Z.leb_le in He.
  change (emax - prec) with 971 in He.
  pose proof (digits2_bounds m) as Hd.
  remember (Zpos (digits2_pos m)) as d eqn:Ed. clear Ed.
  repeat split; try lia.
  - assert (2 ^ d <= 2 ^ 53) by (apply Z.pow_le_mono_r; lia). lia.
  - intros Hn. assert (d = 53) by lia. subst d. exact (proj1 Hd).
Qed.

Lemma sub_02_nonneg (X : spec_float) :
  valid_binary X = true ->
  SFleb (S754_zero false) (SF64sub X R02) = true ->
  SFleb R02 X = true.
Proof.
  intros Hv. destruct X as [s | s | | s m e];
    [ destruct s; cbn; congruence | destruct s; cbn; congruence
    | cbn; congruence | ].
  cbn [valid_binary] in Hv. apply bounded_inv in Hv as (He & Hm & _).
  change (2 ^ 53) with 9007199254740992 in Hm.
  destruct (SFleb R02 (S754_finite s m e)) eqn:Hcmp; [ reflexivity | ].
  intros H. exfalso. revert H.
  unfold SF64sub, SFsub, R02.
  set (M := cond_Zopp s _ - cond_Zopp false _).
  assert (HM : M < 0 /\ -1074 <= Z.min e (-55)).
  { split; [ | lia ]. unfold M. clear M. cbn [cond_Zopp].
    destruct s; [ cbn; lia | ].
    unfold SFleb, R02 in Hcmp. cbn [SFcompare] in Hcmp.
    rewrite compare_cont_Z in Hcmp.
    destruct (Z.compare_spec (-55) e) as [E | E | E]; try discriminate.
    - subst e. rewrite Z.min_id, !shl_align_ge by lia. cbn [fst cond_Zopp].
      destruct (Z.compare_spec 7205759403792794 (Zpos m)); try discriminate.
      lia.
    - rewrite Z.min_l by lia. rewrite shl_align_ge by lia.
      rewrite shl_align_lt by lia. cbn [fst cond_Zopp].
      rewrite iter_xO_pow, Z2Pos.id by lia.
      assert (2 ^ 1 <= 2 ^ (-55 - e)) by (apply Z.pow_le_mono_r; lia).
      change (2 ^ 1) with 2 in *. nia. }
  destruct HM as [HM He'].
  destruct M as [ | q | q]; try lia.
  cbn [binary_normalize].
  pose proof (binary_round_signed true q _ He') as Hr.
  destruct (binary_round _ _ _ _ _) as [s' | s' | | s' m' e'];
    cbn in Hr; try tauto; subst s'; cbn; congruence.
Qed.

Lemma add_02_upto_ten (X : spec_float) :
  valid_binary X = true ->
  SFleb (SF64add X R02) TEN = true ->
  SFleb X D98 = true.
Proof.
  intros Hv. destruct X as [s | s | | s m e];
    [ destruct s; cbn; congruence | destruct s; cbn; congruence
    | cbn; congruence | ].
  destruct s; [ reflexivity | ].
  cbn [valid_binary] in Hv. apply bounded_inv in Hv as (He & Hm & Hn).
  change (2 ^ 53) with 9007199254740992 in Hm.
  change (2 ^ 52) with 4503599627370496 in Hn.
  destruct (SFleb (S754_finite false m e) D98) eqn:Hcmp; [ reflexivity | ].
  intros H. exfalso. revert H.
  assert (Hcase : -49 < e \/ (e = -49 /\ 5516909543528858 < Zpos m)).
  { unfold SFleb, D98 in Hcmp. cbn [SFcompare] in Hcmp.
    rewrite compare_cont_Z in Hcmp.
    destruct (Z.compare_spec e (-49)) as [E | E | E]; try discriminate.
    - right. split; [ assumption | ].
      destruct (Z.compare_spec (Zpos m) 5516909543528858); try discriminate.
      assumption.
    - now left. }
  clear Hcmp. specialize (Hn ltac:(lia)).
  unfold SF64add, SFadd, R02.
  rewrite Z.min_r by lia. rewrite shl_align_lt, shl_align_ge by lia.
  cbn [fst cond_Zopp]. cbn [Z.add binary_normalize].
  set (p := (Pos.iter xO m (Z.to_pos (e - -55)) + 7205759403792794)%positive).
  assert (Hp : Zpos p = Zpos m * 2 ^ (e + 55) + 7205759403792794).
  { unfold p. rewrite Pos2Z.inj_add, iter_xO_pow, Z2Pos.id by lia.
    replace (e - -55) with (e + 55) by lia. reflexivity. }
  clearbody p.
  assert (Hpow : 2 ^ 6 <= 2 ^ (e + 55)) by (apply Z.pow_le_mono_r; lia).
  change (2 ^ 6) with 64 in Hpow.
  pose proof (digits2_bounds p) as Hd.
  assert (Hd59 : 59 <= Zpos (digits2_pos p)).
  { destruct (Z_lt_ge_dec (Zpos (digits2_pos p)) 59) as [Hlt | ]; [ | lia ].
    exfalso.
    assert (2 ^ Zpos (digits2_pos p) <= 2 ^ 58)
      by (apply Z.pow_le_mono_r; lia).
    change (2 ^ 58) with 288230376151711744 in *. nia. }
  pose proof (binary_round_large false p (-55) ltac:(lia) ltac:(lia)) as Hr.
  unfold rounded in Hr.
  remember (Zpos (digits2_pos p)) as d eqn:Ed. clear Ed.
  destruct (binary_round _ _ _ _ _) as [s' | s' | | s' m' e'];
    cbn beta iota zeta in Hr; try tauto.
  - subst s'. cbn. congruence.
  - destruct Hr as (-> & _ & Hr). specialize (Hr ltac:(lia)).
    unfold SFleb, TEN. cbn [SFcompare]. rewrite compare_cont_Z.
    destruct (Z.compare_spec e' (-49)) as [E | E | E]; try congruence;
      [ | exfalso; lia ].
    destruct Hr as [Hr | [Hr1 Hr2]]; [ exfalso; lia | ].
    assert (d = 59) by lia. subst d.
    change (2 ^ (59 - 53)) with 64 in Hr2.
    assert (He49 : e = -49).
    { destruct Hcase as [Hc | [Hc _]]; [ exfalso | assumption ].
      assert (2 ^ 7 <= 2 ^ (e + 55)) by (apply Z.pow_le_mono_r; lia).
      change (2 ^ 7) with 128 in *.
      change (2 ^ 59) with 576460752303423488 in Hd. nia. }
    subst e. change (2 ^ (-49 + 55)) with 64 in Hp.
    destruct Hcase as [Hc | [_ Hc]]; [ lia | ].
    assert (Hq : 5629499534213121 <= Zpos p / 64)
      by (apply Z.div_le_lower_bound; clear - Hp Hc; lia).
    destruct (Z.compare_spec (Zpos m') 5629499534213120) as [E' | E' | E'];
      try congruence; exfalso; clear - Hq Hr2 E'; lia.
Qed.

(** Rounding does not look at the sign. *)
Lemma binary_round_aux_opp (s : bool) (m e : Z) (l : location) :
  binary_round_aux prec emax (negb s) m e l
  = SFopp (binary_round_aux prec emax s m e l).
Proof.
  unfold binary_round_aux.
  destruct (shr_fexp prec emax m e l) as [r1 e1].
  destruct (shr_fexp prec emax _ e1 loc_Exact) as [r2 e2].
  destruct (shr_m r2); try reflexivity.
  now destruct (e2 <=? emax - prec).
Qed.

Lemma SFmul_opp_l (X D : spec_float) :
  SF64mul (SFopp X) D = SFopp (SF64mul X D).
Proof.
  destruct X as [sx | sx | | sx mx ex], D as [sd | sd | | sd md ed];
    cbn [SFopp SF64mul SFmul]; try reflexivity;
    try (now destruct sx, sd).
  rewrite <- binary_round_aux_opp. f_equal. now destruct sx, sd.
Qed.

Lemma SFadd_opp_self (A : spec_float) :
  match A with S754_zero _ | S754_finite _ _ _ => True | _ => False end ->
  SF64add (SF64add (S754_zero false) (SFopp A)) A = S754_zero false.
Proof.
  destruct A as [s | s | | s m e]; try tauto; intros _.
  - now destruct s.
  - cbn [SFopp SF64add SFadd]. rewrite Z.min_id, shl_align_ge by lia.
    cbn [fst]. destruct s; cbn [negb cond_Zopp].
    + rewrite Z.add_opp_diag_r. reflexivity.
    + rewrite Z.add_opp_diag_l. reflexivity.
Qed.

Lemma SFadd_zero_r (X : spec_float) (s : bool) :
  X <> S754_zero (negb s) -> SF64add X (S754_zero s) = X.
Proof.
  destruct X as [sx | sx | | sx mx ex]; try reflexivity.
  destruct sx, s; cbn; congruence.
Qed.

Lemma SFmul_zero_l (S : spec_float) :
  match SF64mul (S754_zero false) S with
  | S754_zero _ | S754_nan => True
  | _ => False
  end.
Proof. now destruct S. Qed.

Lemma SFdiv_self (s : bool) (m : positive) (e : Z) :
  SF64div (S754_finite s m e) (S754_finite s m e)
  = S754_finite false 4503599627370496 (-52).
Proof.
  unfold SF64div, SFdiv, SFdiv_core_binary.
  replace (Zdigits2 (Zpos m) + e - (Zdigits2 (Zpos m) + e)) with 0 by lia.
  rewrite Z.sub_diag.
  change (Z.min (fexp prec emax 0) 0) with (-53).
  change (0 - -53) with 53. cbv iota.
  rewrite Z.shiftl_mul_pow2 by lia.
  assert (Hdiv : Z.div_eucl (Zpos m * 2 ^ 53) (Zpos m) = (2 ^ 53, 0)).
  { rewrite (surjective_pairing (Z.div_eucl _ _)).
    change (fst (Z.div_eucl ?a ?b)) with (a / b).
    change (snd (Z.div_eucl ?a ?b)) with (a mod b).
    rewrite (Z.mul_comm (Zpos m)), Z.div_mul, Z.mod_mul by lia.
    reflexivity. }
  rewrite Hdiv.
  assert (Hloc : new_location (Zpos m) 0 = loc_Exact).
  { unfold new_location, new_location_even, new_location_odd.
    now destruct (Z.even (Zpos m)). }
  rewrite Hloc. destruct s; now vm_compute.
Qed.

Lemma canonical_inv (m : positive) (e : Z) :
  bounded prec emax m e = true ->
  Z.max (Zpos (digits2_pos m) + e - 53) (-1074) = e /\ e <= 971.
Proof.
  unfold bounded, canonical_mantissa. rewrite fexp_eq. intros H.
  apply andb_true_iff in H as [Hc He].
  apply Z.eqb_eq in Hc. apply Z.leb_le in He. now split.
Qed.

Lemma SFmul_one_l (S : spec_float) :
  valid_binary S = true ->
  SF64mul (S754_finite false 4503599627370496 (-52)) S = S.
Proof.
  destruct S as [s | s | | s m e]; try reflexivity. intros Hv.
  cbn [valid_binary] in Hv. apply canonical_inv in Hv as [Hc He].
  unfold SF64mul, SFmul. cbn [xorb].
  change (4503599627370496 * m)%positive
    with (Pos.iter xO m 52).
  unfold binary_round_aux, shr_fexp.
  cbn [Zdigits2 shr_record_of_loc]. rewrite fexp_eq.
  assert (Hd : Zpos (digits2_pos (Pos.iter xO m 52))
               = Zpos (digits2_pos m) + 52).
  { cbn [Pos.iter digits2_pos]. rewrite !Pos2Z.inj_succ. lia. }
  rewrite Hd.
  replace (Z.max (Zpos (digits2_pos m) + 52 + (-52 + e) - 53) (-1074)
           - (-52 + e)) with 52 by lia.
  rewrite shr_pos by lia. replace (-52 + e + 52) with e by lia.
  cbn [Z.to_pos Pos.iter iter_pos shr_1 orb].
  cbn [shr_m loc_of_shr_record round_nearest_even].
  cbn [Zdigits2 shr_record_of_loc]. rewrite fexp_eq.
  rewrite shr_nonpos by lia. cbn [shr_m].
  replace (e <=? emax - prec) with true; [ reflexivity | ].
  symmetry. apply Z.leb_le. exact He.
Qed.

Lemma SFadd_neg_zero (X D : spec_float) :
  valid_binary X = true -> valid_binary D = true ->
  SF64add X D = S754_zero true -> X = S754_zero true.
Proof.
  destruct X as [sx | sx | | sx mx ex], D as [sd | sd | | sd md ed];
    intros HX HD; cbn [SF64add SFadd]; try discriminate;
    try (destruct sx, sd; cbn; congruence).
  cbn [valid_binary] in HX, HD.
  apply bounded_inv in HX as (HX & _). apply bounded_inv in HD as (HD & _).
  set (M := cond_Zopp sx _ + cond_Zopp sd _). clearbody M.
  destruct M as [ | q | q]; cbn [binary_normalize]; try discriminate.
  - pose proof (binary_round_signed false q (Z.min ex ed) ltac:(lia)) as H.
    intros E. rewrite E in H. contradiction.
  - pose proof (binary_round_signed true q (Z.min ex ed) ltac:(lia)) as H.
    intros E. rewrite E in H. contradiction.
Qed.

(** *** The square root of a square *)

(** [iter_pos] is iteration. *)
Lemma iter_pos_nat {A : Type} (f : A -> A) (n : positive) (x : A) :
  iter_pos f n x = Nat.iter (Pos.to_nat n) f x.
Proof.
  revert x. induction n as [n IH | n IH | ]; intros x; cbn [iter_pos].
  - rewrite !IH, Pos2Nat.inj_xI.
    replace (S (2 * Pos.to_nat n))%nat with (Pos.to_nat n + (Pos.to_nat n + 1))%nat by lia.
    rewrite !Nat.iter_add. reflexivity.
  - rewrite !IH, Pos2Nat.inj_xO.
    replace (2 * Pos.to_nat n)%nat with (Pos.to_nat n + Pos.to_nat n)%nat by lia.
    rewrite Nat.iter_add. reflexivity.
  - reflexivity.
Qed.

Lemma shifted_first (P : Z) :
  0 <= P -> shifted P 1 (shr_1 (Build_shr_record P false false)).
Proof.
  intros HP. unfold shifted.
  destruct P as [ | [p | p | ] | p]; cbn [shr_1 shr_m shr_r shr_s orb];
    try lia; (split; [ lia | exists 0; cbn; repeat split; try lia; try discriminate ]).
Qed.

Lemma shifted_step (P k : Z) (r : shr_record) :
  1 <= k -> shifted P k r -> shifted P (k + 1) (shr_1 r).
Proof.
  intros Hk (Hm & low & Hlow & HP & Hs).
  destruct r as [m b s]. cbn [shr_m shr_r shr_s] in *.
  assert (Hpow : 2 ^ k = 2 * 2 ^ (k - 1)).
  { replace k with (Z.succ (k - 1)) at 1 by lia. apply Z.pow_succ_r. lia. }
  assert (Hpow' : 2 ^ (k + 1) = 2 * 2 ^ k) by (apply Z.pow_succ_r; lia).
  assert (Hp0 : 0 < 2 ^ (k - 1)) by (apply Z.pow_pos_nonneg; lia).
  unfold shifted. replace (k + 1 - 1) with k by lia.
  destruct m as [ | [p | p | ] | p]; cbn [shr_1 shr_m shr_r shr_s]; try lia.
  - split; [ lia | ].
    exists ((if b then 2 ^ (k - 1) else 0) + low). repeat split.
    + destruct b; lia.
    + destruct b; lia.
    + destruct b; lia.
    + intros H. apply orb_true_iff in H as [H | H]; [ subst b; lia | ].
      apply Hs in H. destruct b; lia.
    + intros H. destruct b; [ reflexivity | ]. cbn. apply Hs. lia.
  - split; [ lia | ].
    exists ((if b then 2 ^ (k - 1) else 0) + low). repeat split.
    + destruct b; lia.
    + destruct b; lia.
    + rewrite HP, Pos2Z.inj_xI. destruct b; lia.
    + intros H. apply orb_true_iff in H as [H | H]; [ subst b; lia | ].
      apply Hs in H. destruct b; lia.
    + intros H. destruct b; [ reflexivity | ]. cbn. apply Hs. lia.
  - split; [ lia | ].
    exists ((if b then 2 ^ (k - 1) else 0) + low). repeat split.
    + destruct b; lia.
    + destruct b; lia.
    + rewrite HP, Pos2Z.inj_xO. destruct b; lia.
    + intros H. apply orb_true_iff in H as [H | H]; [ subst b; lia | ].
      apply Hs in H. destruct b; lia.
    + intros H. destruct b; [ reflexivity | ]. cbn. apply Hs. lia.
  - split; [ lia | ].
    exists ((if b then 2 ^ (k - 1) else 0) + low). repeat split.
    + destruct b; lia.
    + destruct b; lia.
    + rewrite HP. destruct b; lia.
    + intros H. apply orb_true_iff in H as [H | H]; [ subst b; lia | ].
      apply Hs in H. destruct b; lia.
    + intros H. destruct b; [ reflexivity | ]. cbn. apply Hs. lia.
Qed.

Lemma shifted_iter_nat (P : Z) (k : nat) (j : Z) (r : shr_record) :
  1 <= j -> shifted P j r -> shifted P (j + Z.of_nat k) (Nat.iter k shr_1 r).
Proof.
  intros Hj Hr. induction k as [ | k IH].
  - now rewrite Z.add_0_r.
  - rewrite Nat2Z.inj_succ. cbn [Nat.iter nat_rect].
    replace (j + Z.succ (Z.of_nat k)) with (j + Z.of_nat k + 1) by lia.
    apply shifted_step; [ lia | exact IH ].
Qed.

Lemma shifted_iter (P : Z) (n : positive) :
  0 <= P ->
  shifted P (Zpos n) (iter_pos shr_1 n (Build_shr_record P false false)).
Proof.
  intros HP. rewrite iter_pos_nat.
  destruct (Pos.to_nat n) as [ | k] eqn:E; [ lia | ].
  rewrite Nat.iter_succ_r.
  replace (Zpos n) with (1 + Z.of_nat k) by lia.
  apply shifted_iter_nat; [ lia | now apply shifted_first ].
Qed.

(** Rounding to nearest after [k] shifts is within half a unit of the
    shifted number. *)
Lemma round_shifted (P k : Z) (r : shr_record) :
  1 <= k -> shifted P k r ->
  2 * Z.abs (round_nearest_even (shr_m r) (loc_of_shr_record r) * 2 ^ k - P)
    <= 2 ^ k.
Proof.
  intros Hk (Hm & low & Hlow & HP & Hs).
  assert (Hpow : 2 ^ k = 2 * 2 ^ (k - 1)).
  { replace k with (Z.succ (k - 1)) at 1 by lia. apply Z.pow_succ_r. lia. }
  destruct r as [m b s]. cbn [shr_m shr_r shr_s] in *.
  destruct b, s; cbn [loc_of_shr_record round_nearest_even].
  - assert (0 < low) by now apply Hs. lia.
  - assert (low = 0).
    { destruct (Z.eq_dec low 0) as [ | Hn]; [ assumption | ].
      assert (H : false = true) by (apply Hs; lia). discriminate. }
    destruct (Z.even m); lia.
  - assert (0 < low) by now apply Hs. lia.
  - assert (low = 0).
    { destruct (Z.eq_dec low 0) as [ | Hn]; [ assumption | ].
      assert (H : false = true) by (apply Hs; lia). discriminate. }
    lia.
Qed.

Lemma digits2_53 (q : positive) :
  2 ^ 52 <= Zpos q < 2 ^ 53 -> Zpos (digits2_pos q) = 53.
Proof.
  intros Hq. pose proof (digits2_bounds q) as Hd.
  remember (Zpos (digits2_pos q)) as d eqn:Ed. clear Ed.
  remember (Zpos q) as Q eqn:EQ. clear EQ q.
  destruct (Z_lt_ge_dec d 53) as [Hlt | Hge].
  - exfalso. assert (2 ^ d <= 2 ^ 52) by (apply Z.pow_le_mono_r; lia). lia.
  - destruct (Z_le_gt_dec d 53) as [Hle | Hgt]; [ lia | exfalso ].
    assert (2 ^ 53 <= 2 ^ (d - 1)) by (apply Z.pow_le_mono_r; lia). lia.
Qed.

(** The square of a 53-bit mantissa: bounds, and the distance to the next
    power of two. *)
Lemma square_bounds (M : Z) :
  2 ^ 52 <= M < 2 ^ 53 ->
  2 ^ 104 <= M * M <= 2 ^ 106 - 2 ^ 54 + 1
  /\ (M * M < 2 ^ 105 -> M * M < 2 ^ 105 - 2 ^ 51)
  /\ (2 ^ 105 <= M * M -> 2 ^ 52 < M).
Proof.
  intros [Hlo Hhi].
  assert (H1 : 2 ^ 52 * 2 ^ 52 <= M * M)
    by (apply Z.square_le_mono_nonneg; [ apply Z.pow_nonneg | ]; lia).
  assert (H2 : M * M <= (2 ^ 53 - 1) * (2 ^ 53 - 1))
    by (apply Z.square_le_mono_nonneg; lia).
  repeat split.
  - exact H1.
  - exact H2.
  - intros Hlt.
    assert (HM : M <= 6369051672525772).
    { destruct (Z_le_gt_dec M 6369051672525772) as [ | Hgt]; [ assumption | exfalso ].
      assert (6369051672525773 * 6369051672525773 <= M * M)
        by (apply Z.square_le_mono_nonneg; lia).
      revert Hlt H. generalize (M * M). intros P.
      change (2 ^ 105) with 40564819207303340847894502572032. lia. }
    assert (M * M <= 6369051672525772 * 6369051672525772)
      by (apply Z.square_le_mono_nonneg; lia).
    revert H. generalize (M * M). intros P.
    change (2 ^ 105) with 40564819207303340847894502572032.
    change (2 ^ 51) with 2251799813685248. lia.
  - intros Hge.
    destruct (Z_le_gt_dec M (2 ^ 52)) as [Hle | Hgt]; [ exfalso | lia ].
    assert (M * M <= 2 ^ 52 * 2 ^ 52)
      by (apply Z.square_le_mono_nonneg; lia).
    revert Hge H. generalize (M * M). intros P. lia.
Qed.

Lemma mul_round (m : positive) (e : Z) :
  2 ^ 52 <= Zpos m < 2 ^ 53 -> -552 <= e <= 448 ->
  exists (q : positive) (n : Z),
    binary_round_aux prec emax false (Zpos (m * m)) (e + e) loc_Exact
      = S754_finite false q (e + e + n)
    /\ (n = 52 \/ n = 53)
    /\ 2 ^ 52 <= Zpos q < 2 ^ 53
    /\ (n = 53 -> 2 ^ 52 < Zpos m)
    /\ 2 * Z.abs (Zpos q * 2 ^ n - Zpos m * Zpos m) <= 2 ^ n.
Proof.
  intros Hm He. unfold binary_round_aux, shr_fexp.
  cbn [Zdigits2 shr_record_of_loc]. rewrite fexp_eq.
  pose proof (digits2_bounds (m * m)) as Hd.
  rewrite Pos2Z.inj_mul in *.
  remember (Zpos (digits2_pos (m * m))) as d eqn:Ed. clear Ed.
  remember (Zpos m) as M eqn:EM. clear EM m.
  destruct (square_bounds M Hm) as (HP & Hlow & Hhigh).
  remember (M * M) as P eqn:EP.
  assert (Hd' : d = 105 \/ d = 106).
  { destruct (Z_lt_ge_dec d 105) as [Hlt | Hge].
    - exfalso. assert (2 ^ d <= 2 ^ 104) by (apply Z.pow_le_mono_r; lia). lia.
    - destruct (Z_le_gt_dec d 106) as [Hle | Hgt]; [ lia | exfalso ].
      assert (2 ^ 106 <= 2 ^ (d - 1)) by (apply Z.pow_le_mono_r; lia). lia. }
  rewrite shr_pos by lia.
  replace (Z.max (d + (e + e) - 53) (-1074) - (e + e)) with (d - 53) by lia.
  assert (Hsh : shifted P (d - 53)
                  (iter_pos shr_1 (Z.to_pos (d - 53))
                     {| shr_m := P; shr_r := false; shr_s := false |})).
  { pose proof (shifted_iter P (Z.to_pos (d - 53))) as H.
    rewrite Z2Pos.id in H by lia. apply H. lia. }
  assert (Hq0 : shr_m (iter_pos shr_1 (Z.to_pos (d - 53))
                     {| shr_m := P; shr_r := false; shr_s := false |})
                = P / 2 ^ (d - 53)).
  { rewrite iter_shr_m by (cbn; lia). cbn [shr_m].
    rewrite Z2Pos.id by lia. reflexivity. }
  set (r1 := iter_pos shr_1 (Z.to_pos (d - 53)) _) in *.
  pose proof (round_shifted P (d - 53) r1 ltac:(lia) Hsh) as Hround.
  pose proof (round_nearest_even_ge (shr_m r1) (loc_of_shr_record r1)) as Hge.
  set (q1 := round_nearest_even _ _) in *.
  assert (Hq1 : 2 ^ 52 <= q1 < 2 ^ 53).
  { destruct Hd' as [-> | ->].
    - change (105 - 53) with 52 in *. change (105 - 1) with 104 in *.
      assert (Hl := Hlow (proj2 Hd)).
      assert (2 ^ 52 <= P / 2 ^ 52) by (apply Z.div_le_lower_bound; lia).
      split; [ lia | ].
      apply Z.mul_lt_mono_pos_r with (2 ^ 52); [ lia | ].
      clear - Hround Hl. lia.
    - change (106 - 53) with 53 in *. change (106 - 1) with 105 in *.
      assert (2 ^ 52 <= P / 2 ^ 53) by (apply Z.div_le_lower_bound; lia).
      split; [ lia | ].
      apply Z.mul_lt_mono_pos_r with (2 ^ 53); [ lia | ].
      clear - Hround HP. lia. }
  destruct q1 as [ | q | q] eqn:Eq1; try lia.
  cbn [Zdigits2 shr_record_of_loc]. rewrite fexp_eq.
  rewrite (digits2_53 q Hq1).
  rewrite shr_nonpos by lia. cbn [shr_m].
  replace (e + e + (d - 53) <=? emax - prec) with true
    by (symmetry; apply Z.leb_le; change (emax - prec) with 971; lia).
  exists q, (d - 53). repeat split; try lia.
  destruct Hd' as [-> | ->]; [ intros; lia | intros _; apply Hhigh; lia ].
Qed.

Lemma loc_of_shr_record_of_loc (z : Z) (l : location) :
  loc_of_shr_record (shr_record_of_loc z l) = l
  /\ shr_m (shr_record_of_loc z l) = z.
Proof. destruct l as [ | [ | | ]]; split; reflexivity. Qed.

(** A mantissa of at most 53 bits whose rounding has exactly 53 bits is
    rounded in place. *)
Lemma binary_round_aux_in_place (z : Z) (l : location) (e : Z) (q : positive) :
  0 < z < 2 ^ 53 -> -1074 <= e <= 971 ->
  round_nearest_even z l = Zpos q -> 2 ^ 52 <= Zpos q < 2 ^ 53 ->
  binary_round_aux prec emax false z e l = S754_finite false q e.
Proof.
  intros Hz He Hr Hq. unfold binary_round_aux, shr_fexp.
  destruct z as [ | p | p]; try lia.
  cbn [Zdigits2]. rewrite fexp_eq.
  pose proof (digits2_bounds p) as Hd.
  remember (Zpos (digits2_pos p)) as d eqn:Ed. clear Ed.
  assert (Hd53 : d <= 53).
  { destruct (Z_le_gt_dec d 53) as [ | Hgt]; [ assumption | exfalso ].
    assert (2 ^ 53 <= 2 ^ (d - 1)) by (apply Z.pow_le_mono_r; lia).
    revert Hz Hd H. generalize (Zpos p). intros. lia. }
  rewrite shr_nonpos by lia.
  destruct (loc_of_shr_record_of_loc (Zpos p) l) as [-> ->].
  rewrite Hr. cbn [Zdigits2 shr_record_of_loc]. rewrite fexp_eq.
  rewrite (digits2_53 q Hq). rewrite shr_nonpos by lia. cbn [shr_m].
  replace (e <=? emax - prec) with true
    by (symmetry; apply Z.leb_le; change (emax - prec) with 971; lia).
  reflexivity.
Qed.

Lemma sqrt_core (q : positive) (e n : Z) :
  2 ^ 52 <= Zpos q < 2 ^ 53 -> n = 52 \/ n = 53 -> -552 <= e <= 448 ->
  SFsqrt_core_binary prec emax (Zpos q) (e + e + n)
  = let (s, r) := Z.sqrtrem (Zpos q * 2 ^ n) in
    (s, e, if r =? 0 then loc_Exact
           else loc_Inexact (if r <=? s then Lt else Gt)).
Proof.
  intros Hq Hn He. unfold SFsqrt_core_binary. cbv zeta.
  cbn [Zdigits2]. rewrite (digits2_53 q Hq), fexp_eq, !Z.div2_div.
  assert (E1 : (53 + (e + e + n) + 1) / 2 = e + 53).
  { symmetry. destruct Hn as [-> | ->]; [ apply Z.div_unique with 0 | apply Z.div_unique with 1 ]; lia. }
  assert (E2 : (e + e + n) / 2 = e + 26).
  { symmetry. destruct Hn as [-> | ->]; [ apply Z.div_unique with 0 | apply Z.div_unique with 1 ]; lia. }
  rewrite E1, E2.
  replace (Z.min (Z.max (e + 53 - 53) (-1074)) (e + 26)) with e by lia.
  replace (e + e + n - 2 * e) with n by lia.
  destruct Hn as [-> | ->]; cbv iota; rewrite Z.shiftl_mul_pow2 by lia;
    reflexivity.
Qed.

Lemma sqrt_round (m q : positive) (e n : Z) :
  2 ^ 52 <= Zpos m < 2 ^ 53 -> 2 ^ 52 <= Zpos q < 2 ^ 53 ->
  n = 52 \/ n = 53 -> -552 <= e <= 448 ->
  Z.abs (Zpos q * 2 ^ n - Zpos m * Zpos m) < Zpos m ->
  SFsqrt prec emax (S754_finite false q (e + e + n)) = S754_finite false m e.
Proof.
  intros Hm Hq Hn He HD. unfold SFsqrt.
  rewrite (sqrt_core q e n Hq Hn He).
  assert (H0 : 0 <= Zpos q * 2 ^ n).
  { apply Z.mul_nonneg_nonneg; [ lia | apply Z.pow_nonneg; lia ]. }
  pose proof (Z.sqrtrem_spec (Zpos q * 2 ^ n) H0) as Hs.
  remember (Zpos q * 2 ^ n) as m' eqn:Em'. clear Em' H0 Hq Hn q n.
  destruct (Z.sqrtrem m') as [s r]. destruct Hs as [Hs Hr].
  assert (Hlo : Zpos m - 1 <= s).
  { destruct (Z_le_gt_dec (Zpos m - 1) s) as [ | Hgt]; [ assumption | exfalso ].
    assert ((s + 1) * (s + 1) <= (Zpos m - 1) * (Zpos m - 1))
      by (apply Z.square_le_mono_nonneg; lia).
    replace ((s + 1) * (s + 1)) with (s * s + 2 * s + 1) in H by ring.
    replace ((Zpos m - 1) * (Zpos m - 1))
      with (Zpos m * Zpos m - 2 * Zpos m + 1) in H by ring.
    revert Hm HD Hs H Hgt Hr. generalize (Zpos m * Zpos m) (s * s) (Zpos m).
    intros. lia. }
  assert (Hhi : s <= Zpos m).
  { destruct (Z_le_gt_dec s (Zpos m)) as [ | Hgt]; [ assumption | exfalso ].
    assert ((Zpos m + 1) * (Zpos m + 1) <= s * s)
      by (apply Z.square_le_mono_nonneg; lia).
    replace ((Zpos m + 1) * (Zpos m + 1))
      with (Zpos m * Zpos m + 2 * Zpos m + 1) in H by ring.
    revert Hm HD Hs H Hgt Hr. generalize (Zpos m * Zpos m) (s * s) (Zpos m).
    intros. lia. }
  assert (Hround :
    round_nearest_even s
      (if r =? 0 then loc_Exact else loc_Inexact (if r <=? s then Lt else Gt))
    = Zpos m).
  { destruct (Z.eq_dec s (Zpos m)) as [-> | Hne].
    - assert (r <= Zpos m).
      { revert Hm HD Hs Hr. generalize (Zpos m * Zpos m) (Zpos m). intros. lia. }
      destruct (Z.eqb_spec r 0); [ reflexivity | ].
      destruct (Z.leb_spec r (Zpos m)); [ reflexivity | lia ].
    - assert (Es : s = Zpos m - 1) by lia. subst s.
      replace ((Zpos m - 1) * (Zpos m - 1))
        with (Zpos m * Zpos m - 2 * Zpos m + 1) in Hs by ring.
      assert (Zpos m - 1 < r).
      { revert Hm HD Hs Hr. generalize (Zpos m * Zpos m) (Zpos m). intros. lia. }
      destruct (Z.eqb_spec r 0); [ lia | ].
      destruct (Z.leb_spec r (Zpos m - 1)); [ lia | ].
      cbn [round_nearest_even]. lia. }
  apply binary_round_aux_in_place; try assumption; lia.
Qed.

(** The square root of the rounded square of a binary64 number between
    2^-500 and 2^500 is the number. *)
Lemma SFsqrt_square (m : positive) (e : Z) :
  2 ^ 52 <= Zpos m < 2 ^ 53 -> -552 <= e <= 448 ->
  SFsqrt prec emax
    (SFadd prec emax
       (SFmul prec emax (S754_finite false m e) (S754_finite false m e))
       (S754_zero false))
  = S754_finite false m e.
Proof.
  intros Hm He. cbn [SFmul xorb].
  destruct (mul_round m e Hm He) as (q & n & -> & Hn & Hq & Hbig & Herr).
  cbn [SFadd].
  apply sqrt_round; try assumption.
  assert (Hpow : 2 ^ n <= 2 * Zpos m).
  { destruct Hn as [-> | ->]; [ lia | ]. specialize (Hbig eq_refl).
    change (2 ^ 53) with (2 * 2 ^ 52). lia. }
  destruct Hn as [-> | ->].
  - clear Hbig. revert Hm Herr. generalize (Zpos q * 2 ^ 52 - Zpos m * Zpos m) (Zpos m).
    intros. lia.
  - specialize (Hbig eq_refl). revert Hm Hbig Herr.
    generalize (Zpos q * 2 ^ 53 - Zpos m * Zpos m) (Zpos m).
    intros. lia.
Qed.

End Rounding.

(** ** Exact binary64 identities used by the movement code *)

(** [Number.isFinite] in terms of the representation. *)
Lemma is_finite_SF (a : float) :
  is_finite a = true ->
  match Prim2SF a with
  | S754_zero _ | S754_finite _ _ _ => True
  | _ => False
  end.
Proof.
  unfold is_finite, is_nan, is_infinity.
  rewrite !FloatAxioms.eqb_spec, FloatAxioms.abs_spec.
  change (Prim2SF infinity) with (S754_infinity false).
  destruct (Prim2SF a) as [s | s | | s m e]; cbn; try discriminate; auto.
  now destruct s.
Qed.

Lemma not_neg_zero_SF (a : float) :
  is_neg_zero a = false -> Prim2SF a <> S754_zero true.
Proof.
  unfold is_neg_zero. intros H E.
  assert (Ha : a = neg_zero)
    by (rewrite <- (FloatAxioms.SF2Prim_Prim2SF a), E; reflexivity).
  apply FloatAxioms.Leibniz.eqb_spec in Ha. congruence.
Qed.

Lemma mul_opp_l (s d : float) : - s * d = - (s * d).
Proof.
  apply FloatAxioms.Prim2SF_inj.
  rewrite FloatAxioms.mul_spec, !FloatAxioms.opp_spec, FloatAxioms.mul_spec.
  apply SFmul_opp_l.
Qed.

(** Adding [-a] and then [a] to zero gives zero again. *)
Lemma add_opp_cancel (a : float) :
  is_finite a = true -> 0 + - a + a = 0.
Proof.
  intros H. apply FloatAxioms.Prim2SF_inj.
  rewrite !FloatAxioms.add_spec, FloatAxioms.opp_spec.
  change (Prim2SF 0) with (S754_zero false).
  apply SFadd_opp_self, is_finite_SF, H.
Qed.

(** Adding zero changes nothing, except the sign of a negative zero. *)
Lemma add_zero_r (v : float) : is_neg_zero v = false -> v + 0 = v.
Proof.
  intros H. apply FloatAxioms.Prim2SF_inj. rewrite FloatAxioms.add_spec.
  change (Prim2SF 0) with (S754_zero false).
  apply SFadd_zero_r, (not_neg_zero_SF _ H).
Qed.

Lemma add_neg_zero_r (v : float) : v + -0 = v.
Proof.
  apply FloatAxioms.Prim2SF_inj. rewrite FloatAxioms.add_spec.
  change (Prim2SF (-0)) with (S754_zero true).
  destruct (Prim2SF v) as [s | s | | s m e]; try reflexivity.
  now destruct s.
Qed.

Lemma add_nan_r (v : float) : v + nan = nan.
Proof.
  apply FloatAxioms.Prim2SF_inj. rewrite FloatAxioms.add_spec.
  change (Prim2SF nan) with S754_nan.
  now destruct (Prim2SF v) as [[ | ] | [ | ] | | ].
Qed.

Lemma sub_nan_l (r : float) : nan - r = nan.
Proof.
  apply FloatAxioms.Prim2SF_inj. rewrite FloatAxioms.sub_spec.
  change (Prim2SF nan) with S754_nan. reflexivity.
Qed.

Lemma nan_geb_zero : (nan >=? 0) = false.
Proof. reflexivity. Qed.

(** [0 * s] is a zero, or NaN when [s] is not finite. *)
Lemma zero_mul_cases (s : float) : 0 * s = 0 \/ 0 * s = -0 \/ 0 * s = nan.
Proof.
  pose proof (SFmul_zero_l (Prim2SF s)) as H.
  rewrite <- (FloatAxioms.SF2Prim_Prim2SF (0 * s)), FloatAxioms.mul_spec.
  change (Prim2SF 0) with (S754_zero false).
  destruct (SF64mul _ _) as [[ | ] | | | ]; cbn in H |- *; try tauto.
Qed.

(** The candidate coordinate for a zero direction is the coordinate itself,
    or NaN when the speed is not finite. *)
Lemma zero_step (v s : float) :
  is_neg_zero v = false -> v + 0 * s = v \/ v + 0 * s = nan.
Proof.
  intros H. destruct (zero_mul_cases s) as [E | [E | E]]; rewrite E.
  - left. now apply add_zero_r.
  - left. apply add_neg_zero_r.
  - right. apply add_nan_r.
Qed.

(** A sum is the negative zero only if both terms are. *)
Lemma add_is_neg_zero (v d : float) :
  is_neg_zero v = false -> is_neg_zero (v + d) = false.
Proof.
  intros H. destruct (is_neg_zero (v + d)) eqn:E; [ exfalso | reflexivity ].
  apply FloatAxioms.Leibniz.eqb_spec in E.
  apply (not_neg_zero_SF _ H).
  apply (SFadd_neg_zero _ (Prim2SF d));
    try apply FloatAxioms.Prim2SF_valid.
  rewrite <- FloatAxioms.add_spec, E. reflexivity.
Qed.

Lemma div_self (a : float) :
  is_finite a = true -> (a =? 0) = false -> a / a = 1.
Proof.
  intros Hf Hz. apply is_finite_SF in Hf. revert Hz.
  rewrite FloatAxioms.eqb_spec. change (Prim2SF 0) with (S754_zero false).
  intros Hz. apply FloatAxioms.Prim2SF_inj. rewrite FloatAxioms.div_spec.
  destruct (Prim2SF a) as [s | s | | s m e]; try tauto.
  - destruct s; discriminate.
  - apply SFdiv_self.
Qed.

Lemma one_mul (s : float) : 1 * s = s.
Proof.
  apply FloatAxioms.Prim2SF_inj. rewrite FloatAxioms.mul_spec.
  apply SFmul_one_l, FloatAxioms.Prim2SF_valid.
Qed.

Lemma zero_div_pos (a : float) : (a >? 0) = true -> 0 / a = 0.
Proof.
  unfold gtb. rewrite FloatAxioms.ltb_spec.
  change (Prim2SF 0) with (S754_zero false). intros H.
  apply FloatAxioms.Prim2SF_inj. rewrite FloatAxioms.div_spec.
  change (Prim2SF 0) with (S754_zero false).
  destruct (Prim2SF a) as [s | s | | s m e]; try discriminate;
    destruct s; try discriminate; reflexivity.
Qed.

Lemma zero_add_pos (a : float) : (a >? 0) = true -> 0 + a = a.
Proof.
  unfold gtb. rewrite FloatAxioms.ltb_spec.
  change (Prim2SF 0) with (S754_zero false). intros H.
  apply FloatAxioms.Prim2SF_inj. rewrite FloatAxioms.add_spec.
  change (Prim2SF 0) with (S754_zero false).
  destruct (Prim2SF a) as [s | s | | s m e]; try discriminate; reflexivity.
Qed.

Lemma positive_neq_zero (a : float) : (a >? 0) = true -> (a !== 0) = true.
Proof. intros H. unfold neqb. now rewrite (gtb_zero_neq _ H). Qed.

(** The two halves of the radius-aware test of part_000, for the radius
    0.2 on the 10 x 10 grid: a candidate that passes [v - 0.2 >= 0] is at
    least 0.2, and one that passes [v + 0.2 <= 10] is at most [10 - 0.2]. *)
Lemma radius_lower (v : float) :
  (v - 0.2 >=? 0) = true -> (0.2 <=? v) = true.
Proof.
  unfold geb. rewrite !FloatAxioms.leb_spec, FloatAxioms.sub_spec.
  apply sub_02_nonneg, FloatAxioms.Prim2SF_valid.
Qed.

Lemma radius_upper (v : float) :
  (v + 0.2 <=? 10) = true -> (v <=? 10 - 0.2) = true.
Proof.
  rewrite !FloatAxioms.leb_spec, FloatAxioms.add_spec.
  apply add_02_upto_ten, FloatAxioms.Prim2SF_valid.
Qed.

(** ** Vector2.normalize *)

Lemma checked_div_pos (a len : float) :
  (len >? 0) = true -> checked_div a len = Some (a / len).
Proof.
  intros H. unfold checked_div. rewrite (gtb_zero_neq _ H). reflexivity.
Qed.

(** C5.  [normalize] of the zero vector is the zero vector, in the
    allocating and in the in-place version; and for every vector, the method
    run with a division that refuses a zero divisor returns what the method
    itself returns: it is total and no division it performs has a zero
    divisor. *)
Theorem normalize_zero_guarded :
  Vector2.normalize (Vector2.new 0 0) = (Vector2.new 0 0, Vector2.new 0 0)
  /\ Vector2.normalize_in_place (Vector2.new 0 0)
     = (Vector2.new 0 0, Vector2.new 0 0)
  /\ (forall v, Vector2.normalize_checked v = Some (Vector2.normalize v))
  /\ (forall v, Vector2.normalize_in_place_checked v
                = Some (Vector2.normalize_in_place v)).
Proof.
  repeat split; try reflexivity; intros v.
  - unfold Vector2.normalize_checked, Vector2.normalize.
    destruct (sqrt _ >? 0) eqn:Hlen; [ | reflexivity ].
    now rewrite !(checked_div_pos _ _ Hlen).
  - unfold Vector2.normalize_in_place_checked, Vector2.normalize_in_place.
    destruct (sqrt _ >? 0) eqn:Hlen; [ | reflexivity ].
    now rewrite !(checked_div_pos _ _ Hlen).
Qed.

(** The value of [normalize], by cases on the computed length. *)
Lemma normalize_value (v : Vector2.t) :
  fst (Vector2.normalize v)
  = if Vector2.magnitude v >? 0
    then Vector2.new (Vector2.x v / Vector2.magnitude v)
                     (Vector2.y v / Vector2.magnitude v)
    else Vector2.new 0 0.
Proof.
  unfold Vector2.normalize, Vector2.magnitude.
  now destruct (sqrt _ >? 0).
Qed.

Lemma normalize_in_place_value (v : Vector2.t) :
  fst (Vector2.normalize_in_place v)
  = if Vector2.magnitude v >? 0
    then Vector2.new (Vector2.x v / Vector2.magnitude v)
                     (Vector2.y v / Vector2.magnitude v)
    else v.
Proof.
  unfold Vector2.normalize_in_place, Vector2.magnitude.
  now destruct (sqrt _ >? 0).
Qed.

(** The two methods leave their receiver as their documentation says. *)
Lemma normalize_receiver (v : Vector2.t) :
  snd (Vector2.normalize v) = v
  /\ snd (Vector2.normalize_in_place v) = fst (Vector2.normalize_in_place v).
Proof.
  unfold Vector2.normalize, Vector2.normalize_in_place.
  now destruct (sqrt _ >? 0).
Qed.

(** C10, as stated, fails: a vector so short that [x*x + y*y] underflows to
    zero has computed length 0; the allocating method answers (0,0), the
    in-place method answers the vector itself.  The same happens for a NaN
    component. *)
Lemma normalize_versions_differ :
  fst (Vector2.normalize (Vector2.new 1e-200 0))
    <> fst (Vector2.normalize_in_place (Vector2.new 1e-200 0))
  /\ fst (Vector2.normalize (Vector2.new nan 1))
    <> fst (Vector2.normalize_in_place (Vector2.new nan 1)).
Proof.
  split; intros E.
  - apply (f_equal (fun v => Vector2.x v =? 0)) in E.
    vm_compute in E. discriminate.
  - apply (f_equal (fun v => Vector2.y v =? 0)) in E.
    vm_compute in E. discriminate.
Qed.

(** C10, amended.  Both methods return (x/len, y/len) when the computed
    length is positive; otherwise the allocating one returns (0,0) and the
    in-place one its receiver, which it also leaves as its receiver.  Hence
    they return the same vector exactly when the computed length is positive
    or the input is (0,0) already. *)
Theorem normalize_versions_agree (v : Vector2.t) :
  let len := Vector2.magnitude v in
  let scaled := Vector2.new (Vector2.x v / len) (Vector2.y v / len) in
  Vector2.normalize v
  = (if len >? 0 then scaled else Vector2.new 0 0, v)
  /\ Vector2.normalize_in_place v
     = (if len >? 0 then scaled else v, if len >? 0 then scaled else v)
  /\ (fst (Vector2.normalize v) = fst (Vector2.normalize_in_place v)
      <-> ((len >? 0) = true \/ v = Vector2.new 0 0)).
Proof.
  cbn zeta. pose proof (normalize_value v) as Hv.
  pose proof (normalize_in_place_value v) as Hv'.
  split; [ | split; [ | split ] ].
  - unfold Vector2.normalize, Vector2.magnitude.
    now destruct (sqrt _ >? 0).
  - unfold Vector2.normalize_in_place, Vector2.magnitude.
    now destruct (sqrt _ >? 0).
  - rewrite Hv, Hv'. destruct (Vector2.magnitude v >? 0); intros H.
    + now left.
    + right. now symmetry.
  - rewrite Hv, Hv'. destruct (Vector2.magnitude v >? 0); intros H.
    + reflexivity.
    + destruct H as [H | H]; [ discriminate | now symmetry ].
Qed.


(** The movements the keys can produce normalize, in binary64, to vectors
    whose computed magnitude is within one unit in the last place of 1. *)
Example normalize_game_directions :
  List.length game_directions = 12%nat
  /\ forallb
       (fun v =>
          let m := Vector2.magnitude (fst (Vector2.normalize v)) in
          (1 - 0x1p-52 <=? m) && (m <=? 1 + 0x1p-52))
       game_directions = true.
Proof. split; reflexivity. Qed.

Section ExactNormalize.
#[local] Open Scope R_scope.




End ExactNormalize.

(** ** The position invariant *)

(** Each coordinate of the new position depends on the test of its own
    candidate only. *)
Lemma move_by_axis (p : Player.t) (d : Vector2.t) :
  let c := candidate (fst (Vector2.normalize d)) p in
  let c' := candidate (fst (Vector2.normalize_in_place d)) p in
  let pos := Player.position p in
  Player.position (Game.move p d)
  = Vector2.new
      (if within Game.GRID_COLS (Vector2.x c)
       then Vector2.x c else Vector2.x pos)
      (if within Game.GRID_ROWS (Vector2.y c)
       then Vector2.y c else Vector2.y pos)
  /\ Player.position (Part000.move p d)
     = Vector2.new
         (if within_radius (Player.radius p) Part000.GRID_COLS (Vector2.x c)
          then Vector2.x c else Vector2.x pos)
         (if within_radius (Player.radius p) Part000.GRID_ROWS (Vector2.y c)
          then Vector2.y c else Vector2.y pos)
  /\ Player.position (fst (Part001.move p d))
     = Vector2.new
         (if within Part001.GRID_COLS (Vector2.x c')
          then Vector2.x c' else Vector2.x pos)
         (if within Part001.GRID_ROWS (Vector2.y c')
          then Vector2.y c' else Vector2.y pos).
Proof.
  unfold Game.move, Part000.move, Part001.move, candidate, within,
    within_radius.
  destruct (Vector2.normalize_in_place d) as [n' d'].
  destruct p as [[px py] r c s].
  cbn [Player.position Player.speed Player.radius Vector2.x Vector2.y fst].
  repeat split;
    match goal with
    | |- context [if ?a then Player.set_x _ _ else _] => destruct a
    end;
    cbn [Player.set_x Player.position Player.radius Vector2.x Vector2.y];
    match goal with
    | |- context [if ?a then Player.set_y _ _ else _] => destruct a
    end; reflexivity.
Qed.

(** An invariant of one call is an invariant of every sequence of calls. *)
Lemma moves_invariant (move : Player.t -> Vector2.t -> Player.t)
                      (inv : Player.t -> bool) :
  (forall p d, inv p = true -> inv (move p d) = true) ->
  forall ds p, inv p = true ->
  Forall (fun q => inv q = true) (moves move p ds).
Proof.
  intros Hstep ds. induction ds as [ | d ds IH]; intros p Hp; cbn.
  - constructor.
  - constructor; [ now apply Hstep | apply IH; now apply Hstep ].
Qed.

Lemma Game_move_in_grid (p : Player.t) (d : Vector2.t) :
  in_grid Game.GRID_COLS Game.GRID_ROWS p = true ->
  in_grid Game.GRID_COLS Game.GRID_ROWS (Game.move p d) = true.
Proof.
  unfold in_grid, Game.move, Game.GRID_COLS, Game.GRID_ROWS, geb.
  destruct p as [[px py] r c s]; cbn [Player.position Player.speed].
  set (newX := Vector2.x _ + _). set (newY := Vector2.y _ + _).
  intros H. apply andb_true_iff in H as [H Hy2].
  apply andb_true_iff in H as [H Hy1]. apply andb_true_iff in H as [Hx1 Hx2].
  destruct ((0 <=? newX) && (newX <=? 10)) eqn:Gx;
    destruct ((0 <=? newY) && (newY <=? 10)) eqn:Gy; cbn;
    try apply andb_true_iff in Gx as [Gx1 Gx2];
    try apply andb_true_iff in Gy as [Gy1 Gy2];
    repeat (apply andb_true_iff; split); assumption.
Qed.

Lemma Part001_move_in_grid (p : Player.t) (d : Vector2.t) :
  in_grid Part001.GRID_COLS Part001.GRID_ROWS p = true ->
  in_grid Part001.GRID_COLS Part001.GRID_ROWS (fst (Part001.move p d)) = true.
Proof.
  unfold in_grid, Part001.move, Part001.GRID_COLS, Part001.GRID_ROWS, geb.
  destruct (Vector2.normalize_in_place d) as [n d'].
  destruct p as [[px py] r c s]; cbn [Player.position Player.speed fst].
  set (newX := Vector2.x _ + _). set (newY := Vector2.y _ + _).
  intros H. apply andb_true_iff in H as [H Hy2].
  apply andb_true_iff in H as [H Hy1]. apply andb_true_iff in H as [Hx1 Hx2].
  destruct ((0 <=? newX) && (newX <=? 10)) eqn:Gx;
    destruct ((0 <=? newY) && (newY <=? 10)) eqn:Gy; cbn;
    try apply andb_true_iff in Gx as [Gx1 Gx2];
    try apply andb_true_iff in Gy as [Gy1 Gy2];
    repeat (apply andb_true_iff; split); assumption.
Qed.

Lemma Part000_move_radius (p : Player.t) (d : Vector2.t) :
  Player.radius (Part000.move p d) = Player.radius p.
Proof.
  unfold Part000.move.
  repeat match goal with |- context [if ?c then _ else _] => destruct c end;
    reflexivity.
Qed.

Lemma Part000_move_in_grid (p : Player.t) (d : Vector2.t) :
  in_grid_radius_02 p = true -> in_grid_radius_02 (Part000.move p d) = true.
Proof.
  unfold in_grid_radius_02. intros H.
  apply andb_true_iff in H as [Hr H]. rewrite Part000_move_radius, Hr.
  cbn [andb]. apply FloatAxioms.Leibniz.eqb_spec in Hr.
  revert H.
  unfold in_grid_radius, Part000.move, Part000.GRID_COLS, Part000.GRID_ROWS.
  destruct p as [[px py] r c s];
    cbn [Player.position Player.speed Player.radius Vector2.x Vector2.y] in *.
  subst r.
  set (newX := px + _). set (newY := py + _).
  intros H. apply andb_true_iff in H as [H Hy2].
  apply andb_true_iff in H as [H Hy1]. apply andb_true_iff in H as [Hx1 Hx2].
  destruct ((newX - 0.2 >=? 0) && (newX + 0.2 <=? 10)) eqn:Gx;
    cbn [Player.set_x Player.set_y Player.position Player.radius
         Vector2.x Vector2.y];
    destruct ((newY - 0.2 >=? 0) && (newY + 0.2 <=? 10)) eqn:Gy;
    cbn [Player.set_x Player.set_y Player.position Player.radius
         Vector2.x Vector2.y];
    try apply andb_true_iff in Gx as [Gx1 Gx2];
    try apply andb_true_iff in Gy as [Gy1 Gy2];
    repeat (apply andb_true_iff; split);
    auto using radius_lower, radius_upper.
Qed.

(** What [move] assigns to a coordinate has passed the test of that
    coordinate, from whatever player it starts. *)
Lemma move_assigns_tested (p : Player.t) (d : Vector2.t) :
  let pos := Player.position p in
  let pos' := Player.position (Game.move p d) in
  let pos'' := Player.position (Part000.move p d) in
  (Vector2.x pos' = Vector2.x pos
   \/ within Game.GRID_COLS (Vector2.x pos') = true)
  /\ (Vector2.y pos' = Vector2.y pos
      \/ within Game.GRID_ROWS (Vector2.y pos') = true)
  /\ (Vector2.x pos'' = Vector2.x pos
      \/ within_radius (Player.radius p) Part000.GRID_COLS (Vector2.x pos'')
         = true)
  /\ (Vector2.y pos'' = Vector2.y pos
      \/ within_radius (Player.radius p) Part000.GRID_ROWS (Vector2.y pos'')
         = true).
Proof.
  cbn zeta. destruct (move_by_axis p d) as (H1 & H2 & _). rewrite H1, H2.
  cbn [Vector2.x Vector2.y].
  repeat split;
    match goal with
    | |- context [if ?c then _ else _] => destruct c eqn:E
    end; auto.
Qed.

(** C1.  Start from a player at (0.5, 0.5) with radius 0.2, of any
    colour and speed, and call [move] with any sequence of direction
    vectors, NaN and infinities included.  After every call the position
    is within its bounds: [0 <= x <= GRID_COLS] and [0 <= y <= GRID_ROWS]
    for the [move] of game.ts and of part_001,
    [radius <= x <= GRID_COLS - radius] and
    [radius <= y <= GRID_ROWS - radius] for the radius-aware [move] of
    part_000.  And from any player whatever, a coordinate that [move]
    changes has passed the bounds test of its version. *)
Theorem position_invariant (color : string) (speed : float)
                           (ds : list Vector2.t) :
  let p0 := Player.new (Vector2.new 0.5 0.5) 0.2 color speed in
  Forall (fun p => in_grid Game.GRID_COLS Game.GRID_ROWS p = true)
         (moves Game.move p0 ds)
  /\ Forall (fun p => in_grid Part001.GRID_COLS Part001.GRID_ROWS p = true)
            (moves (fun p d => fst (Part001.move p d)) p0 ds)
  /\ Forall (fun p =>
               in_grid_radius Part000.GRID_COLS Part000.GRID_ROWS p = true)
            (moves Part000.move p0 ds)
  /\ (forall p d,
        let pos := Player.position p in
        let pos' := Player.position (Game.move p d) in
        let pos'' := Player.position (Part000.move p d) in
        (Vector2.x pos' = Vector2.x pos
         \/ within Game.GRID_COLS (Vector2.x pos') = true)
        /\ (Vector2.y pos' = Vector2.y pos
            \/ within Game.GRID_ROWS (Vector2.y pos') = true)
        /\ (Vector2.x pos'' = Vector2.x pos
            \/ within_radius (Player.radius p) Part000.GRID_COLS
                             (Vector2.x pos'') = true)
        /\ (Vector2.y pos'' = Vector2.y pos
            \/ within_radius (Player.radius p) Part000.GRID_ROWS
                             (Vector2.y pos'') = true)).
Proof.
  cbn zeta. split; [ | split; [ | split ] ].
  - apply moves_invariant; [ exact Game_move_in_grid | reflexivity ].
  - apply moves_invariant; [ exact Part001_move_in_grid | reflexivity ].
  - eapply Forall_impl;
      [ | apply (moves_invariant Part000.move in_grid_radius_02);
          [ exact Part000_move_in_grid | reflexivity ] ].
    intros p H. unfold in_grid_radius_02 in H.
    now apply andb_true_iff in H as [_ H].
  - exact move_assigns_tested.
Qed.

(** Positions reached from the initial player by any sequence of [move]
    calls have no negative zero coordinate. *)
Lemma move_no_neg_zero (px py nx ny : float) (gx gy : bool) :
  no_neg_zero (Vector2.new px py) = true ->
  no_neg_zero (Vector2.new (if gx then px + nx else px)
                           (if gy then py + ny else py)) = true.
Proof.
  unfold no_neg_zero. cbn [Vector2.x Vector2.y]. intros H.
  apply andb_true_iff in H as [Hx Hy].
  apply negb_true_iff in Hx. apply negb_true_iff in Hy.
  apply andb_true_iff. split; apply negb_true_iff.
  - destruct gx; [ now apply add_is_neg_zero | assumption ].
  - destruct gy; [ now apply add_is_neg_zero | assumption ].
Qed.

Lemma reachable_no_neg_zero (ds : list Vector2.t) :
  Forall (fun p => no_neg_zero (Player.position p) = true)
         (moves Game.move initial_player ds)
  /\ Forall (fun p => no_neg_zero (Player.position p) = true)
            (moves Part000.move initial_player ds)
  /\ Forall (fun p => no_neg_zero (Player.position p) = true)
            (moves (fun p d => fst (Part001.move p d)) initial_player ds).
Proof.
  repeat split;
    (apply (moves_invariant _ (fun p => no_neg_zero (Player.position p)));
     [ | reflexivity ]);
    intros [[px py] r c s] d H; cbn [Player.position] in H.
  - unfold Game.move. cbn [Player.position Player.speed Vector2.x Vector2.y].
    match goal with
    | |- context [if ?a then Player.set_x _ _ else _] => destruct a
    end;
    match goal with
    | |- context [if ?a then Player.set_y _ _ else _] => destruct a
    end; cbn [Player.set_x Player.set_y Player.position Vector2.x Vector2.y].
    + now apply (move_no_neg_zero px py _ _ true true).
    + now apply (move_no_neg_zero px py _ 0 true false).
    + now apply (move_no_neg_zero px py 0 _ false true).
    + assumption.
  - unfold Part000.move.
    cbn [Player.position Player.speed Player.radius Vector2.x Vector2.y].
    match goal with
    | |- context [if ?a then Player.set_x _ _ else _] => destruct a
    end; cbn [Player.set_x Player.position Player.radius Vector2.x Vector2.y];
    match goal with
    | |- context [if ?a then Player.set_y _ _ else _] => destruct a
    end; cbn [Player.set_x Player.set_y Player.position Vector2.x Vector2.y].
    + now apply (move_no_neg_zero px py _ _ true true).
    + now apply (move_no_neg_zero px py _ 0 true false).
    + now apply (move_no_neg_zero px py 0 _ false true).
    + assumption.
  - unfold Part001.move. destruct (Vector2.normalize_in_place d) as [n d'].
    cbn [Player.position Player.speed Vector2.x Vector2.y fst].
    match goal with
    | |- context [if ?a then Player.set_x _ _ else _] => destruct a
    end;
    match goal with
    | |- context [if ?a then Player.set_y _ _ else _] => destruct a
    end; cbn [Player.set_x Player.set_y Player.position Vector2.x Vector2.y].
    + now apply (move_no_neg_zero px py _ _ true true).
    + now apply (move_no_neg_zero px py _ 0 true false).
    + now apply (move_no_neg_zero px py 0 _ false true).
    + assumption.
Qed.

(** ** Axis-independent bounds *)



(** The scenario at y = 0.5: x stays at the bound, y increases. *)
Example at_bound_right_and_down :
  let p := Player.new (Vector2.new (10 - 0.2) 0.5) 0.2 "lightgreen" 0.05 in
  let p' := Part000.move p (Part000.handleInput p right_and_down dt16) in
  Vector2.x (Player.position p') = 10 - 0.2
  /\ (Vector2.y (Player.position p') >? 0.5) = true.
Proof. split; reflexivity. Qed.

(** ** What a tick does to the player

    In each version a tick of the running (and, for game.ts, unpaused) loop
    replaces the player by the result of [move] on the movement read from
    the input, with [dt = (currentTime - lastTime) / 1000]. *)

Lemma Game_tick_player (currentTime : float) (s : Game.State) :
  Game.GAMERUN s = true ->
  Game.pausedAfterCheck s = false ->
  Game.player1 (fst (Game.gameLoop currentTime s))
  = Game.move (Game.player1 s)
      (Game.readMovement (Game.inputManager s)
         (Player.speed (Game.player1 s))
         ((currentTime - Game.lastTime s) / 1000)).
Proof.
  intros Hrun Hp. unfold Game.gameLoop, Game.pausedAfterCheck in *.
  rewrite Hrun. cbn [negb].
  destruct (InputManager.isKeyPressed _ _ && negb _); rewrite Hp;
    destruct (sampleFPS _ _ _) as [[l c] fps]; reflexivity.
Qed.

Lemma Part000_tick_player (currentTime now1 now2 : float)
                          (s : Part000.State) :
  Part000.GAMERUN s = true ->
  Part000.player (fst (Part000.gameLoop currentTime now1 now2 s))
  = Part000.move (Part000.player s)
      (Part000.handleInput (Part000.player s) (Part000.inputManager s)
         ((currentTime - Part000.lastTime s) / 1000)).
Proof.
  intros Hrun. unfold Part000.gameLoop. rewrite Hrun. cbn [negb].
  destruct (Part000.updateFPS _ _ _ _) as [[l c] fps]. reflexivity.
Qed.

Lemma Part001_tick_player (currentTime : float) (s : Part001.State) :
  Part001.GAMERUN s = true ->
  Part001.player1 (fst (Part001.gameLoop currentTime s))
  = fst (Part001.move (Part001.player1 s)
           (Part001.readMovement s
              ((currentTime - Part001.lastTime s) / 1000))).
Proof.
  intros Hrun. unfold Part001.gameLoop. rewrite Hrun. cbn [negb].
  destruct (sampleFPS _ _ _) as [[l c] fps].
  destruct (Part001.move _ _) as [p m]. reflexivity.
Qed.

(** ** Opposite keys *)

Lemma accumulate_up_down (speed dt : float) :
  is_finite (speed * dt) = true ->
  accumulate true true false false speed dt = Vector2.new 0 0.
Proof.
  intros H. unfold accumulate, Vector2.add. cbn [Vector2.x Vector2.y].
  rewrite mul_opp_l, (add_opp_cancel _ H). reflexivity.
Qed.

Ltac zero_move Hnz :=
  apply andb_true_iff in Hnz as [Hx Hy];
  apply negb_true_iff in Hx; apply negb_true_iff in Hy;
  match goal with
  | |- context [?px + 0 * ?s] =>
      destruct (zero_step px s Hx) as [Ex | Ex]; rewrite Ex
  end;
  match goal with
  | |- context [?py + 0 * ?s] =>
      destruct (zero_step py s Hy) as [Ey | Ey]; rewrite Ey
  end;
  rewrite ?sub_nan_l, ?nan_geb_zero; cbn [andb];
  repeat match goal with
         | |- context [if ?c then _ else _] => destruct c
         end;
  reflexivity.

Lemma Game_move_zero (p : Player.t) :
  no_neg_zero (Player.position p) = true ->
  Player.position (Game.move p (Vector2.new 0 0)) = Player.position p.
Proof.
  intros Hnz. unfold Game.move.
  change (fst (Vector2.normalize (Vector2.new 0 0))) with (Vector2.new 0 0).
  destruct p as [[px py] r c s]. unfold no_neg_zero in Hnz.
  cbn [Player.position Player.speed Vector2.x Vector2.y] in *.
  zero_move Hnz.
Qed.

Lemma Part000_move_zero (p : Player.t) :
  no_neg_zero (Player.position p) = true ->
  Player.position (Part000.move p (Vector2.new 0 0)) = Player.position p.
Proof.
  intros Hnz. unfold Part000.move.
  change (fst (Vector2.normalize (Vector2.new 0 0))) with (Vector2.new 0 0).
  destruct p as [[px py] r c s]. unfold no_neg_zero in Hnz.
  cbn [Player.position Player.speed Player.radius Vector2.x Vector2.y] in *.
  zero_move Hnz.
Qed.

Lemma Part001_move_zero (p : Player.t) :
  no_neg_zero (Player.position p) = true ->
  Player.position (fst (Part001.move p (Vector2.new 0 0)))
  = Player.position p.
Proof.
  intros Hnz. unfold Part001.move.
  change (Vector2.normalize_in_place (Vector2.new 0 0))
    with (Vector2.new 0 0, Vector2.new 0 0).
  destruct p as [[px py] r c s]. unfold no_neg_zero in Hnz.
  cbn [Player.position Player.speed Vector2.x Vector2.y fst] in *.
  zero_move Hnz.
Qed.

(** C6.  On a tick (see [Game_tick_player] and its siblings) with up and
    down held and neither left nor right, for a finite step [speed * dt]:
    the four [movement.add] statements leave [movement] at (0,0); each
    version then passes a zero vector to [move]; and [move] leaves the
    position as it was.  (The position is compared as a pair of floats,
    hence the premise that no coordinate is [-0], which [x + 0] would turn
    into [+0]; no position reached from (0.5, 0.5) has one, see
    [reachable_no_neg_zero].) *)
Theorem opposite_keys_cancel (p : Player.t) (dt : float) :
  is_finite (Player.speed p * dt) = true ->
  no_neg_zero (Player.position p) = true ->
  accumulate true true false false (Player.speed p) dt = Vector2.new 0 0
  /\ (forall im,
        InputManager.isKeyPressed im "w" = true ->
        InputManager.isKeyPressed im "s" = true ->
        InputManager.isKeyPressed im "a" = false ->
        InputManager.isKeyPressed im "d" = false ->
        Game.readMovement im (Player.speed p) dt = Vector2.new 0 0
        /\ Player.position
             (Game.move p (Game.readMovement im (Player.speed p) dt))
           = Player.position p)
  /\ (forall im,
        let pressed := InputManager.isKeyPressed im in
        (pressed "w" || pressed "arrowup")%string = true ->
        (pressed "s" || pressed "arrowdown")%string = true ->
        (pressed "a" || pressed "arrowleft")%string = false ->
        (pressed "d" || pressed "arrowright")%string = false ->
        Part000.handleInput p im dt = Vector2.new 0 0
        /\ Player.position (Part000.move p (Part000.handleInput p im dt))
           = Player.position p)
  /\ (forall s,
        Part001.player1 s = p ->
        Part001.moveUp s = true -> Part001.moveDown s = true ->
        Part001.moveLeft s = false -> Part001.moveRight s = false ->
        Part001.readMovement s dt = Vector2.new 0 0
        /\ Player.position
             (fst (Part001.move p (Part001.readMovement s dt)))
           = Player.position p).
Proof.
  intros Hfin Hnz.
  pose proof (accumulate_up_down _ _ Hfin) as Hacc.
  split; [ exact Hacc | split; [ | split ] ].
  - intros im Hw Hs Ha Hd.
    assert (E : Game.readMovement im (Player.speed p) dt = Vector2.new 0 0)
      by (unfold Game.readMovement; rewrite Hw, Hs, Ha, Hd, Hacc;
          reflexivity).
    rewrite E. split; [ reflexivity | now apply Game_move_zero ].
  - intros im pressed Hw Hs Ha Hd.
    assert (E : Part000.handleInput p im dt = Vector2.new 0 0)
      by (unfold Part000.handleInput; fold pressed;
          rewrite Hw, Hs, Ha, Hd, Hacc; reflexivity).
    rewrite E. split; [ reflexivity | now apply Part000_move_zero ].
  - intros s Hp Hu Hd Hl Hr.
    assert (E : Part001.readMovement s dt = Vector2.new 0 0)
      by (unfold Part001.readMovement; rewrite Hp, Hu, Hd, Hl, Hr, Hacc;
          reflexivity).
    rewrite E. split; [ reflexivity | now apply Part001_move_zero ].
Qed.

Lemma opposite_keys_cancel_witness :
  accumulate true true false false 0.05 0.016 = Vector2.new 0 0
  /\ Player.position
       (Game.move initial_player
          (Game.readMovement (InputManager.mk keyboard ["w"; "s"]%string)
                             0.05 0.016))
     = Vector2.new 0.5 0.5.
Proof.
  destruct (opposite_keys_cancel initial_player 0.016) as (H1 & H2 & _);
    [ reflexivity | reflexivity | ].
  split; [ exact H1 | ].
  apply (H2 (InputManager.mk keyboard ["w"; "s"]%string)); reflexivity.
Defined.

(** ** One key held *)

(** A number between 2^-500 and 2^500 is positive and normal. *)
Lemma between_pow500_SF (a : float) :
  (0x1p-500 <=? a) && (a <=? 0x1p500) = true ->
  exists (m : positive) (e : Z),
    Prim2SF a = S754_finite false m e
    /\ (2 ^ 52 <= Zpos m < 2 ^ 53)%Z /\ (-552 <= e <= 448)%Z.
Proof.
  intros H. apply andb_true_iff in H as [Hlo Hhi].
  rewrite FloatAxioms.leb_spec in Hlo, Hhi.
  pose proof (Prim2SF_valid a) as Hv.
  change (Prim2SF 0x1p-500)
    with (S754_finite false 4503599627370496 (-552)) in Hlo.
  change (Prim2SF 0x1p500)
    with (S754_finite false 4503599627370496 448) in Hhi.
  destruct (Prim2SF a) as [s | s | | s m e].
  - destruct s; vm_compute in Hlo; discriminate.
  - destruct s; vm_compute in Hlo, Hhi; discriminate.
  - vm_compute in Hlo; discriminate.
  - destruct s; [ discriminate | ].
    cbn [valid_binary] in Hv. apply bounded_inv in Hv as (He & Hm & Hn).
    unfold SFleb, SFcompare in Hlo, Hhi.
    exists m, e. split; [ reflexivity | ].
    destruct (Z.compare_spec (-552) e) as [E1 | E1 | E1];
      destruct (Z.compare_spec e 448) as [E2 | E2 | E2];
      try discriminate; try lia; (split; [ | lia ]).
    all: try (split; [ apply Hn; lia | lia ]).
Qed.

(** The computed length of the vector (a, 0) is [a], for every [a] between
    2^-500 and 2^500: the square is rounded once and the root of the
    rounded square once, and the root rounds back to [a]. *)
Lemma sqrt_square (a : float) :
  (0x1p-500 <=? a) && (a <=? 0x1p500) = true -> sqrt (a * a + 0 * 0) = a.
Proof.
  intros H. destruct (between_pow500_SF a H) as (m & e & E & Hm & He).
  apply Prim2SF_inj. change (0 * 0) with 0.
  rewrite sqrt_spec, add_spec, mul_spec, E. rewrite SF_of_zero.
  apply SFsqrt_square; assumption.
Qed.

Lemma step_in_range_inv (speed dt : float) :
  step_in_range speed dt = true ->
  let a := speed * dt in
  (a >? 0) = true /\ is_finite a = true /\ sqrt (a * a + 0 * 0) = a.
Proof.
  unfold step_in_range. cbn zeta. intros H.
  destruct (between_pow500_SF _ H) as (m & e & E & _ & _).
  repeat split.
  - unfold gtb. rewrite FloatAxioms.ltb_spec, E. reflexivity.
  - unfold is_finite, is_nan, is_infinity.
    rewrite !FloatAxioms.eqb_spec, FloatAxioms.abs_spec, E.
    unfold SFeqb, SFabs, SFcompare.
    rewrite Z.compare_refl, Pos.compare_cont_refl. reflexivity.
  - now apply sqrt_square.
Qed.

Lemma accumulate_right (speed dt : float) :
  (speed * dt >? 0) = true ->
  accumulate false false false true speed dt = Vector2.new (speed * dt) 0.
Proof.
  intros H. unfold accumulate, Vector2.add. cbn [Vector2.x Vector2.y].
  rewrite (zero_add_pos _ H). reflexivity.
Qed.

(** In range, (a, 0) normalizes to (1, 0), in both versions of the
    method. *)
Lemma normalize_right (a : float) :
  (a >? 0) = true -> is_finite a = true -> sqrt (a * a + 0 * 0) = a ->
  Vector2.normalize (Vector2.new a 0) = (Vector2.new 1 0, Vector2.new a 0)
  /\ Vector2.normalize_in_place (Vector2.new a 0)
     = (Vector2.new 1 0, Vector2.new 1 0).
Proof.
  intros Hpos Hfin Hlen.
  unfold Vector2.normalize, Vector2.normalize_in_place.
  cbn [Vector2.x Vector2.y]. rewrite Hlen, Hpos.
  rewrite (div_self _ Hfin (gtb_zero_neq _ Hpos)), (zero_div_pos _ Hpos).
  split; reflexivity.
Qed.

(** The vector each version hands to [move] when only "right" is held. *)
Lemma movement_right (speed dt : float) :
  step_in_range speed dt = true ->
  (forall im,
     InputManager.isKeyPressed im "w" = false ->
     InputManager.isKeyPressed im "s" = false ->
     InputManager.isKeyPressed im "a" = false ->
     InputManager.isKeyPressed im "d" = true ->
     Game.readMovement im speed dt = Vector2.new (speed * dt) 0)
  /\ (forall p im,
        Player.speed p = speed ->
        let pressed := InputManager.isKeyPressed im in
        (pressed "w" || pressed "arrowup")%string = false ->
        (pressed "s" || pressed "arrowdown")%string = false ->
        (pressed "a" || pressed "arrowleft")%string = false ->
        (pressed "d" || pressed "arrowright")%string = true ->
        Part000.handleInput p im dt = Vector2.new 1 0)
  /\ (forall s,
        Player.speed (Part001.player1 s) = speed ->
        Part001.moveUp s = false -> Part001.moveDown s = false ->
        Part001.moveLeft s = false -> Part001.moveRight s = true ->
        Part001.readMovement s dt = Vector2.new 1 0).
Proof.
  intros H. apply step_in_range_inv in H as (Hpos & Hfin & Hlen).
  pose proof (accumulate_right _ _ Hpos) as Hacc.
  pose proof (normalize_right _ Hpos Hfin Hlen) as [Hn Hi].
  pose proof (positive_neq_zero _ Hpos) as Hne.
  repeat split.
  - intros im Hw Hs Ha Hd. unfold Game.readMovement.
    rewrite Hw, Hs, Ha, Hd, Hacc. cbn [Vector2.x Vector2.y].
    now rewrite Hne, Hn.
  - intros p im Hp pressed Hw Hs Ha Hd. unfold Part000.handleInput.
    fold pressed. rewrite Hw, Hs, Ha, Hd, Hp, Hacc. cbn [Vector2.x Vector2.y].
    now rewrite Hne, Hn.
  - intros s Hp Hu Hd Hl Hr. unfold Part001.readMovement.
    rewrite Hu, Hd, Hl, Hr, Hp, Hacc. cbn [Vector2.x Vector2.y].
    now rewrite Hne, Hi.
Qed.

Ltac right_move Hy Hg :=
  rewrite one_mul in *; rewrite Hg;
  match goal with
  | |- context [?py + 0 * ?s] =>
      destruct (zero_step py s Hy) as [Ey | Ey]; rewrite Ey
  end;
  cbn [Player.set_x Player.set_y Player.position Player.radius
       Vector2.x Vector2.y];
  rewrite ?sub_nan_l, ?nan_geb_zero; cbn [andb];
  repeat match goal with
         | |- context [if ?c then _ else _] => destruct c
         end;
  reflexivity.

Lemma Game_move_unit_right (p : Player.t) (a : float) :
  fst (Vector2.normalize (Vector2.new a 0)) = Vector2.new 1 0 ->
  let x := Vector2.x (Player.position p) in
  let y := Vector2.y (Player.position p) in
  is_neg_zero y = false ->
  (x + Player.speed p >=? 0) && (x + Player.speed p <=? Game.GRID_COLS)
  = true ->
  Player.position (Game.move p (Vector2.new a 0))
  = Vector2.new (x + Player.speed p) y.
Proof.
  intros Hn x y Hy Hg. unfold Game.move. rewrite Hn.
  destruct p as [[px py] r c s]. subst x y.
  cbn [Player.position Player.speed Vector2.x Vector2.y] in *.
  right_move Hy Hg.
Qed.

Lemma Part000_move_unit_right (p : Player.t) :
  let x := Vector2.x (Player.position p) in
  let y := Vector2.y (Player.position p) in
  is_neg_zero y = false ->
  (x + Player.speed p - Player.radius p >=? 0)
  && (x + Player.speed p + Player.radius p <=? Part000.GRID_COLS) = true ->
  Player.position (Part000.move p (Vector2.new 1 0))
  = Vector2.new (x + Player.speed p) y.
Proof.
  intros x y Hy Hg. unfold Part000.move.
  change (fst (Vector2.normalize (Vector2.new 1 0))) with (Vector2.new 1 0).
  destruct p as [[px py] r c s]. subst x y.
  cbn [Player.position Player.speed Player.radius Vector2.x Vector2.y] in *.
  right_move Hy Hg.
Qed.

Lemma Part001_move_unit_right (p : Player.t) :
  let x := Vector2.x (Player.position p) in
  let y := Vector2.y (Player.position p) in
  is_neg_zero y = false ->
  (x + Player.speed p >=? 0) && (x + Player.speed p <=? Part001.GRID_COLS)
  = true ->
  Player.position (fst (Part001.move p (Vector2.new 1 0)))
  = Vector2.new (x + Player.speed p) y.
Proof.
  intros x y Hy Hg. unfold Part001.move.
  change (Vector2.normalize_in_place (Vector2.new 1 0))
    with (Vector2.new 1 0, Vector2.new 1 0).
  destruct p as [[px py] r c s]. subst x y.
  cbn [Player.position Player.speed Vector2.x Vector2.y fst] in *.
  right_move Hy Hg.
Qed.

(** At the speed of the game every frame time from 1 ms to 1 s is in
    range. *)
Example frame_times_in_range :
  forallb (step_in_range 0.05) frame_times = true.
Proof. vm_compute. reflexivity. Qed.

(** C4, as stated, fails: for a [dt] so small that [(speed * dt)^2]
    underflows to zero the computed length of the raw movement is 0, the
    normalized direction is (0,0), and the player stays where it is although
    [dt > 0], only "d" is held and both candidates pass the bounds test. *)
Lemma right_key_tiny_dt :
  let im := InputManager.mk keyboard ["d"%string] in
  let p := Game.move initial_player (Game.readMovement im 0.05 1e-200) in
  (1e-200 >? 0) = true
  /\ in_grid Game.GRID_COLS Game.GRID_ROWS initial_player = true
  /\ Player.position p = Vector2.new 0.5 0.5
  /\ Vector2.x (Player.position p) <> 0.5 + 0.05.
Proof.
  cbn zeta. repeat split; try reflexivity.
  intros E. apply (f_equal (fun v => v <? 0.52)) in E.
  vm_compute in E. discriminate.
Qed.

(** C4, amended.  On a tick on which only "right" is held, whose step
    [speed * dt] is in range (see [step_in_range]) and whose candidate x
    passes the bounds test, [position.x] becomes [position.x + speed] and
    [position.y] keeps its value, in all three versions: the step does not
    depend on [dt].  (The coordinate y is compared as a float and so must
    not be [-0]; see [reachable_no_neg_zero].) *)
Theorem right_key_step (p : Player.t) (dt : float) :
  let x := Vector2.x (Player.position p) in
  let y := Vector2.y (Player.position p) in
  let speed := Player.speed p in
  step_in_range speed dt = true ->
  is_neg_zero y = false ->
  (forall im,
     InputManager.isKeyPressed im "w" = false ->
     InputManager.isKeyPressed im "s" = false ->
     InputManager.isKeyPressed im "a" = false ->
     InputManager.isKeyPressed im "d" = true ->
     (x + speed >=? 0) && (x + speed <=? Game.GRID_COLS) = true ->
     Player.position (Game.move p (Game.readMovement im speed dt))
     = Vector2.new (x + speed) y)
  /\ (forall im,
        let pressed := InputManager.isKeyPressed im in
        (pressed "w" || pressed "arrowup")%string = false ->
        (pressed "s" || pressed "arrowdown")%string = false ->
        (pressed "a" || pressed "arrowleft")%string = false ->
        (pressed "d" || pressed "arrowright")%string = true ->
        (x + speed - Player.radius p >=? 0)
        && (x + speed + Player.radius p <=? Part000.GRID_COLS) = true ->
        Player.position (Part000.move p (Part000.handleInput p im dt))
        = Vector2.new (x + speed) y)
  /\ (forall s,
        Part001.player1 s = p ->
        Part001.moveUp s = false -> Part001.moveDown s = false ->
        Part001.moveLeft s = false -> Part001.moveRight s = true ->
        (x + speed >=? 0) && (x + speed <=? Part001.GRID_COLS) = true ->
        Player.position (fst (Part001.move p (Part001.readMovement s dt)))
        = Vector2.new (x + speed) y).
Proof.
  intros x y speed Hrange Hy.
  pose proof (movement_right _ _ Hrange) as (Hg & H0 & H1).
  apply step_in_range_inv in Hrange as (Hpos & Hfin & Hlen).
  pose proof (normalize_right _ Hpos Hfin Hlen) as [Hn _].
  repeat split.
  - intros im Hw Hs Ha Hd Hb. rewrite (Hg im Hw Hs Ha Hd).
    apply Game_move_unit_right; [ now rewrite Hn | assumption | assumption ].
  - intros im pressed Hw Hs Ha Hd Hb.
    rewrite (H0 p im eq_refl Hw Hs Ha Hd).
    now apply Part000_move_unit_right.
  - intros s Hp Hu Hd Hl Hr Hb. rewrite (H1 s); try assumption.
    + now apply Part001_move_unit_right.
    + now rewrite Hp.
Qed.

Lemma right_key_step_witness :
  Player.position
    (Game.move initial_player
       (Game.readMovement (InputManager.mk keyboard ["d"%string])
                          0.05 0.016))
  = Vector2.new (0.5 + 0.05) 0.5.
Proof.
  destruct (right_key_step initial_player 0.016) as (H & _);
    [ reflexivity | reflexivity | ].
  apply (H (InputManager.mk keyboard ["d"%string])); reflexivity.
Defined.

(** ** The FPS sampler *)

(** A tick at most 900 ms after a window that started at time 0 is not
    past the 1000 ms mark. *)
Lemma within_900_not_past_1000 (t : float) :
  (t <=? 900) = true -> (t >? 0 + 1000) = false.
Proof.
  unfold gtb. change (0 + 1000) with 1000.
  rewrite FloatAxioms.leb_spec, FloatAxioms.ltb_spec.
  change (Prim2SF 900) with (S754_finite false 7916483719987200 (-43)).
  change (Prim2SF 1000) with (S754_finite false 8796093022208000 (-43)).
  unfold SFleb, SFltb.
  destruct (Prim2SF t) as [s | s | | s m e]; cbn [SFcompare];
    try destruct s; try discriminate; try reflexivity.
  rewrite !compare_cont_Z. generalize (Zpos m). intros z.
  destruct (Z.compare_spec e (-43)) as [He | He | He];
    destruct (Z.compare_spec (-43) e) as [He' | He' | He'];
    try (exfalso; clear - He He'; lia); try discriminate; try reflexivity.
  destruct (Z.compare_spec z 7916483719987200);
    destruct (Z.compare_spec 8796093022208000 z);
    try lia; try discriminate; reflexivity.
Qed.

(** C7, as stated, fails: on the tick that emits, the code sets the
    count to 0 and then executes [frameCount++] like on any other tick, so
    the tick ends with count 1 where the specified sampler has 0.  And
    [updateFPS] on its own, which does leave 0 on that tick, does not
    increment on the others. *)
Lemma sampleFPS_counts_emitting_tick :
  (let '(l, c, out) := sampleFPS 1005 0 60 in (l, c, emitted out))
    <> spec_sample 1005 0 60
  /\ (let '(l, c, out) := Part000.updateFPS 500 500 0 7 in
      (l, c, emitted out)) <> spec_sample 500 0 7.
Proof.
  split; intros E.
  - apply (f_equal (fun r => snd (fst r) =? 0)) in E.
    vm_compute in E. discriminate.
  - apply (f_equal (fun r => snd (fst r) =? 7)) in E.
    vm_compute in E. discriminate.
Qed.

Lemma sampleFPS_cases (now last count : float) :
  sampleFPS now last count
  = if now >? last + 1000
    then (now, 1, [DrawFPS count; ConsoleLog (LogFPS count)])
    else (last, count + 1, []).
Proof. unfold sampleFPS. now destruct (now >? last + 1000). Qed.

Lemma sampleRun_quiet (ts : list float) :
  Forall (fun t => (t <=? 900) = true) ts ->
  forall c out,
  fold_left
    (fun (acc : float * float * list Effect) t =>
       let '(l, c, out) := acc in
       let '(l', c', o) := sampleFPS t l c in (l', c', out ++ o))
    ts (0, c, out)
  = (0, Nat.iter (List.length ts) (fun c => c + 1) c, out).
Proof.
  induction 1 as [ | t ts Ht _ IH]; intros c out; [ reflexivity | ].
  cbn [fold_left List.length]. rewrite sampleFPS_cases.
  rewrite (within_900_not_past_1000 _ Ht), app_nil_r, IH.
  now rewrite Nat.iter_succ_r.
Qed.

(** C7, amended.  On every tick the block increments the count; when
    [now > lastFPS + 1000] it first displays the count, moves [lastFPS] to
    [now] and restarts the count from 0, so that tick ends with count 1.
    [updateFPS] of part_000 followed by the caller's [frameCount++] is the
    same block.  Sixty ticks within 900 ms of a window opened at 0 and one
    more at 1005 ms display one count, 60. *)
Theorem fps_sampler :
  (forall now last count,
     sampleFPS now last count
     = if now >? last + 1000
       then (now, 1, [DrawFPS count; ConsoleLog (LogFPS count)])
       else (last, count + 1, []))
  /\ (forall now last count,
        (let '(l, c, out) := Part000.updateFPS now now last count in
         (l, c + 1, out)) = sampleFPS now last count)
  /\ (forall ts,
        List.length ts = 60%nat ->
        Forall (fun t => (t <=? 900) = true) ts ->
        sampleRun 0 0 (ts ++ [1005])
        = (1005, 1, [DrawFPS 60; ConsoleLog (LogFPS 60)])).
Proof.
  split; [ exact sampleFPS_cases | split ].
  - intros now last count. unfold Part000.updateFPS, sampleFPS.
    now destruct (now >? last + 1000).
  - intros ts Hlen Hts. unfold sampleRun.
    rewrite fold_left_app, (sampleRun_quiet ts Hts), Hlen.
    cbn [fold_left]. now vm_compute.
Qed.

Lemma fps_sampler_witness :
  sampleRun 0 0 (sixty_ticks ++ [1005])
  = (1005, 1, [DrawFPS 60; ConsoleLog (LogFPS 60)]).
Proof.
  apply (proj2 (proj2 fps_sampler) sixty_ticks).
  - reflexivity.
  - vm_compute. repeat constructor.
Defined.

(** ** The pause key of game.ts *)

(** What a tick does once [paused] is found set after the toggle test. *)
Lemma gameLoop_paused (currentTime : float) (s : Game.State) :
  Game.GAMERUN s = true ->
  Game.pausedAfterCheck s = true ->
  Game.gameLoop currentTime s
  = (Game.mkState true (Game.player1 s) (Game.lastTime s) (Game.lastFPS s)
                  (Game.frameCount s) (Game.inputManager s) true
                  (Game.lastPausePressed s),
     (if Game.paused s then [] else [ConsoleLog (LogPause true)])
       ++ [RequestAnimationFrame]).
Proof.
  intros Hrun Hp. unfold Game.gameLoop, Game.pausedAfterCheck in *.
  rewrite Hrun. cbn [negb].
  destruct (InputManager.isKeyPressed _ _ && negb _);
    destruct (Game.paused s); cbn in Hp |- *; try discriminate; reflexivity.
Qed.

(** C8.  A tick of the running loop that finds [paused] set after the
    toggle test leaves the player and the clock variables [lastTime],
    [lastFPS], [frameCount] as they were, logs no movement, redraws no
    layer, and requests the next animation frame. *)
Theorem paused_tick_is_idle (currentTime : float) (s : Game.State) :
  Game.GAMERUN s = true ->
  Game.pausedAfterCheck s = true ->
  let (s', out) := Game.gameLoop currentTime s in
  Game.player1 s' = Game.player1 s
  /\ Game.lastTime s' = Game.lastTime s
  /\ Game.lastFPS s' = Game.lastFPS s
  /\ Game.frameCount s' = Game.frameCount s
  /\ (forall m, ~ In (ConsoleLog (LogMovement m)) out)
  /\ (forall p, ~ In (UpdateLayer p) out)
  /\ Game.requestsFrame out = true.
Proof.
  intros Hrun Hp. rewrite (gameLoop_paused _ _ Hrun Hp).
  repeat split; try reflexivity.
  - intros m. destruct (Game.paused s); cbn; intuition discriminate.
  - intros p. destruct (Game.paused s); cbn; intuition discriminate.
  - now destruct (Game.paused s).
Qed.

Lemma paused_tick_is_idle_witness :
  let (s', out) := Game.gameLoop 16 escape_held in
  Game.player1 s' = Game.player1 escape_held
  /\ Game.lastTime s' = Game.lastTime escape_held
  /\ Game.lastFPS s' = Game.lastFPS escape_held
  /\ Game.frameCount s' = Game.frameCount escape_held
  /\ (forall m, ~ In (ConsoleLog (LogMovement m)) out)
  /\ (forall p, ~ In (UpdateLayer p) out)
  /\ Game.requestsFrame out = true.
Proof.
  apply (paused_tick_is_idle 16 escape_held); reflexivity.
Defined.

(** The effects of the FPS block never mention the pause state and never
    request a frame. *)
Lemma sampleFPS_quiet (currentTime lastFPS frameCount : float) :
  let out := snd (sampleFPS currentTime lastFPS frameCount) in
  Game.pauseToggles out = 0%nat /\ Game.requestsFrame out = false.
Proof.
  unfold sampleFPS. now destruct (currentTime >? lastFPS + 1000).
Qed.

Lemma pauseToggles_app (a b : list Effect) :
  Game.pauseToggles (a ++ b)
  = (Game.pauseToggles a + Game.pauseToggles b)%nat.
Proof.
  unfold Game.pauseToggles. now rewrite filter_app, length_app.
Qed.

(** No statement assigns [lastPausePressed]: a tick returns it as it
    found it. *)
Lemma lastPausePressed_never_assigned (currentTime : float) (s : Game.State) :
  Game.lastPausePressed (fst (Game.gameLoop currentTime s))
  = Game.lastPausePressed s.
Proof.
  unfold Game.gameLoop.
  destruct (negb (Game.GAMERUN s)); [ reflexivity | ].
  destruct (InputManager.isKeyPressed _ _ && negb _);
    destruct (Game.paused s); cbn;
    try reflexivity;
    destruct (sampleFPS _ _ _) as [[l c] fps]; reflexivity.
Qed.

(** One tick with Escape down, in a running loop whose [lastPausePressed]
    is false: [paused] flips, one toggle is reported, the next frame is
    requested, and the conditions hold again. *)
Lemma held_tick_toggles (currentTime : float) (s : Game.State) :
  Game.GAMERUN s = true ->
  Game.lastPausePressed s = false ->
  InputManager.isKeyPressed (Game.inputManager s) "Escape" = true ->
  let (s', out) := Game.gameLoop currentTime s in
  Game.GAMERUN s' = true
  /\ Game.lastPausePressed s' = false
  /\ Game.inputManager s' = Game.inputManager s
  /\ Game.paused s' = negb (Game.paused s)
  /\ Game.pauseToggles out = 1%nat
  /\ Game.requestsFrame out = true.
Proof.
  intros Hrun Hlast Hesc. unfold Game.gameLoop.
  rewrite Hrun, Hlast, Hesc. cbn [negb andb].
  destruct (Game.paused s); cbn [negb].
  - pose proof (sampleFPS_quiet currentTime (Game.lastFPS s)
                                (Game.frameCount s)) as Hq.
    destruct (sampleFPS _ _ _) as [[l c] fps]. cbn [snd] in Hq.
    destruct Hq as [Hq1 Hq2]. cbn [Game.GAMERUN Game.lastPausePressed
      Game.inputManager Game.paused].
    repeat split; try reflexivity.
    + rewrite !pauseToggles_app, Hq1. reflexivity.
    + unfold Game.requestsFrame in *. rewrite !existsb_app, Hq2. cbn.
      reflexivity.
  - cbn. repeat split; reflexivity.
Qed.

Lemma escape_down_frames (ts : list float) :
  forall ss, escape_down ss ->
  let ss' := Game.run ss (map Game.AnimationFrame ts) in
  escape_down ss'
  /\ Game.pauseToggles (Game.trace ss')
     = (Game.pauseToggles (Game.trace ss) + List.length ts)%nat
  /\ Game.paused (Game.state ss')
     = xorb (Game.paused (Game.state ss)) (Nat.odd (List.length ts)).
Proof.
  induction ts as [ | t ts IH]; intros ss Hss.
  - cbn. repeat split; try apply Hss.
    + now rewrite Nat.add_0_r.
    + now rewrite xorb_false_r.
  - destruct Hss as (Hrun & Hlast & Hesc & Hpend).
    cbn [map Game.run fold_left Game.deliver]. rewrite Hpend.
    pose proof (held_tick_toggles t _ Hrun Hlast Hesc) as Htick.
    destruct (Game.gameLoop t (Game.state ss)) as [s' out].
    destruct Htick as (Hrun' & Hlast' & Him & Hpaused & Htog & Hreq).
    specialize (IH (Game.mkSession s' (Game.requestsFrame out)
                                   (Game.trace ss ++ out))).
    unfold Game.run in IH. cbn zeta in IH.
    destruct IH as (IH1 & IH2 & IH3).
    { repeat split; cbn; try assumption. now rewrite Him. }
    repeat split; try apply IH1.
    + rewrite IH2. cbn [Game.trace]. rewrite pauseToggles_app, Htog.
      cbn [List.length]. lia.
    + rewrite IH3. cbn [Game.state List.length]. rewrite Hpaused.
      rewrite Nat.odd_succ, <- Nat.negb_odd.
      now destruct (Game.paused (Game.state ss)), (Nat.odd (List.length ts)).
Qed.

(** C2, what the code does.  Escape goes down and then every frame
    finds it down: each of those frames toggles [paused], the first one and
    every later one alike, because [lastPausePressed] is false on all of
    them.  With the frame of the press edge and ten more, that is eleven
    toggles where the specification has one. *)
Theorem escape_held_toggles_every_tick (t0 t1 : float) (ts : list float) :
  let ss := Game.run (Game.start t0 t1)
                     (Game.KeyDown "Escape" :: map Game.AnimationFrame ts) in
  Game.pauseToggles (Game.trace ss) = List.length ts
  /\ Game.paused (Game.state ss) = Nat.odd (List.length ts).
Proof.
  cbn zeta. unfold Game.run. cbn [fold_left].
  pose proof (escape_down_frames ts
                (Game.deliver (Game.start t0 t1) (Game.KeyDown "Escape")))
    as H.
  unfold Game.run in H. cbn zeta in H.
  destruct H as (_ & H2 & H3); [ repeat split | ].
  split; [ exact H2 | exact H3 ].
Qed.

(** The frame on which Escape is first seen down and the next ten frames,
    16 ms apart. *)
Example escape_held_eleven_frames :
  let ss := Game.run (Game.start 0 0)
              (Game.KeyDown "Escape"
               :: map Game.AnimationFrame
                      [16; 32; 48; 64; 80; 96; 112; 128; 144; 160; 176]) in
  Game.pauseToggles (Game.trace ss) = 11%nat
  /\ Game.paused (Game.state ss) = true.
Proof. vm_compute. split; reflexivity. Qed.

(** When every press is seen by one frame only, the same code does toggle
    once per press: pressed, released, pressed again brings the loop back
    to running. *)
Example escape_tapped_twice :
  let ss := Game.run (Game.start 0 0)
              [Game.KeyDown "Escape"; Game.AnimationFrame 16;
               Game.KeyUp "Escape"; Game.AnimationFrame 32;
               Game.AnimationFrame 48;
               Game.KeyDown "Escape"; Game.AnimationFrame 64] in
  Game.pauseToggles (Game.trace ss) = 2%nat
  /\ Game.paused (Game.state ss) = false.
Proof. vm_compute. split; reflexivity. Qed.

(** ** The key set of InputManager *)

Lemma has_set_add (k k' : string) (s : list string) :
  InputManager.has k (InputManager.set_add k' s)
  = InputManager.has k s || (k' =? k)%string.
Proof.
  unfold InputManager.set_add, InputManager.has.
  destruct (existsb (String.eqb k') s) eqn:Hin.
  - destruct (String.eqb_spec k' k) as [-> | Hne].
    + rewrite Hin. reflexivity.
    + now rewrite orb_false_r.
  - rewrite existsb_app. cbn [existsb]. rewrite orb_false_r.
    now rewrite (String.eqb_sym k k').
Qed.

Lemma has_set_delete (k k' : string) (s : list string) :
  InputManager.has k (InputManager.set_delete k' s)
  = InputManager.has k s && negb (k' =? k)%string.
Proof.
  unfold InputManager.set_delete, InputManager.has.
  induction s as [ | a s IH]; [ reflexivity | ].
  cbn [filter existsb].
  destruct (String.eqb_spec k' a) as [-> | Hne]; cbn [negb].
  - rewrite IH. rewrite (String.eqb_sym k a).
    now destruct (String.eqb a k), (existsb (String.eqb k) s).
  - cbn [existsb]. rewrite IH.
    destruct (String.eqb_spec k a) as [-> | Hne']; cbn [orb].
    + destruct (String.eqb_spec k' a) as [E | _]; [ contradiction | ].
      reflexivity.
    + reflexivity.
Qed.

Lemma isKeyPressed_onKeyDown (im : InputManager.t) (key k : string) :
  InputManager.type im = keyboard ->
  InputManager.isKeyPressed (InputManager.onKeyDown im key) k
  = InputManager.isKeyPressed im k
    || (toLowerCase key =? toLowerCase k)%string.
Proof.
  intros Ht. unfold InputManager.isKeyPressed, InputManager.onKeyDown.
  rewrite Ht. cbn [InputManager.keys]. apply has_set_add.
Qed.

Lemma isKeyPressed_onKeyUp (im : InputManager.t) (key k : string) :
  InputManager.type im = keyboard ->
  InputManager.isKeyPressed (InputManager.onKeyUp im key) k
  = InputManager.isKeyPressed im k
    && negb (toLowerCase key =? toLowerCase k)%string.
Proof.
  intros Ht. unfold InputManager.isKeyPressed, InputManager.onKeyUp.
  rewrite Ht. cbn [InputManager.keys]. apply has_set_delete.
Qed.

Lemma key_listener_type (im : InputManager.t) (e : KeyEvent) :
  InputManager.type (key_listener im e) = InputManager.type im.
Proof.
  destruct e; cbn [key_listener];
    unfold InputManager.onKeyDown, InputManager.onKeyUp;
    now destruct (InputManager.type im) eqn:E.
Qed.

Lemma key_listener_mouse (im : InputManager.t) (e : KeyEvent) :
  InputManager.type im = mouse -> key_listener im e = im.
Proof.
  intros Ht. destruct e; cbn [key_listener];
    unfold InputManager.onKeyDown, InputManager.onKeyUp; now rewrite Ht.
Qed.

(** X1.  The key set follows the keyboard.  After any sequence of key events,
    a keyboard [InputManager] reports a key as pressed exactly when the
    last event about that key, upper or lower case, was a [keydown]: a key
    stays held until it is released, however many other keys come and go.
    An [InputManager] of type 'mouse' reports what it reported before. *)
Theorem key_set_follows_keyboard
        (es : list KeyEvent) (im : InputManager.t) (k : string) :
  InputManager.isKeyPressed (fold_left key_listener es im) k
  = match InputManager.type im with
    | keyboard => last_key_down k (InputManager.isKeyPressed im k) es
    | mouse => InputManager.isKeyPressed im k
    end.
Proof.
  revert im. induction es as [ | e es IH]; intros im.
  - cbn. now destruct (InputManager.type im).
  - cbn [fold_left]. rewrite IH, key_listener_type.
    destruct (InputManager.type im) eqn:Ht.
    + destruct e as [key | key]; cbn [key_listener last_key_down].
      * rewrite (isKeyPressed_onKeyDown _ _ _ Ht).
        now destruct (toLowerCase key =? toLowerCase k)%string,
                     (InputManager.isKeyPressed im k).
      * rewrite (isKeyPressed_onKeyUp _ _ _ Ht).
        now destruct (toLowerCase key =? toLowerCase k)%string,
                     (InputManager.isKeyPressed im k).
    + now rewrite (key_listener_mouse _ _ Ht).
Qed.

(** ** The movement flags of part_001 *)

Lemma lower_ascii_wasd (a : ascii) :
  (lower_ascii a =? "w")%char = ((a =? "w") || (a =? "W"))%char
  /\ (lower_ascii a =? "a")%char = ((a =? "a") || (a =? "A"))%char
  /\ (lower_ascii a =? "s")%char = ((a =? "s") || (a =? "S"))%char
  /\ (lower_ascii a =? "d")%char = ((a =? "d") || (a =? "D"))%char.
Proof. destruct a as [[] [] [] [] [] [] [] []]; repeat split; reflexivity. Qed.

Lemma toLowerCase_letter (k : string) (l u : ascii) :
  (forall a, (lower_ascii a =? l)%char = ((a =? l) || (a =? u))%char) ->
  (toLowerCase k =? String l "")%string
  = ((k =? String l "") || (k =? String u ""))%string.
Proof.
  intros H. destruct k as [ | a rest]; [ reflexivity | ].
  cbn [toLowerCase String.eqb]. rewrite H.
  destruct rest; cbn [toLowerCase String.eqb];
    now destruct (a =? l)%char, (a =? u)%char.
Qed.

(** The [switch] of the listeners, read on the lower-cased key. *)
Lemma keyDirection_lower (key : string) :
  keyDirection key
  = if (toLowerCase key =? "w")%string then Some Up
    else if (toLowerCase key =? "a")%string then Some Left
    else if (toLowerCase key =? "s")%string then Some Down
    else if (toLowerCase key =? "d")%string then Some Right
    else None.
Proof.
  unfold keyDirection.
  rewrite !(toLowerCase_letter key "w" "W"),
          !(toLowerCase_letter key "a" "A"),
          !(toLowerCase_letter key "s" "S"),
          !(toLowerCase_letter key "d" "D");
    try (intros a; apply (lower_ascii_wasd a)).
  reflexivity.
Qed.

Lemma listen_flags_agree (s : Part001.State) (im : InputManager.t)
                         (e : KeyEvent) :
  InputManager.type im = keyboard ->
  flags_agree s im ->
  flags_agree (fst (Part001.listen s e)) (key_listener im e).
Proof.
  intros Ht (Hu & Hl & Hd & Hr). unfold flags_agree.
  destruct e as [key | key];
    cbn [Part001.listen key_listener];
    unfold Part001.onKeyDown, Part001.onKeyUp;
    rewrite ?(isKeyPressed_onKeyDown _ _ _ Ht),
            ?(isKeyPressed_onKeyUp _ _ _ Ht), keyDirection_lower;
    change (toLowerCase "w") with "w"%string;
    change (toLowerCase "a") with "a"%string;
    change (toLowerCase "s") with "s"%string;
    change (toLowerCase "d") with "d"%string;
    repeat match goal with
           | |- context [(toLowerCase key =? ?c)%string] =>
               destruct (String.eqb_spec (toLowerCase key) c)
           end;
    try congruence;
    cbn [fst Part001.setFlag Part001.moveUp Part001.moveDown
         Part001.moveLeft Part001.moveRight];
    rewrite ?orb_true_r, ?orb_false_r, ?andb_true_r, ?andb_false_r;
    auto.
Qed.

Lemma listen_keeps_loop_state (s : Part001.State) (e : KeyEvent) :
  let s' := fst (Part001.listen s e) in
  Part001.GAMERUN s' = Part001.GAMERUN s
  /\ Part001.player1 s' = Part001.player1 s
  /\ Part001.lastTime s' = Part001.lastTime s
  /\ Part001.lastFPS s' = Part001.lastFPS s
  /\ Part001.frameCount s' = Part001.frameCount s.
Proof.
  destruct e as [key | key]; cbn [Part001.listen];
    unfold Part001.onKeyDown, Part001.onKeyUp;
    destruct (keyDirection key) as [[ | | | ] | ];
    repeat split; reflexivity.
Qed.

Lemma flags_after_agree (es : list KeyEvent) :
  forall s im,
  InputManager.type im = keyboard ->
  flags_agree s im ->
  flags_agree (flags_after es s) (fold_left key_listener es im).
Proof.
  induction es as [ | e es IH]; intros s im Ht H; [ exact H | ].
  cbn [flags_after fold_left]. apply IH.
  - now rewrite key_listener_type.
  - now apply listen_flags_agree.
Qed.

Lemma flags_after_keeps (es : list KeyEvent) :
  forall s,
  Part001.player1 (flags_after es s) = Part001.player1 s
  /\ Part001.GAMERUN (flags_after es s) = Part001.GAMERUN s.
Proof.
  induction es as [ | e es IH]; intros s; [ split; reflexivity | ].
  cbn [flags_after fold_left].
  destruct (listen_keeps_loop_state s e) as (Hg & Hp & _).
  destruct (IH (fst (Part001.listen s e))) as [IHp IHg].
  unfold flags_after in IHp, IHg. now rewrite IHp, IHg.
Qed.

(** X2.  The two ways of tracking the keyboard agree.  After the same sequence
    of key events, started from the states the start-up code builds, the
    four flags of part_001 are what the [InputManager] of game.ts answers
    for "w", "a", "s" and "d"; and the listeners of part_001 assign nothing
    but the flags. *)
Theorem flags_follow_key_set (es : list KeyEvent) (t0 t1 : float) :
  let s := flags_after es (Part001.initial t0 t1) in
  let im := fold_left key_listener es (InputManager.new keyboard) in
  Part001.moveUp s = InputManager.isKeyPressed im "w"
  /\ Part001.moveLeft s = InputManager.isKeyPressed im "a"
  /\ Part001.moveDown s = InputManager.isKeyPressed im "s"
  /\ Part001.moveRight s = InputManager.isKeyPressed im "d"
  /\ Part001.player1 s = initial_player
  /\ Part001.GAMERUN s = true.
Proof.
  cbn zeta.
  destruct (flags_after_agree es (Part001.initial t0 t1)
              (InputManager.new keyboard) eq_refl)
    as (Hu & Hl & Hd & Hr); [ repeat split | ].
  destruct (flags_after_keeps es (Part001.initial t0 t1)) as [Hp Hg].
  repeat split; assumption.
Qed.

(** ** The mouse fields of InputManager *)

Lemma is_nan_SF (a : float) :
  is_nan a = match Prim2SF a with S754_nan => true | _ => false end.
Proof.
  unfold is_nan. rewrite FloatAxioms.eqb_spec. unfold SFeqb.
  destruct (Prim2SF a) as [[ | ] | [ | ] | | [ | ] m e];
    cbn [SFcompare]; try reflexivity;
    now rewrite Z.compare_refl, Pos.compare_cont_refl.
Qed.

Lemma SFeqb_finite (s s' : bool) (m m' : positive) (e e' : Z) :
  SFeqb (S754_finite s m e) (S754_finite s' m' e') = true
  <-> S754_finite s m e = S754_finite s' m' e'.
Proof.
  unfold SFeqb. cbn [SFcompare].
  change (Pos.compare_cont Eq m m') with (m ?= m')%positive.
  destruct s, s'; try (split; [ discriminate | congruence ]);
    destruct (Z.compare_spec e e') as [-> | He | He];
    try (split; [ discriminate | intros [= ]; lia ]);
    destruct (Pos.compare_spec m m') as [-> | Hm | Hm]; cbn [CompOpp];
    split; try reflexivity; try discriminate; intros [= ]; lia.
Qed.

Lemma sameValueZero_iff (a b : float) :
  FullInputManager.sameValueZero a b = true <-> set_key a = set_key b.
Proof.
  unfold FullInputManager.sameValueZero, set_key.
  rewrite !is_nan_SF, FloatAxioms.eqb_spec.
  destruct (Prim2SF a) as [s | s | | s m e],
           (Prim2SF b) as [s' | s' | | s' m' e'];
    try (rewrite orb_false_r; apply SFeqb_finite);
    unfold SFeqb; cbn [SFcompare negb andb orb];
    try (split; [ discriminate | congruence ]);
    try (split; reflexivity);
    try (destruct s'; split; try discriminate; congruence);
    try (destruct s; split; try discriminate; congruence).
  destruct s, s'; split; try discriminate; try reflexivity; congruence.
Qed.

(** SameValueZero identifies two numbers exactly when they have the same
    representation up to the sign of zero. *)
Lemma sameValueZero_spec (a b : float) :
  reflect (set_key a = set_key b) (FullInputManager.sameValueZero a b).
Proof. apply iff_reflect. symmetry. apply sameValueZero_iff. Qed.

Lemma sameValueZero_sym (a b : float) :
  FullInputManager.sameValueZero a b = FullInputManager.sameValueZero b a.
Proof.
  destruct (sameValueZero_spec a b), (sameValueZero_spec b a);
    congruence.
Qed.

Lemma has_button_set_add (b b' : float) (s : list float) :
  FullInputManager.has b (FullInputManager.set_add b' s)
  = FullInputManager.has b s || FullInputManager.sameValueZero b' b.
Proof.
  unfold FullInputManager.set_add, FullInputManager.has.
  destruct (existsb (FullInputManager.sameValueZero b') s) eqn:Hin.
  - destruct (sameValueZero_spec b' b) as [E | _];
      [ | now rewrite orb_false_r ].
    rewrite orb_true_r. apply existsb_exists in Hin as (x & Hx & Hbx).
    apply existsb_exists. exists x. split; [ assumption | ].
    destruct (sameValueZero_spec b' x), (sameValueZero_spec b x);
      congruence.
  - rewrite existsb_app. cbn [existsb]. rewrite orb_false_r.
    now rewrite (sameValueZero_sym b b').
Qed.

Lemma has_button_set_delete (b b' : float) (s : list float) :
  FullInputManager.has b (FullInputManager.set_delete b' s)
  = FullInputManager.has b s && negb (FullInputManager.sameValueZero b' b).
Proof.
  unfold FullInputManager.set_delete, FullInputManager.has.
  induction s as [ | x s IH]; [ reflexivity | ].
  cbn [filter existsb].
  destruct (sameValueZero_spec b' x) as [E1 | E1]; cbn [negb existsb];
    rewrite IH;
    destruct (sameValueZero_spec b x) as [E2 | E2],
             (sameValueZero_spec b' b) as [E3 | E3];
    cbn [negb orb andb]; try congruence;
    try reflexivity; now rewrite ?andb_false_r, ?andb_true_r.
Qed.

Lemma handle_type (this : FullInputManager.t)
                  (e : FullInputManager.DomEvent) :
  FullInputManager.type (FullInputManager.handle this e)
  = FullInputManager.type this.
Proof.
  destruct e as [[key | key] | b | b | x y]; cbn [FullInputManager.handle];
    unfold FullInputManager.onMouseDown, FullInputManager.onMouseUp,
           FullInputManager.onMouseMove;
    try (now destruct (FullInputManager.type this) eqn:E);
    unfold FullInputManager.type, FullInputManager.onKeyDown,
           FullInputManager.onKeyUp;
    cbn [FullInputManager.keyboard_fields];
    [ apply (key_listener_type _ (keydown key))
    | apply (key_listener_type _ (keyup key)) ].
Qed.

(** The guards of the listeners make the registration redundant: an event
    that the constructor registered no listener for would have been
    ignored by its listener. *)
Lemma dispatch_handle (this : FullInputManager.t)
                      (e : FullInputManager.DomEvent) :
  FullInputManager.dispatch this e = FullInputManager.handle this e.
Proof.
  unfold FullInputManager.dispatch, FullInputManager.registered.
  destruct (FullInputManager.type this) eqn:Ht;
    destruct e as [[key | key] | b | b | x y];
    try reflexivity; cbn [FullInputManager.handle];
    unfold FullInputManager.onMouseDown, FullInputManager.onMouseUp,
           FullInputManager.onMouseMove,
           FullInputManager.onKeyDown, FullInputManager.onKeyUp;
    rewrite ?Ht; try reflexivity;
    unfold FullInputManager.type in Ht;
    unfold InputManager.onKeyDown, InputManager.onKeyUp; rewrite Ht;
    now destruct this.
Qed.

Lemma handle_keyboard_fields (es : list FullInputManager.DomEvent) :
  forall this,
  FullInputManager.keyboard_fields (fold_left FullInputManager.handle es this)
  = fold_left key_listener (key_events es)
              (FullInputManager.keyboard_fields this).
Proof.
  induction es as [ | e es IH]; intros this; [ reflexivity | ].
  cbn [fold_left key_events flat_map]. rewrite IH.
  destruct e as [[key | key] | b | b | x y];
    cbn [FullInputManager.handle app fold_left key_listener];
    try reflexivity;
    unfold FullInputManager.onMouseDown, FullInputManager.onMouseUp,
           FullInputManager.onMouseMove;
    now destruct (FullInputManager.type this).
Qed.

Lemma handle_mouse_fields (es : list FullInputManager.DomEvent) :
  forall this,
  let this' := fold_left FullInputManager.handle es this in
  match FullInputManager.type this with
  | mouse =>
      (forall b,
         FullInputManager.isMouseButtonPressed this' b
         = last_button_down b (FullInputManager.isMouseButtonPressed this b)
                            es)
      /\ FullInputManager.getMousePosition this'
         = last_mouse_move (FullInputManager.getMousePosition this) es
  | keyboard =>
      FullInputManager.mouseButtons this'
      = FullInputManager.mouseButtons this
      /\ FullInputManager.mousePosition this'
         = FullInputManager.mousePosition this
  end.
Proof.
  induction es as [ | e es IH]; intros this; cbn zeta.
  - destruct (FullInputManager.type this); split; reflexivity.
  - cbn [fold_left]. specialize (IH (FullInputManager.handle this e)).
    cbn zeta in IH. rewrite handle_type in IH.
    destruct (FullInputManager.type this) eqn:Ht.
    + destruct IH as [IH1 IH2]. rewrite IH1, IH2.
      destruct e as [[key | key] | b | b | x y];
        cbn [FullInputManager.handle];
        unfold FullInputManager.onMouseDown, FullInputManager.onMouseUp,
               FullInputManager.onMouseMove; rewrite ?Ht;
        split; reflexivity.
    + destruct IH as [IH1 IH2]. split.
      * intros b. rewrite IH1.
        destruct e as [[key | key] | b' | b' | x y];
          cbn [FullInputManager.handle last_button_down];
          try reflexivity;
          unfold FullInputManager.onMouseDown, FullInputManager.onMouseUp,
                 FullInputManager.onMouseMove,
                 FullInputManager.isMouseButtonPressed; rewrite Ht;
          cbn [FullInputManager.mouseButtons];
          rewrite ?has_button_set_add, ?has_button_set_delete;
          try reflexivity;
          now destruct (FullInputManager.sameValueZero b' b),
                       (FullInputManager.has b _).
      * rewrite IH2.
        destruct e as [[key | key] | b' | b' | x y];
          cbn [FullInputManager.handle last_mouse_move];
          try reflexivity;
          unfold FullInputManager.onMouseDown, FullInputManager.onMouseUp,
                 FullInputManager.onMouseMove,
                 FullInputManager.getMousePosition; rewrite Ht;
          reflexivity.
Qed.

(** X3.  The type of an [InputManager] decides what it ever records.  Whatever
    events its listeners are called with, a manager built for the keyboard
    reports no mouse button and the mouse position (0, 0), and a manager
    built for the mouse reports no key; and calling a listener directly
    does what delivering the event through the registration does. *)
Theorem input_manager_type_guard
        (es : list FullInputManager.DomEvent) :
  (let this := fold_left FullInputManager.handle es
                         (FullInputManager.new keyboard) in
   (forall b, FullInputManager.isMouseButtonPressed this b = false)
   /\ FullInputManager.getMousePosition this = Vector2.new 0 0)
  /\ (let this := fold_left FullInputManager.handle es
                            (FullInputManager.new mouse) in
      forall k, FullInputManager.isKeyPressed this k = false)
  /\ (forall this,
        fold_left FullInputManager.dispatch es this
        = fold_left FullInputManager.handle es this).
Proof.
  split; [ | split ].
  - pose proof (handle_mouse_fields es (FullInputManager.new keyboard))
      as [Hb Hp].
    cbn zeta. split.
    + intros b. unfold FullInputManager.isMouseButtonPressed.
      rewrite Hb. reflexivity.
    + unfold FullInputManager.getMousePosition. rewrite Hp. reflexivity.
  - cbn zeta. intros k. unfold FullInputManager.isKeyPressed.
    rewrite handle_keyboard_fields, key_set_follows_keyboard.
    reflexivity.
  - induction es as [ | e es IH]; intros this; [ reflexivity | ].
    cbn [fold_left]. now rewrite dispatch_handle, IH.
Qed.

(** X4.  A manager built for the mouse follows the mouse.  After any sequence
    of events it reports a button as pressed exactly when the last
    [mousedown] or [mouseup] about that button was a [mousedown], and its
    mouse position is that of the last [mousemove], or (0, 0) before the
    first one. *)
Theorem mouse_fields_follow_mouse
        (es : list FullInputManager.DomEvent) (b : float) :
  let this := fold_left FullInputManager.handle es
                        (FullInputManager.new mouse) in
  FullInputManager.isMouseButtonPressed this b = last_button_down b false es
  /\ FullInputManager.getMousePosition this
     = last_mouse_move (Vector2.new 0 0) es.
Proof.
  pose proof (handle_mouse_fields es (FullInputManager.new mouse))
    as [Hb Hp].
  cbn zeta. split; [ apply Hb | apply Hp ].
Qed.

(** ** Sessions of game.ts *)

Lemma Game_move_fields (p : Player.t) (d : Vector2.t) :
  Player.radius (Game.move p d) = Player.radius p
  /\ Player.color (Game.move p d) = Player.color p
  /\ Player.speed (Game.move p d) = Player.speed p.
Proof.
  unfold Game.move.
  repeat match goal with |- context [if ?c then _ else _] => destruct c end;
    repeat split; reflexivity.
Qed.

Lemma Game_move_no_neg_zero (p : Player.t) (d : Vector2.t) :
  no_neg_zero (Player.position p) = true ->
  no_neg_zero (Player.position (Game.move p d)) = true.
Proof.
  destruct (move_by_axis p d) as (-> & _). destruct p as [[px py] r c s].
  unfold candidate. cbn [Player.position Vector2.x Vector2.y].
  apply move_no_neg_zero.
Qed.

(** The shape of every tick of the running loop. *)
Lemma gameLoop_shape (currentTime : float) (s : Game.State) :
  Game.GAMERUN s = true ->
  let (s', out) := Game.gameLoop currentTime s in
  Game.GAMERUN s' = true
  /\ Game.inputManager s' = Game.inputManager s
  /\ Game.lastPausePressed s' = Game.lastPausePressed s
  /\ Game.paused s' = Game.pausedAfterCheck s
  /\ Game.requestsFrame out = true
  /\ Game.player1 s'
     = (if Game.pausedAfterCheck s then Game.player1 s
        else Game.move (Game.player1 s)
               (Game.readMovement (Game.inputManager s)
                  (Player.speed (Game.player1 s))
                  ((currentTime - Game.lastTime s) / 1000)))
  /\ Game.pauseToggles out
     = (if InputManager.isKeyPressed (Game.inputManager s) "Escape"
           && negb (Game.lastPausePressed s) then 1 else 0)%nat
  /\ redraws out = (if Game.pausedAfterCheck s then 0 else 1)%nat.
Proof.
  intros Hrun. unfold Game.gameLoop, Game.pausedAfterCheck.
  rewrite Hrun. cbn [negb].
  pose proof (sampleFPS_quiet currentTime (Game.lastFPS s)
                              (Game.frameCount s)) as Hq.
  assert (Hr : redraws (snd (sampleFPS currentTime (Game.lastFPS s)
                                       (Game.frameCount s))) = 0%nat).
  { unfold sampleFPS. now destruct (currentTime >? Game.lastFPS s + 1000). }
  destruct (sampleFPS _ _ _) as [[l c] fps]. cbn [snd] in Hq, Hr.
  destruct Hq as [Hq1 Hq2].
  destruct (InputManager.isKeyPressed _ _ && negb _);
    destruct (Game.paused s); cbn [negb];
    cbn [Game.GAMERUN Game.inputManager Game.lastPausePressed Game.paused
         Game.player1];
    repeat split; try reflexivity;
    unfold Game.requestsFrame, redraws in *;
    rewrite ?pauseToggles_app, ?existsb_app, ?filter_app, ?length_app,
            ?Hq1, ?Hq2, ?Hr; reflexivity.
Qed.

Lemma deliver_invariant (ss : Game.Session) (e : Game.Event) :
  session_invariant ss -> session_invariant (Game.deliver ss e).
Proof.
  intros (Hrun & Hpend & Hty & Hlast & Hr & Hc & Hs & Hg & Hz).
  destruct e as [key | key | t]; cbn [Game.deliver].
  - unfold session_invariant.
    cbn [Game.state Game.pending Game.withInput Game.GAMERUN Game.player1
         Game.inputManager Game.lastPausePressed].
    pose proof (key_listener_type (Game.inputManager (Game.state ss))
                  (keydown key)) as Hty'.
    cbn [key_listener] in Hty'. rewrite Hty'. repeat split; assumption.
  - unfold session_invariant.
    cbn [Game.state Game.pending Game.withInput Game.GAMERUN Game.player1
         Game.inputManager Game.lastPausePressed].
    pose proof (key_listener_type (Game.inputManager (Game.state ss))
                  (keyup key)) as Hty'.
    cbn [key_listener] in Hty'. rewrite Hty'. repeat split; assumption.
  - rewrite Hpend. pose proof (gameLoop_shape t _ Hrun) as H.
    destruct (Game.gameLoop t (Game.state ss)) as [s' out].
    destruct H as (Hrun' & Him & Hlast' & _ & Hreq & Hp & _).
    unfold session_invariant. cbn [Game.state Game.pending].
    rewrite Him, Hlast', Hp.
    destruct (Game.pausedAfterCheck (Game.state ss));
      [ repeat split; assumption | ].
    destruct (Game_move_fields (Game.player1 (Game.state ss))
                (Game.readMovement (Game.inputManager (Game.state ss))
                   (Player.speed (Game.player1 (Game.state ss)))
                   ((t - Game.lastTime (Game.state ss)) / 1000)))
      as (-> & -> & ->).
    repeat split; try assumption.
    + now apply Game_move_in_grid.
    + now apply Game_move_no_neg_zero.
Qed.

Lemma run_invariant (es : list Game.Event) :
  forall ss, session_invariant ss -> session_invariant (Game.run ss es).
Proof.
  induction es as [ | e es IH]; intros ss H; [ exact H | ].
  apply IH, deliver_invariant, H.
Qed.

(** X5.  The loop of game.ts never stops and never loses its player.  After
    any sequence of key events and animation frames, at any times
    whatever, the loop is running and has a frame requested, and the
    player has its radius, colour and speed of the start and a position
    inside the grid. *)
Theorem game_session_keeps_running (t0 t1 : float) (es : list Game.Event) :
  let ss := Game.run (Game.start t0 t1) es in
  let p := Game.player1 (Game.state ss) in
  Game.GAMERUN (Game.state ss) = true
  /\ Game.pending ss = true
  /\ Player.radius p = 0.2
  /\ Player.color p = "lightgreen"%string
  /\ Player.speed p = 0.05
  /\ in_grid Game.GRID_COLS Game.GRID_ROWS p = true.
Proof.
  cbn zeta.
  destruct (run_invariant es (Game.start t0 t1))
    as (H1 & H2 & _ & _ & H5 & H6 & H7 & H8 & _);
    [ repeat split | ].
  repeat split; assumption.
Qed.

Lemma deliver_key_pressed (ss : Game.Session) (e : Game.Event) (k : string) :
  session_invariant ss ->
  let pressed ss :=
    InputManager.isKeyPressed (Game.inputManager (Game.state ss)) k in
  pressed (Game.deliver ss e)
  = match e with
    | Game.KeyDown key =>
        pressed ss || (toLowerCase key =? toLowerCase k)%string
    | Game.KeyUp key =>
        pressed ss && negb (toLowerCase key =? toLowerCase k)%string
    | Game.AnimationFrame _ => pressed ss
    end.
Proof.
  intros (Hrun & Hpend & Hty & _). cbn zeta.
  destruct e as [key | key | t]; cbn [Game.deliver].
  - cbn [Game.state Game.withInput Game.inputManager].
    now apply isKeyPressed_onKeyDown.
  - cbn [Game.state Game.withInput Game.inputManager].
    now apply isKeyPressed_onKeyUp.
  - rewrite Hpend. pose proof (gameLoop_shape t _ Hrun) as H.
    destruct (Game.gameLoop t (Game.state ss)) as [s' out].
    destruct H as (_ & Him & _). cbn [Game.state]. now rewrite Him.
Qed.

Lemma run_without_escape (es : list Game.Event) :
  forall ss,
  session_invariant ss ->
  InputManager.isKeyPressed (Game.inputManager (Game.state ss)) "Escape"
  = false ->
  Game.paused (Game.state ss) = false ->
  never_pressed ["escape"%string] es = true ->
  let ss' := Game.run ss es in
  Game.paused (Game.state ss') = false
  /\ Game.pauseToggles (Game.trace ss') = Game.pauseToggles (Game.trace ss)
  /\ redraws (Game.trace ss') = (redraws (Game.trace ss) + frames es)%nat.
Proof.
  induction es as [ | e es IH]; intros ss Hinv Hesc Hp Hes; cbn zeta.
  - cbn. repeat split; [ assumption | now rewrite Nat.add_0_r ].
  - cbn [never_pressed forallb] in Hes.
    apply andb_true_iff in Hes as [He Hes].
    pose proof (deliver_invariant ss e Hinv) as Hinv'.
    pose proof (deliver_key_pressed ss e "Escape" Hinv) as Hk.
    cbv beta zeta in Hk.
    change (toLowerCase "Escape") with "escape"%string in Hk.
    rewrite Hesc in Hk.
    cbn [Game.run fold_left].
    specialize (IH (Game.deliver ss e) Hinv').
    unfold Game.run in IH. cbn zeta in IH.
    destruct e as [key | key | t].
    + cbn [existsb] in He. rewrite orb_false_r in He.
      apply negb_true_iff in He. rewrite He in Hk.
      destruct IH as (IH1 & IH2 & IH3); try assumption.
      repeat split; assumption.
    + destruct IH as (IH1 & IH2 & IH3); try assumption.
      repeat split; assumption.
    + destruct Hinv as (Hrun & Hpend & _).
      cbn [Game.deliver] in IH, Hk |- *. rewrite Hpend in IH, Hk |- *.
      pose proof (gameLoop_shape t _ Hrun) as H.
      destruct (Game.gameLoop t (Game.state ss)) as [s' out].
      destruct H as (_ & _ & _ & Hpaused & _ & _ & Htog & Hred).
      unfold Game.pausedAfterCheck in Hpaused, Hred.
      rewrite Hesc in Hpaused, Htog, Hred. cbn [andb] in *.
      rewrite Hp in Hpaused, Hred.
      cbn [Game.state Game.trace] in IH, Hk.
      destruct IH as (IH1 & IH2 & IH3); try assumption.
      repeat split; try assumption.
      * rewrite IH2, pauseToggles_app, Htog. lia.
      * rewrite IH3. unfold redraws at 1. rewrite filter_app, length_app.
        fold (redraws (Game.trace ss)). fold (redraws out). rewrite Hred.
        cbn [frames filter List.length]. unfold frames. lia.
Qed.

(** X6.  Pausing takes the Escape key.  In a session with no [keydown] of
    Escape, the game is never paused, no pause or resume is logged, and
    every animation frame redraws the objects layer once. *)
Theorem without_escape_never_paused (t0 t1 : float) (es : list Game.Event) :
  never_pressed ["escape"%string] es = true ->
  let ss := Game.run (Game.start t0 t1) es in
  Game.paused (Game.state ss) = false
  /\ Game.pauseToggles (Game.trace ss) = 0%nat
  /\ redraws (Game.trace ss) = frames es.
Proof.
  intros Hes.
  apply (run_without_escape es (Game.start t0 t1)); try assumption;
    try reflexivity.
  repeat split.
Qed.

Lemma without_escape_never_paused_witness :
  let ss := Game.run (Game.start 0 0)
              [Game.KeyDown "d"; Game.AnimationFrame 16;
               Game.AnimationFrame 32; Game.KeyUp "d";
               Game.AnimationFrame 48] in
  Game.paused (Game.state ss) = false
  /\ Game.pauseToggles (Game.trace ss) = 0%nat
  /\ redraws (Game.trace ss) = 3%nat.
Proof.
  apply (without_escape_never_paused 0 0
           [Game.KeyDown "d"; Game.AnimationFrame 16;
            Game.AnimationFrame 32; Game.KeyUp "d";
            Game.AnimationFrame 48]).
  reflexivity.
Defined.

(** With none of "w", "s", "a", "d" held, game.ts passes the zero vector
    to [move], whatever else is held and whatever [dt] is. *)
Lemma readMovement_no_key (im : InputManager.t) (speed dt : float) :
  InputManager.isKeyPressed im "w" = false ->
  InputManager.isKeyPressed im "s" = false ->
  InputManager.isKeyPressed im "a" = false ->
  InputManager.isKeyPressed im "d" = false ->
  Game.readMovement im speed dt = Vector2.new 0 0.
Proof.
  intros Hw Hs Ha Hd. unfold Game.readMovement.
  rewrite Hw, Hs, Ha, Hd. reflexivity.
Qed.

Lemma run_without_wasd (es : list Game.Event) :
  forall ss,
  session_invariant ss ->
  (forall k, In k ["w"; "s"; "a"; "d"]%string ->
     InputManager.isKeyPressed (Game.inputManager (Game.state ss)) k
     = false) ->
  never_pressed ["w"; "s"; "a"; "d"]%string es = true ->
  Player.position (Game.player1 (Game.state (Game.run ss es)))
  = Player.position (Game.player1 (Game.state ss)).
Proof.
  induction es as [ | e es IH]; intros ss Hinv Hnone Hes; [ reflexivity | ].
  cbn [never_pressed forallb] in Hes.
  apply andb_true_iff in Hes as [He Hes].
  pose proof (deliver_invariant ss e Hinv) as Hinv'.
  cbn [Game.run fold_left].
  specialize (IH (Game.deliver ss e) Hinv').
  unfold Game.run in IH. rewrite IH; try assumption.
  - destruct e as [key | key | t]; try reflexivity.
    destruct Hinv as (Hrun & Hpend & _ & _ & _ & _ & _ & _ & Hz).
    cbn [Game.deliver]. rewrite Hpend.
    pose proof (gameLoop_shape t _ Hrun) as H.
    destruct (Game.gameLoop t (Game.state ss)) as [s' out].
    destruct H as (_ & _ & _ & _ & _ & Hp & _).
    cbn [Game.state]. rewrite Hp.
    destruct (Game.pausedAfterCheck (Game.state ss)); [ reflexivity | ].
    rewrite readMovement_no_key; try (apply Hnone; cbn; tauto).
    now apply Game_move_zero.
  - intros k Hk. pose proof (deliver_key_pressed ss e k Hinv) as Hd.
    cbv beta zeta in Hd. rewrite Hd, (Hnone k Hk).
    destruct e as [key | key | t]; try reflexivity.
    cbn [orb]. apply negb_true_iff in He.
    cbn [existsb] in He. rewrite orb_false_r in He.
    cbn [In] in Hk.
    destruct Hk as [<- | [<- | [<- | [<- | []]]]];
      [ change (toLowerCase "w") with "w"%string
      | change (toLowerCase "s") with "s"%string
      | change (toLowerCase "a") with "a"%string
      | change (toLowerCase "d") with "d"%string ];
      repeat (apply orb_false_iff in He as [? He]); assumption.
Qed.

(** X7.  In game.ts only W, A, S and D move the player.  In a session in
    which none of these four keys goes down, whatever other keys are used
    (the arrow keys that part_000 accepts, Escape, ...), the player stays
    at (0.5, 0.5), however many frames are delivered. *)
Theorem only_wasd_moves_the_player (t0 t1 : float) (es : list Game.Event) :
  never_pressed ["w"; "s"; "a"; "d"]%string es = true ->
  Player.position (Game.player1 (Game.state (Game.run (Game.start t0 t1) es)))
  = Vector2.new 0.5 0.5.
Proof.
  intros Hes. rewrite (run_without_wasd es (Game.start t0 t1)).
  - reflexivity.
  - repeat split.
  - intros k _. reflexivity.
  - assumption.
Qed.

Lemma only_wasd_moves_the_player_witness :
  Player.position
    (Game.player1
       (Game.state
          (Game.run (Game.start 0 0)
             [Game.KeyDown "ArrowRight"; Game.AnimationFrame 16;
              Game.KeyDown "ArrowDown"; Game.AnimationFrame 32;
              Game.KeyUp "ArrowRight"; Game.AnimationFrame 48])))
  = Vector2.new 0.5 0.5.
Proof.
  apply (only_wasd_moves_the_player 0 0
           [Game.KeyDown "ArrowRight"; Game.AnimationFrame 16;
            Game.KeyDown "ArrowDown"; Game.AnimationFrame 32;
            Game.KeyUp "ArrowRight"; Game.AnimationFrame 48]).
  reflexivity.
Defined.

Lemma run_escape_frames (es : list Game.Event) :
  forall ss,
  session_invariant ss ->
  let held :=
    InputManager.isKeyPressed (Game.inputManager (Game.state ss)) "Escape" in
  let ss' := Game.run ss es in
  Game.pauseToggles (Game.trace ss')
  = (Game.pauseToggles (Game.trace ss) + escape_frames held es)%nat
  /\ Game.paused (Game.state ss')
     = xorb (Game.paused (Game.state ss)) (Nat.odd (escape_frames held es)).
Proof.
  induction es as [ | e es IH]; intros ss Hinv; cbn zeta.
  - cbn. now rewrite Nat.add_0_r, xorb_false_r.
  - pose proof (deliver_invariant ss e Hinv) as Hinv'.
    pose proof (deliver_key_pressed ss e "Escape" Hinv) as Hk.
    cbv beta zeta in Hk.
    change (toLowerCase "Escape") with "escape"%string in Hk.
    cbn [Game.run fold_left].
    specialize (IH (Game.deliver ss e) Hinv').
    unfold Game.run in IH. cbn zeta in IH. rewrite Hk in IH.
    destruct IH as [IH1 IH2]. rewrite IH1, IH2.
    destruct e as [key | key | t]; cbn [escape_frames Game.deliver];
      try (split; reflexivity).
    destruct Hinv as (Hrun & Hpend & _ & Hlast & _). rewrite Hpend.
    pose proof (gameLoop_shape t _ Hrun) as H.
    destruct (Game.gameLoop t (Game.state ss)) as [s' out].
    destruct H as (_ & _ & _ & Hpaused & _ & _ & Htog & _).
    unfold Game.pausedAfterCheck in Hpaused.
    rewrite Hlast in Hpaused, Htog. cbn [negb] in Hpaused, Htog.
    rewrite andb_true_r in Hpaused, Htog.
    cbn [Game.state Game.trace]. rewrite pauseToggles_app, Htog, Hpaused.
    destruct (InputManager.isKeyPressed _ "Escape"); split; try lia.
    + rewrite Nat.add_1_l, Nat.odd_succ, <- Nat.negb_odd.
      now destruct (Game.paused (Game.state ss)), (Nat.odd (escape_frames true es)).
    + reflexivity.
Qed.

(** X8.  The pause key is read as a level, not as an edge.  In any session of
    game.ts, [paused] has flipped once for every animation frame that
    found Escape held: the number of pauses and resumes logged is the
    number of such frames, and the game is paused exactly when that
    number is odd.  How long the key is held decides how the press
    ends. *)
Theorem paused_flips_on_frames_with_escape (t0 t1 : float)
                                           (es : list Game.Event) :
  let ss := Game.run (Game.start t0 t1) es in
  Game.pauseToggles (Game.trace ss) = escape_frames false es
  /\ Game.paused (Game.state ss) = Nat.odd (escape_frames false es).
Proof.
  destruct (run_escape_frames es (Game.start t0 t1)) as [H1 H2];
    [ repeat split | ].
  cbn zeta. split; [ exact H1 | exact H2 ].
Qed.

(** ** More exact binary64 identities *)

Lemma SFmul_opp_opp (X D : spec_float) :
  SF64mul (SFopp X) (SFopp D) = SF64mul X D.
Proof.
  destruct X as [sx | sx | | sx mx ex], D as [sd | sd | | sd md ed];
    cbn [SFopp SF64mul SFmul]; try reflexivity;
    now destruct sx, sd.
Qed.

Lemma SFdiv_opp_l (X D : spec_float) :
  SF64div (SFopp X) D = SFopp (SF64div X D).
Proof.
  destruct X as [sx | sx | | sx mx ex], D as [sd | sd | | sd md ed];
    cbn [SFopp SF64div SFdiv]; try reflexivity;
    try (now destruct sx, sd).
  destruct (SFdiv_core_binary prec emax (Zpos mx) ex (Zpos md) ed)
    as [[mz ez] lz].
  rewrite <- binary_round_aux_opp. f_equal. now destruct sx, sd.
Qed.

Lemma SFsub_add_opp (X D : spec_float) :
  SF64sub X D = SF64add X (SFopp D).
Proof.
  destruct X as [sx | sx | | sx mx ex], D as [sd | sd | | sd md ed];
    cbn [SFopp SF64sub SFsub SF64add SFadd]; try reflexivity;
    now destruct sx, sd.
Qed.

Lemma mul_opp_opp (a b : float) : - a * - b = a * b.
Proof.
  apply FloatAxioms.Prim2SF_inj.
  rewrite !FloatAxioms.mul_spec, !FloatAxioms.opp_spec.
  apply SFmul_opp_opp.
Qed.

Lemma div_opp_l (a b : float) : - a / b = - (a / b).
Proof.
  apply FloatAxioms.Prim2SF_inj.
  rewrite FloatAxioms.div_spec, !FloatAxioms.opp_spec, FloatAxioms.div_spec.
  apply SFdiv_opp_l.
Qed.

(** [x + -s] is [x - s]. *)
Lemma add_opp_r (x s : float) : x + - s = x - s.
Proof.
  apply FloatAxioms.Prim2SF_inj.
  rewrite FloatAxioms.add_spec, FloatAxioms.sub_spec, FloatAxioms.opp_spec.
  symmetry. apply SFsub_add_opp.
Qed.

Lemma neg_one_mul (s : float) : -1 * s = - s.
Proof. change (-1) with (- (1)). now rewrite mul_opp_l, one_mul. Qed.

(** A number in the range of [step_in_range], its opposite and its
    square. *)
Lemma in_range_facts (a : float) :
  (0x1p-500 <=? a) && (a <=? 0x1p500) = true ->
  (a >? 0) = true /\ is_finite a = true
  /\ (- a !== 0) = true /\ 0 + - a = - a
  /\ (a * a >? 0) = true.
Proof.
  intros H. destruct (between_pow500_SF a H) as (m & e & E & Hm & He).
  unfold gtb, neqb, is_finite, is_nan, is_infinity.
  rewrite !FloatAxioms.eqb_spec, !FloatAxioms.ltb_spec,
          FloatAxioms.abs_spec, FloatAxioms.mul_spec,
          !FloatAxioms.opp_spec, E.
  change (Prim2SF 0) with (S754_zero false).
  repeat split; try reflexivity.
  - unfold SFeqb, SFabs, SFcompare.
    now rewrite Z.compare_refl, Pos.compare_cont_refl.
  - apply FloatAxioms.Prim2SF_inj.
    rewrite FloatAxioms.add_spec, FloatAxioms.opp_spec, E. reflexivity.
  - unfold SF64mul. cbn [SFmul xorb].
    destruct (mul_round m e Hm He) as (q & n & -> & _). reflexivity.
Qed.

(** The computed length of an axis-aligned vector in range is the length
    of its side, whichever the axis and the sign. *)
Lemma axis_lengths (a : float) :
  (0x1p-500 <=? a) && (a <=? 0x1p500) = true ->
  sqrt (0 * 0 + a * a) = a
  /\ sqrt (- a * - a + 0 * 0) = a
  /\ sqrt (0 * 0 + - a * - a) = a.
Proof.
  intros H. destruct (in_range_facts a H) as (_ & _ & _ & _ & Hsq).
  pose proof (sqrt_square a H) as Hlen.
  rewrite !mul_opp_opp. change (0 * 0) with 0 in *.
  rewrite (zero_add_pos _ Hsq).
  assert (Hz : a * a + 0 = a * a).
  { apply add_zero_r. unfold is_neg_zero.
    destruct (Leibniz.eqb (a * a) neg_zero) eqn:E; [ exfalso | reflexivity ].
    apply FloatAxioms.Leibniz.eqb_spec in E. rewrite E in Hsq.
    discriminate. }
  rewrite Hz in Hlen |- *. repeat split; assumption.
Qed.

(** ** One direction held *)

(** The raw movement of one held direction, for a step [a] in range: the
    four [movement.add] statements leave [a] or [-a] on one axis. *)
Lemma accumulate_only_value (d : Direction) (speed dt : float) :
  step_in_range speed dt = true ->
  accumulate_only d speed dt = axis_vector d (speed * dt).
Proof.
  unfold step_in_range. cbn zeta. intros H.
  destruct (in_range_facts _ H) as (Hpos & _ & _ & Hneg & _).
  destruct d; unfold accumulate_only; cbn [only axis_vector];
    unfold accumulate, Vector2.add;
    cbn [Vector2.x Vector2.y]; change (0 + 0) with 0;
    rewrite ?mul_opp_l, ?Hneg, ?(zero_add_pos _ Hpos); reflexivity.
Qed.

(** Both [normalize] methods turn that raw movement into the unit vector
    of the direction. *)
Lemma normalize_only (d : Direction) (a : float) :
  (0x1p-500 <=? a) && (a <=? 0x1p500) = true ->
  let raw := axis_vector d a in
  ((Vector2.x raw !== 0) || (Vector2.y raw !== 0)) = true
  /\ Vector2.normalize raw = (unit_vector d, raw)
  /\ Vector2.normalize_in_place raw = (unit_vector d, unit_vector d).
Proof.
  intros H. destruct (in_range_facts a H) as (Hpos & Hfin & Hnz & _ & _).
  destruct (axis_lengths a H) as (L1 & L2 & L3).
  pose proof (sqrt_square a H) as L0.
  pose proof (positive_neq_zero _ Hpos) as Hnz'.
  pose proof (div_self _ Hfin (gtb_zero_neq _ Hpos)) as Hdiv.
  pose proof (zero_div_pos _ Hpos) as Hzero.
  destruct d; cbn zeta; cbn [Vector2.x Vector2.y unit_vector axis_vector];
    unfold Vector2.normalize, Vector2.normalize_in_place;
    cbn [Vector2.x Vector2.y];
    rewrite ?L0, ?L1, ?L2, ?L3, Hpos, ?div_opp_l, ?Hdiv, ?Hzero,
            ?Hnz, ?Hnz', ?orb_true_r;
    repeat split; reflexivity.
Qed.

(** X9.  [normalize] is exact on the axes.  For a vector along one axis, of
    either sign, whose length [a] lies between 2^-500 and 2^500, the
    computed length is [a] itself and both versions of [normalize] return
    the unit vector of the axis, with no rounding error at all; the
    allocating version leaves its receiver alone and the in-place version
    overwrites it. *)
Theorem normalize_axis_aligned (d : Direction) (a : float) :
  (0x1p-500 <=? a) && (a <=? 0x1p500) = true ->
  let v := axis_vector d a in
  Vector2.magnitude v = a
  /\ Vector2.normalize v = (unit_vector d, v)
  /\ Vector2.normalize_in_place v = (unit_vector d, unit_vector d).
Proof.
  intros H. destruct (normalize_only d a H) as (_ & Hn & Hi).
  destruct (axis_lengths a H) as (L1 & L2 & L3).
  pose proof (sqrt_square a H) as L0.
  cbn zeta in *. split; [ | split; assumption ].
  unfold Vector2.magnitude.
  destruct d; cbn [Vector2.x Vector2.y axis_vector]; assumption.
Qed.

Lemma normalize_axis_aligned_witness :
  Vector2.magnitude (Vector2.new (- 0.0008) 0) = 0.0008
  /\ Vector2.normalize (Vector2.new (- 0.0008) 0)
     = (Vector2.new (-1) 0, Vector2.new (- 0.0008) 0)
  /\ Vector2.normalize_in_place (Vector2.new (- 0.0008) 0)
     = (Vector2.new (-1) 0, Vector2.new (-1) 0).
Proof.
  apply (normalize_axis_aligned Left 0.0008). reflexivity.
Defined.

(** What each version hands to [move] when the keys of [held] are down
    and the raw movement is a vector in range along the axis of [d]. *)
Lemma movement_of_raw (held d : Direction) (speed dt a : float) :
  (0x1p-500 <=? a) && (a <=? 0x1p500) = true ->
  accumulate_only held speed dt = axis_vector d a ->
  (forall im,
     (InputManager.isKeyPressed im "w", InputManager.isKeyPressed im "s",
      InputManager.isKeyPressed im "a", InputManager.isKeyPressed im "d")
     = only held ->
     fst (Vector2.normalize (Game.readMovement im speed dt))
     = unit_vector d)
  /\ (forall p im,
        Player.speed p = speed ->
        let pressed := InputManager.isKeyPressed im in
        ((pressed "w" || pressed "arrowup")%string,
         (pressed "s" || pressed "arrowdown")%string,
         (pressed "a" || pressed "arrowleft")%string,
         (pressed "d" || pressed "arrowright")%string) = only held ->
        Part000.handleInput p im dt = unit_vector d)
  /\ (forall s,
        Player.speed (Part001.player1 s) = speed ->
        (Part001.moveUp s, Part001.moveDown s,
         Part001.moveLeft s, Part001.moveRight s) = only held ->
        Part001.readMovement s dt = unit_vector d).
Proof.
  intros H Hacc. unfold accumulate_only in Hacc.
  destruct (normalize_only d a H) as (Hnz & Hn & Hi).
  cbn zeta in Hnz, Hn, Hi.
  repeat split.
  - intros im Hk. unfold Game.readMovement.
    destruct held; cbn [only] in Hacc, Hk; injection Hk as -> -> -> ->;
      rewrite Hacc, Hnz, Hn; cbn [snd]; now rewrite Hn.
  - intros p im Hp pressed Hk. unfold Part000.handleInput. fold pressed.
    rewrite Hp.
    destruct held; cbn [only] in Hacc, Hk; injection Hk as -> -> -> ->;
      now rewrite Hacc, Hnz, Hn.
  - intros s Hp Hk. unfold Part001.readMovement. rewrite Hp.
    destruct held; cbn [only] in Hacc, Hk; injection Hk as -> -> -> ->;
      now rewrite Hacc, Hnz, Hi.
Qed.

Lemma normalize_unit_vector (d : Direction) :
  Vector2.normalize (unit_vector d) = (unit_vector d, unit_vector d)
  /\ Vector2.normalize_in_place (unit_vector d)
     = (unit_vector d, unit_vector d).
Proof. destruct d; split; reflexivity. Qed.

Ltac unit_move Hx Hy Hg :=
  rewrite ?one_mul, ?neg_one_mul, ?add_opp_r;
  match goal with
  | |- context [?v + 0 * ?s] =>
      first [ destruct (zero_step v s Hx) as [E | E]; rewrite E
            | destruct (zero_step v s Hy) as [E | E]; rewrite E ]
  end;
  rewrite ?sub_nan_l, ?nan_geb_zero; cbn [andb];
  try rewrite Hg;
  repeat match goal with
         | |- context [if ?c then Player.set_x _ _ else _] => destruct c
         end;
  cbn [Player.set_x Player.set_y Player.position Player.radius
       Vector2.x Vector2.y];
  rewrite ?sub_nan_l, ?nan_geb_zero; cbn [andb];
  try rewrite Hg;
  repeat match goal with
         | |- context [if ?c then _ else _] => destruct c
         end;
  reflexivity.

Lemma Game_move_unit (d : Direction) (p : Player.t)
                     (v : Vector2.t) :
  fst (Vector2.normalize v) = unit_vector d ->
  no_neg_zero (Player.position p) = true ->
  let target := stepped d (Player.position p) (Player.speed p) in
  within (bound d Game.GRID_COLS Game.GRID_ROWS) (along d target) = true ->
  Player.position (Game.move p v) = target.
Proof.
  intros Hn Hz target Hg. subst target. unfold Game.move. rewrite Hn.
  destruct p as [[px py] r c s]. unfold no_neg_zero, within in *.
  apply andb_true_iff in Hz as [Hx Hy].
  apply negb_true_iff in Hx. apply negb_true_iff in Hy.
  destruct d;
    cbn [Player.position Player.speed Vector2.x Vector2.y unit_vector
         stepped along bound] in *;
    unit_move Hx Hy Hg.
Qed.

Lemma Part000_move_unit (d : Direction) (p : Player.t) :
  no_neg_zero (Player.position p) = true ->
  let target := stepped d (Player.position p) (Player.speed p) in
  within_radius (Player.radius p)
                (bound d Part000.GRID_COLS Part000.GRID_ROWS)
                (along d target) = true ->
  Player.position (Part000.move p (unit_vector d)) = target.
Proof.
  intros Hz target Hg. subst target. unfold Part000.move.
  rewrite (proj1 (normalize_unit_vector d)). cbn [fst].
  destruct p as [[px py] r c s]. unfold no_neg_zero, within_radius in *.
  apply andb_true_iff in Hz as [Hx Hy].
  apply negb_true_iff in Hx. apply negb_true_iff in Hy.
  destruct d;
    cbn [Player.position Player.speed Player.radius Vector2.x Vector2.y
         unit_vector stepped along bound] in *;
    unit_move Hx Hy Hg.
Qed.

Lemma Part001_move_unit (d : Direction) (p : Player.t) :
  no_neg_zero (Player.position p) = true ->
  let target := stepped d (Player.position p) (Player.speed p) in
  within (bound d Part001.GRID_COLS Part001.GRID_ROWS) (along d target)
  = true ->
  Player.position (fst (Part001.move p (unit_vector d))) = target.
Proof.
  intros Hz target Hg. subst target. unfold Part001.move.
  rewrite (proj2 (normalize_unit_vector d)).
  destruct p as [[px py] r c s]. unfold no_neg_zero, within in *.
  apply andb_true_iff in Hz as [Hx Hy].
  apply negb_true_iff in Hx. apply negb_true_iff in Hy.
  destruct d;
    cbn [Player.position Player.speed Vector2.x Vector2.y fst
         unit_vector stepped along bound] in *;
    unit_move Hx Hy Hg.
Qed.

(** X10.  One key, one step.  On a tick on which exactly one direction is held
    (in part_000 by its letter or its arrow key), for a step [speed * dt]
    in range and a position with no negative zero, the player moves by
    exactly [speed] in that direction whenever the new coordinate passes
    the bounds test of the version: up and left subtract [speed] from y
    and x, down and right add it, and the other coordinate keeps its
    value.  The length of the step does not depend on [dt]. *)
Theorem one_key_one_step (d : Direction) (p : Player.t)
                         (dt : float) :
  step_in_range (Player.speed p) dt = true ->
  no_neg_zero (Player.position p) = true ->
  let target := stepped d (Player.position p) (Player.speed p) in
  (forall im,
     (InputManager.isKeyPressed im "w", InputManager.isKeyPressed im "s",
      InputManager.isKeyPressed im "a", InputManager.isKeyPressed im "d")
     = only d ->
     within (bound d Game.GRID_COLS Game.GRID_ROWS) (along d target) = true ->
     Player.position
       (Game.move p (Game.readMovement im (Player.speed p) dt)) = target)
  /\ (forall im,
        let pressed := InputManager.isKeyPressed im in
        ((pressed "w" || pressed "arrowup")%string,
         (pressed "s" || pressed "arrowdown")%string,
         (pressed "a" || pressed "arrowleft")%string,
         (pressed "d" || pressed "arrowright")%string) = only d ->
        within_radius (Player.radius p)
                      (bound d Part000.GRID_COLS Part000.GRID_ROWS)
                      (along d target) = true ->
        Player.position (Part000.move p (Part000.handleInput p im dt))
        = target)
  /\ (forall s,
        Part001.player1 s = p ->
        (Part001.moveUp s, Part001.moveDown s,
         Part001.moveLeft s, Part001.moveRight s) = only d ->
        within (bound d Part001.GRID_COLS Part001.GRID_ROWS) (along d target)
        = true ->
        Player.position (fst (Part001.move p (Part001.readMovement s dt)))
        = target).
Proof.
  intros Hrange Hz target.
  destruct (movement_of_raw d d _ dt _ Hrange
              (accumulate_only_value d _ dt Hrange)) as (Hg & H0 & H1).
  repeat split.
  - intros im Hk Hb. now apply Game_move_unit; [ apply Hg | | ].
  - intros im pressed Hk Hb. rewrite (H0 p im eq_refl Hk).
    now apply Part000_move_unit.
  - intros s Hp Hk Hb. rewrite (H1 s); [ | now rewrite Hp | assumption ].
    now apply Part001_move_unit.
Qed.

Lemma one_key_one_step_witness :
  Player.position
    (Game.move initial_player
       (Game.readMovement (InputManager.mk keyboard ["a"%string])
                          0.05 0.016))
  = Vector2.new (0.5 - 0.05) 0.5
  /\ Player.position
       (Part000.move initial_player
          (Part000.handleInput initial_player
             (InputManager.mk keyboard ["arrowup"%string]) 0.016))
     = Vector2.new 0.5 (0.5 - 0.05).
Proof.
  split.
  - destruct (one_key_one_step Left initial_player 0.016)
      as (H & _); [ reflexivity | reflexivity | ].
    apply (H (InputManager.mk keyboard ["a"%string])); reflexivity.
  - destruct (one_key_one_step Up initial_player 0.016)
      as (_ & H & _); [ reflexivity | reflexivity | ].
    apply (H (InputManager.mk keyboard ["arrowup"%string])); reflexivity.
Defined.

(** ** Directions that cancel *)

Lemma accumulate_balanced (u l : bool) (speed dt : float) :
  (if u || l then is_finite (speed * dt) else true) = true ->
  accumulate u u l l speed dt = Vector2.new 0 0.
Proof.
  intros H. unfold accumulate, Vector2.add.
  destruct u, l; cbn [orb] in H; cbn [Vector2.x Vector2.y];
    rewrite ?mul_opp_l;
    repeat first [ progress change (0 + 0) with 0
                 | rewrite (add_opp_cancel _ H) ];
    reflexivity.
Qed.

(** X11.  Opposite directions cancel, on either axis or on both, and no key is
    no movement.  On a tick on which up is held exactly when down is, and
    left exactly when right is, the raw movement is (0, 0) (for a finite
    step [speed * dt], when a key is held at all), every version passes
    the zero vector to [move], and the position stays what it was. *)
Theorem balanced_keys_cancel (u l : bool) (p : Player.t) (dt : float) :
  (if u || l then is_finite (Player.speed p * dt) else true) = true ->
  no_neg_zero (Player.position p) = true ->
  (forall im,
     (InputManager.isKeyPressed im "w", InputManager.isKeyPressed im "s",
      InputManager.isKeyPressed im "a", InputManager.isKeyPressed im "d")
     = (u, u, l, l) ->
     Game.readMovement im (Player.speed p) dt = Vector2.new 0 0
     /\ Player.position
          (Game.move p (Game.readMovement im (Player.speed p) dt))
        = Player.position p)
  /\ (forall im,
        let pressed := InputManager.isKeyPressed im in
        ((pressed "w" || pressed "arrowup")%string,
         (pressed "s" || pressed "arrowdown")%string,
         (pressed "a" || pressed "arrowleft")%string,
         (pressed "d" || pressed "arrowright")%string) = (u, u, l, l) ->
        Part000.handleInput p im dt = Vector2.new 0 0
        /\ Player.position (Part000.move p (Part000.handleInput p im dt))
           = Player.position p)
  /\ (forall s,
        Part001.player1 s = p ->
        (Part001.moveUp s, Part001.moveDown s,
         Part001.moveLeft s, Part001.moveRight s) = (u, u, l, l) ->
        Part001.readMovement s dt = Vector2.new 0 0
        /\ Player.position
             (fst (Part001.move p (Part001.readMovement s dt)))
           = Player.position p).
Proof.
  intros Hfin Hnz.
  pose proof (accumulate_balanced u l _ _ Hfin) as Hacc.
  split; [ | split ].
  - intros im Hk. injection Hk as Hw Hs Ha Hd.
    assert (E : Game.readMovement im (Player.speed p) dt = Vector2.new 0 0)
      by (unfold Game.readMovement; rewrite Hw, Hs, Ha, Hd, Hacc;
          reflexivity).
    rewrite E. split; [ reflexivity | now apply Game_move_zero ].
  - intros im pressed Hk. injection Hk as Hw Hs Ha Hd.
    assert (E : Part000.handleInput p im dt = Vector2.new 0 0)
      by (unfold Part000.handleInput; fold pressed;
          rewrite Hw, Hs, Ha, Hd, Hacc; reflexivity).
    rewrite E. split; [ reflexivity | now apply Part000_move_zero ].
  - intros s Hp Hk. injection Hk as Hu Hd Hl Hr.
    assert (E : Part001.readMovement s dt = Vector2.new 0 0)
      by (unfold Part001.readMovement; rewrite Hp, Hu, Hd, Hl, Hr, Hacc;
          reflexivity).
    rewrite E. split; [ reflexivity | now apply Part001_move_zero ].
Qed.

Lemma balanced_keys_cancel_witness :
  Player.position
    (Game.move initial_player
       (Game.readMovement
          (InputManager.mk keyboard ["w"; "a"; "s"; "d"]%string)
          0.05 0.016))
  = Vector2.new 0.5 0.5
  /\ Player.position
       (Part000.move initial_player
          (Part000.handleInput initial_player
             (InputManager.mk keyboard ["arrowleft"; "d"]%string) 0.016))
     = Vector2.new 0.5 0.5.
Proof.
  split.
  - destruct (balanced_keys_cancel true true initial_player 0.016)
      as (H & _); [ reflexivity | reflexivity | ].
    apply (H (InputManager.mk keyboard ["w"; "a"; "s"; "d"]%string)).
    reflexivity.
  - destruct (balanced_keys_cancel false true initial_player 0.016)
      as (_ & H & _); [ reflexivity | reflexivity | ].
    apply (H (InputManager.mk keyboard ["arrowleft"; "d"]%string)).
    reflexivity.
Defined.

(** ** Frames with no or with negative elapsed time *)

Lemma mul_opp_r (a b : float) : a * - b = - (a * b).
Proof.
  apply FloatAxioms.Prim2SF_inj.
  rewrite !FloatAxioms.mul_spec, !FloatAxioms.opp_spec,
          FloatAxioms.mul_spec.
  destruct (Prim2SF a) as [sa | sa | | sa ma ea],
           (Prim2SF b) as [sb | sb | | sb mb eb];
    cbn [SFopp SF64mul SFmul]; try reflexivity;
    try (now destruct sa, sb).
  rewrite <- binary_round_aux_opp. f_equal. now destruct sa, sb.
Qed.

(** The raw movement for a negative [dt] is the raw movement of the
    opposite direction for [-dt]. *)
Lemma accumulate_only_negative (d : Direction) (speed e : float) :
  step_in_range speed e = true ->
  accumulate_only d speed (- e) = axis_vector (opposite d) (speed * e).
Proof.
  intros H. unfold step_in_range in H. cbn zeta in H.
  destruct (in_range_facts _ H) as (Hpos & _ & _ & Hneg & _).
  destruct d; unfold accumulate_only; cbn [only opposite axis_vector];
    unfold accumulate, Vector2.add;
    cbn [Vector2.x Vector2.y]; change (0 + 0) with 0;
    rewrite ?mul_opp_opp, ?mul_opp_r, ?Hneg, ?(zero_add_pos _ Hpos);
    reflexivity.
Qed.

(** X12.  The sign of [dt] decides the direction.  When [dt] is negative, with
    [speed * -dt] in range, holding the key of one direction moves the
    player one full step of length [speed] in the opposite direction, in
    every version: the raw movement [speed * dt] points the other way, and
    normalizing keeps the direction and discards the length. *)
Theorem negative_dt_reverses_the_step (d : Direction) (p : Player.t)
                                      (e : float) :
  step_in_range (Player.speed p) e = true ->
  no_neg_zero (Player.position p) = true ->
  let dt := - e in
  let back := opposite d in
  let target := stepped back (Player.position p) (Player.speed p) in
  (forall im,
     (InputManager.isKeyPressed im "w", InputManager.isKeyPressed im "s",
      InputManager.isKeyPressed im "a", InputManager.isKeyPressed im "d")
     = only d ->
     within (bound back Game.GRID_COLS Game.GRID_ROWS) (along back target)
     = true ->
     Player.position
       (Game.move p (Game.readMovement im (Player.speed p) dt)) = target)
  /\ (forall im,
        let pressed := InputManager.isKeyPressed im in
        ((pressed "w" || pressed "arrowup")%string,
         (pressed "s" || pressed "arrowdown")%string,
         (pressed "a" || pressed "arrowleft")%string,
         (pressed "d" || pressed "arrowright")%string) = only d ->
        within_radius (Player.radius p)
                      (bound back Part000.GRID_COLS Part000.GRID_ROWS)
                      (along back target) = true ->
        Player.position (Part000.move p (Part000.handleInput p im dt))
        = target)
  /\ (forall s,
        Part001.player1 s = p ->
        (Part001.moveUp s, Part001.moveDown s,
         Part001.moveLeft s, Part001.moveRight s) = only d ->
        within (bound back Part001.GRID_COLS Part001.GRID_ROWS)
               (along back target) = true ->
        Player.position (fst (Part001.move p (Part001.readMovement s dt)))
        = target).
Proof.
  intros Hrange Hz dt back target. subst dt back target.
  destruct (movement_of_raw d (opposite d) _ (- e) _ Hrange
              (accumulate_only_negative d _ e Hrange)) as (Hg & H0 & H1).
  repeat split.
  - intros im Hk Hb. now apply Game_move_unit; [ apply Hg | | ].
  - intros im pressed Hk Hb. rewrite (H0 p im eq_refl Hk).
    now apply Part000_move_unit.
  - intros s Hp Hk Hb. rewrite (H1 s); [ | now rewrite Hp | assumption ].
    now apply Part001_move_unit.
Qed.

Lemma negative_dt_reverses_the_step_witness :
  Player.position
    (Game.move initial_player
       (Game.readMovement (InputManager.mk keyboard ["d"%string])
                          0.05 (- 0.016)))
  = Vector2.new (0.5 - 0.05) 0.5.
Proof.
  destruct (negative_dt_reverses_the_step Right initial_player 0.016)
    as (H & _); [ reflexivity | reflexivity | ].
  apply (H (InputManager.mk keyboard ["d"%string])); reflexivity.
Defined.

(** *** No elapsed time *)

Lemma sub_equal_is_zero (a b : float) :
  is_finite a = true -> (a =? b) = true -> ((a - b) / 1000 =? 0) = true.
Proof.
  intros Hf. apply is_finite_SF in Hf. revert Hf.
  rewrite !FloatAxioms.eqb_spec, FloatAxioms.div_spec, FloatAxioms.sub_spec.
  change (Prim2SF 1000) with (S754_finite false 8796093022208000 (-43)).
  change (Prim2SF 0) with (S754_zero false).
  destruct (Prim2SF a) as [s | s | | s m e] eqn:Ea,
           (Prim2SF b) as [s' | s' | | s' m' e'] eqn:Eb;
    try tauto; intros _ H;
    try (now destruct s, s');
    try (destruct s; discriminate H).
  apply SFeqb_finite in H. injection H as <- <- <-.
  cbn [SF64sub SFsub]. rewrite Z.min_id.
  unfold shl_align. rewrite Z.sub_diag. cbn [fst].
  destruct s; cbn [cond_Zopp]; rewrite ?Z.add_opp_diag_r, ?Z.add_opp_diag_l;
    reflexivity.
Qed.

Lemma mul_by_zero (s d : float) :
  is_finite s = true -> (d =? 0) = true ->
  (s * d =? 0) = true /\ (- s * d =? 0) = true.
Proof.
  intros Hf. apply is_finite_SF in Hf. revert Hf.
  rewrite !FloatAxioms.eqb_spec, !FloatAxioms.mul_spec, FloatAxioms.opp_spec.
  change (Prim2SF 0) with (S754_zero false).
  destruct (Prim2SF s) as [ss | ss | | ss m e],
           (Prim2SF d) as [sd | sd | | sd m' e'];
    try tauto; intros _ H; try discriminate H;
    try (destruct sd; discriminate H);
    split; now destruct ss, sd.
Qed.

Lemma zero_add_zero (z : float) : (z =? 0) = true -> 0 + z = 0.
Proof.
  rewrite FloatAxioms.eqb_spec. change (Prim2SF 0) with (S754_zero false).
  intros H. apply FloatAxioms.Prim2SF_inj. rewrite FloatAxioms.add_spec.
  change (Prim2SF 0) with (S754_zero false).
  destruct (Prim2SF z) as [s | s | | s m e]; try discriminate H;
    try (destruct s; discriminate H).
  now destruct s.
Qed.

Lemma accumulate_zero_step (u d l r : bool) (speed dt : float) :
  is_finite speed = true -> (dt =? 0) = true ->
  accumulate u d l r speed dt = Vector2.new 0 0.
Proof.
  intros Hf Hz. destruct (mul_by_zero speed dt Hf Hz) as [H1 H2].
  unfold accumulate, Vector2.add.
  destruct u, d, l, r; cbn [Vector2.x Vector2.y];
    repeat first [ progress change (0 + 0) with 0
                 | rewrite (zero_add_zero _ H1)
                 | rewrite (zero_add_zero _ H2) ];
    reflexivity.
Qed.

(** X13.  A frame with no elapsed time moves nothing.  When a tick carries the
    time stamp of the previous one, [dt] is zero, every held direction
    contributes a zero, and the player stays where it is, whichever keys
    are held, in every version. *)
Theorem no_elapsed_time_no_move
        (u d l r : bool) (p : Player.t) (currentTime lastTime : float) :
  is_finite currentTime = true ->
  (currentTime =? lastTime) = true ->
  is_finite (Player.speed p) = true ->
  no_neg_zero (Player.position p) = true ->
  let dt := (currentTime - lastTime) / 1000 in
  (forall im,
     (InputManager.isKeyPressed im "w", InputManager.isKeyPressed im "s",
      InputManager.isKeyPressed im "a", InputManager.isKeyPressed im "d")
     = (u, d, l, r) ->
     Player.position
       (Game.move p (Game.readMovement im (Player.speed p) dt))
     = Player.position p)
  /\ (forall im,
        let pressed := InputManager.isKeyPressed im in
        ((pressed "w" || pressed "arrowup")%string,
         (pressed "s" || pressed "arrowdown")%string,
         (pressed "a" || pressed "arrowleft")%string,
         (pressed "d" || pressed "arrowright")%string) = (u, d, l, r) ->
        Player.position (Part000.move p (Part000.handleInput p im dt))
        = Player.position p)
  /\ (forall s,
        Part001.player1 s = p ->
        (Part001.moveUp s, Part001.moveDown s,
         Part001.moveLeft s, Part001.moveRight s) = (u, d, l, r) ->
        Player.position (fst (Part001.move p (Part001.readMovement s dt)))
        = Player.position p).
Proof.
  intros Ht Heq Hf Hnz dt.
  pose proof (sub_equal_is_zero _ _ Ht Heq) as Hdt. fold dt in Hdt.
  pose proof (accumulate_zero_step u d l r _ dt Hf Hdt) as Hacc.
  split; [ | split ].
  - intros im Hk. injection Hk as Hw Hs Ha Hd.
    assert (E : Game.readMovement im (Player.speed p) dt = Vector2.new 0 0)
      by (unfold Game.readMovement; rewrite Hw, Hs, Ha, Hd, Hacc;
          reflexivity).
    rewrite E. now apply Game_move_zero.
  - intros im pressed Hk. injection Hk as Hw Hs Ha Hd.
    assert (E : Part000.handleInput p im dt = Vector2.new 0 0)
      by (unfold Part000.handleInput; fold pressed;
          rewrite Hw, Hs, Ha, Hd, Hacc; reflexivity).
    rewrite E. now apply Part000_move_zero.
  - intros s Hp Hk. injection Hk as Hu Hd Hl Hr.
    assert (E : Part001.readMovement s dt = Vector2.new 0 0)
      by (unfold Part001.readMovement; rewrite Hp, Hu, Hd, Hl, Hr, Hacc;
          reflexivity).
    rewrite E. now apply Part001_move_zero.
Qed.

Lemma no_elapsed_time_no_move_witness :
  Player.position
    (Game.move initial_player
       (Game.readMovement (InputManager.mk keyboard ["d"; "s"]%string)
                          0.05 ((16 - 16) / 1000)))
  = Vector2.new 0.5 0.5.
Proof.
  destruct (no_elapsed_time_no_move false true false true initial_player
              16 16) as (H & _);
    [ reflexivity | reflexivity | reflexivity | reflexivity | ].
  apply (H (InputManager.mk keyboard ["d"; "s"]%string)). reflexivity.
Defined.

(** ** The drawing procedures *)

Lemma run_app (ctx : Canvas.Context) (a b : list Canvas.Call) :
  Canvas.run ctx (a ++ b) = Canvas.run (Canvas.run ctx a) b.
Proof. apply fold_left_app. Qed.

(** A bracket [save; ...; restore] whose body only assigns styles and
    draws leaves the context as it found it. *)
Lemma drawLine_neutral (ctx : Canvas.Context) (p1 p2 : Vector2.t)
                       (color : string) (lineWidth : float) :
  Canvas.run ctx (drawLine p1 p2 color lineWidth) = ctx.
Proof. now destruct ctx as [[ss lw fs f ta sx sy] saved]. Qed.

Lemma drawCircle_neutral (ctx : Canvas.Context) (p : Vector2.t)
                         (radius : float) (color : string) :
  Canvas.run ctx (drawCircle p radius color) = ctx.
Proof. now destruct ctx as [[ss lw fs f ta sx sy] saved]. Qed.

(** More fuel does not change the result of a loop that has ended. *)
Lemma for_upto_more (body : float -> list Canvas.Call) (limit : float)
                    (fuel : nat) :
  forall i r,
  for_upto fuel i limit body = Some r ->
  forall n, for_upto (fuel + n) i limit body = Some r.
Proof.
  induction fuel as [ | fuel IH]; intros i r H n; [ discriminate | ].
  cbn [for_upto Nat.add] in H |- *.
  destruct (i <=? limit); [ | exact H ].
  destruct (for_upto fuel (i + 1) limit body) as [rest | ] eqn:E;
    [ | discriminate ].
  now rewrite (IH _ _ E).
Qed.

(** With the constants 10 and 10, twelve units of fuel end both loops. *)
Lemma drawGrid_ends (n : nat) (color : string) :
  drawGrid 10 10 (12 + n) color = Some (grid_calls color).
Proof.
  unfold drawGrid.
  assert (H : forall body,
            for_upto (12 + n) 0 10 body
            = Some (flat_map body zero_to_ten)).
  { intros body. apply for_upto_more.
    cbv - [app]. now rewrite !app_nil_r. }
  now rewrite !H.
Qed.

Lemma grid_calls_neutral (color : string) (ctx : Canvas.Context) :
  Canvas.run ctx (grid_calls color) = ctx.
Proof.
  assert (H : forall (body : float -> list Canvas.Call) l c,
            (forall c i, Canvas.run c (body i) = c) ->
            Canvas.run c (flat_map body l) = c).
  { intros body l c Hb. induction l as [ | i l IH]; [ reflexivity | ].
    cbn [flat_map]. now rewrite run_app, Hb. }
  unfold grid_calls. rewrite run_app, !H; try reflexivity;
    intros; apply drawLine_neutral.
Qed.

(** X14.  The grid is drawn in full, and the loops end.  With the constants of
    every version and twelve units of fuel or more, [drawGrid] returns;
    it strokes the eleven vertical lines x = 0, ..., 10 from y = 0 to
    y = 10 and then the eleven horizontal ones, all in the colour given
    and 0.1 wide; and it leaves the drawing state and the stack of saved
    states as it found them.  The background of the game is that grid in
    the default colour, on a canvas cleared and filled first. *)
Theorem drawGrid_draws_the_grid (n : nat) (color : string)
                                (ctx : Canvas.Context) :
  exists lines,
    drawGrid Game.GRID_COLS Game.GRID_ROWS (12 + n) color = Some lines
    /\ drawGrid Part000.GRID_COLS Part000.GRID_ROWS (12 + n) color
       = Some lines
    /\ drawGrid Part001.GRID_COLS Part001.GRID_ROWS (12 + n) color
       = Some lines
    /\ segments lines = grid_segments color
    /\ List.length (grid_segments color) = 22%nat
    /\ Canvas.run ctx lines = ctx
    /\ (forall size,
          exists grid,
            initBackground Game.GRID_COLS Game.GRID_ROWS (12 + n) size
            = Some (Canvas.clearRect 0 0 (Canvas.width size)
                                     (Canvas.height size)
                    :: Canvas.set_fillStyle "#181818"
                    :: Canvas.fillRect 0 0 (Canvas.width size)
                                       (Canvas.height size)
                    :: grid)
            /\ segments grid = grid_segments "#303030").
Proof.
  exists (grid_calls color).
  split; [ apply drawGrid_ends | ].
  split; [ apply drawGrid_ends | ].
  split; [ apply drawGrid_ends | ].
  split; [ reflexivity | ].
  split; [ reflexivity | ].
  split; [ apply grid_calls_neutral | ].
  intros size. exists (grid_calls "#303030").
  unfold initBackground, updateLayer.
  change Game.GRID_COLS with 10. change Game.GRID_ROWS with 10.
  rewrite drawGrid_ends. split; reflexivity.
Qed.

Lemma Wall_draw_neutral (ctx : Canvas.Context) (w : Part000.Wall) :
  Canvas.run ctx (Part000.Wall_draw w) = ctx.
Proof. now destruct ctx as [[ss lw fs f ta sx sy] saved]. Qed.

(** X15.  The procedures that draw a shape leave the context as they found it:
    after [drawLine], [drawCircle], [Player.draw], [Wall.draw] and the
    redraw of the objects layer of a tick, the drawing state and the
    stack of saved states are what they were, whatever they were.
    [drawFPS] is not of this kind: it leaves its font behind. *)
Theorem drawing_restores_context (ctx : Canvas.Context) :
  (forall p1 p2 color lineWidth,
     Canvas.run ctx (drawLine p1 p2 color lineWidth) = ctx)
  /\ (forall p radius color, Canvas.run ctx (drawCircle p radius color) = ctx)
  /\ (forall p, Canvas.run ctx (Player_draw p) = ctx)
  /\ (forall w, Canvas.run ctx (Part000.Wall_draw w) = ctx)
  /\ (forall objCtx p,
        exists cs, redraw objCtx p = Some cs /\ Canvas.run ctx cs = ctx)
  /\ (forall size metrics frameCount,
        Canvas.font
          (Canvas.current
             (Canvas.run ctx (drawFPS size metrics frameCount)))
        = "50px Arial"%string
        /\ Canvas.font
             (Canvas.current
                (Canvas.run ctx (Part001.drawFPS size metrics frameCount)))
           = "50px Arial"%string).
Proof.
  repeat split.
  - intros. apply drawLine_neutral.
  - intros. apply drawCircle_neutral.
  - intros. apply drawCircle_neutral.
  - intros. apply Wall_draw_neutral.
  - intros objCtx p. eexists. split; [ reflexivity | ].
    change (Canvas.run ctx (drawCircle (Player.position p)
                              (Player.radius p) (Player.color p)) = ctx).
    apply drawCircle_neutral.
Qed.

(** ** What the objects layer shows *)

Lemma last_drawn_app (a b : list Effect) (p0 : Player.t) :
  last_drawn (a ++ b) p0 = last_drawn b (last_drawn a p0).
Proof. apply fold_left_app. Qed.

(** A tick redraws the player it has just moved, or nothing. *)
Lemma gameLoop_last_drawn (currentTime : float) (s : Game.State)
                          (p0 : Player.t) :
  Game.GAMERUN s = true ->
  let (s', out) := Game.gameLoop currentTime s in
  last_drawn out p0
  = (if Game.pausedAfterCheck s then p0 else Game.player1 s')
  /\ (Game.pausedAfterCheck s = true -> Game.player1 s' = Game.player1 s).
Proof.
  intros Hrun. unfold Game.gameLoop, Game.pausedAfterCheck.
  rewrite Hrun. cbn [negb].
  assert (Hq : forall p, last_drawn
                 (snd (sampleFPS currentTime (Game.lastFPS s)
                                 (Game.frameCount s))) p = p).
  { intros p. unfold sampleFPS.
    now destruct (currentTime >? Game.lastFPS s + 1000). }
  destruct (sampleFPS _ _ _) as [[l c] fps]. cbn [snd] in Hq.
  destruct (InputManager.isKeyPressed _ _ && negb _);
    destruct (Game.paused s); cbn [negb Game.player1];
    rewrite ?last_drawn_app, ?Hq; split; try reflexivity;
    intros; discriminate.
Qed.

Lemma run_last_drawn (es : list Game.Event) :
  forall ss,
  Game.GAMERUN (Game.state ss) = true ->
  last_drawn (Game.trace ss) initial_player = Game.player1 (Game.state ss) ->
  let ss' := Game.run ss es in
  last_drawn (Game.trace ss') initial_player = Game.player1 (Game.state ss').
Proof.
  induction es as [ | e es IH]; intros ss Hrun H; [ exact H | ].
  cbn zeta. cbn [Game.run fold_left]. apply IH.
  - destruct e as [key | key | t]; cbn [Game.deliver]; try assumption.
    destruct (Game.pending ss); [ | assumption ].
    pose proof (gameLoop_shape t _ Hrun) as Hs.
    destruct (Game.gameLoop t (Game.state ss)) as [s' out].
    now destruct Hs as (Hrun' & _).
  - destruct e as [key | key | t]; cbn [Game.deliver]; try assumption.
    destruct (Game.pending ss); [ | assumption ].
    pose proof (gameLoop_last_drawn t (Game.state ss)
                  (last_drawn (Game.trace ss) initial_player) Hrun) as Hd.
    destruct (Game.gameLoop t (Game.state ss)) as [s' out].
    cbn [Game.trace Game.state]. rewrite last_drawn_app.
    destruct Hd as [Hd Hp]. rewrite Hd.
    destruct (Game.pausedAfterCheck (Game.state ss));
      [ now rewrite Hp, H | reflexivity ].
Qed.

(** X16.  The picture is never stale.  At every moment of a session of
    game.ts, the player last drawn on the objects layer (by the start-up
    code, or by the last redraw of a tick) is the player of the state:
    every move is followed by a redraw in the same tick, and a paused tick
    neither moves nor redraws. *)
Theorem objects_layer_shows_the_player (t0 t1 : float)
                                       (es : list Game.Event) :
  let ss := Game.run (Game.start t0 t1) es in
  last_drawn (Game.trace ss) initial_player = Game.player1 (Game.state ss).
Proof.
  apply (run_last_drawn es (Game.start t0 t1)); reflexivity.
Qed.

(** ** Start-up *)

(** X17.  How the start-up of the layered versions ends.  If one of the four
    canvases is missing, both versions throw "One or more canvases not
    found" and have touched nothing.  If the four are there but one gives
    no 2D context, both throw "2D context is not supported on one or more
    canvases"; game.ts has touched nothing, [initCanvas] of part_000 has
    already sized the three layers.  Otherwise both return the same four
    contexts and the same document: the three layers are 800 by 800 and
    scaled by 80 = 800 / 10, and the UI canvas is neither sized nor
    scaled. *)
Theorem startup_outcome (document : Dom.Document) :
  match canvases_found document, contexts_supported document with
  | false, _ =>
      Game.setup document
      = (document, Dom.Throw "One or more canvases not found")
      /\ Part000.initCanvas document
         = (document, Dom.Throw "One or more canvases not found")
  | true, false =>
      Game.setup document
      = (document,
         Dom.Throw "2D context is not supported on one or more canvases")
      /\ snd (Part000.initCanvas document)
         = Dom.Throw "2D context is not supported on one or more canvases"
      /\ (forall id, In id ["background"; "objects"; "events"]%string ->
            size_of (fst (Part000.initCanvas document)) id
            = Some (800, 800))
  | true, true =>
      Part000.initCanvas document = Game.setup document
      /\ exists layers,
           snd (Game.setup document) = Dom.Return layers
           /\ (forall ctx,
                 In ctx [Dom.bgCtx layers; Dom.objCtx layers;
                         Dom.evtCtx layers] ->
                 Dom.size ctx = Canvas.mkSize 800 800
                 /\ Dom.calls ctx = [Canvas.scale 80 80])
           /\ Some (Dom.canvas (Dom.uiCtx layers)) = document "ui"%string
           /\ Dom.calls (Dom.uiCtx layers) = []
           /\ (forall id, In id ["background"; "objects"; "events"]%string ->
                 size_of (fst (Game.setup document)) id = Some (800, 800))
           /\ fst (Game.setup document) "ui"%string = document "ui"%string
  end.
Proof.
  unfold canvases_found, contexts_supported, Game.setup, Part000.initCanvas,
    size_of, Dom.getContext.
  cbn [forallb].
  destruct (document "background"%string) as [[w1 h1 c1] | ];
    [ | split; reflexivity ].
  destruct (document "objects"%string) as [[w2 h2 c2] | ];
    [ | split; reflexivity ].
  destruct (document "events"%string) as [[w3 h3 c3] | ];
    [ | split; reflexivity ].
  destruct (document "ui"%string) as [[w4 h4 c4] | ] eqn:Eui;
    [ | split; reflexivity ].
  cbn [Dom.supports2d Dom.resize].
  destruct c1, c2, c3, c4; cbn [andb fst snd];
    try (split; [ reflexivity | split; [ reflexivity | ] ];
         intros id [<- | [<- | [<- | []]]]; reflexivity).
  split; [ reflexivity | ].
  eexists. split; [ reflexivity | ].
  cbn [Dom.bgCtx Dom.objCtx Dom.evtCtx Dom.uiCtx Dom.canvas Dom.calls].
  repeat split.
  - destruct H as [<- | [<- | [<- | []]]]; reflexivity.
  - destruct H as [<- | [<- | [<- | []]]]; reflexivity.
  - intros id [<- | [<- | [<- | []]]]; reflexivity.
  - unfold Dom.update. cbn. exact Eui.
Qed.

(** ** The first prototype *)

(** What one step of half a cell does to each of the 21 coordinates of
    the lattice: it stays on the lattice and inside the grid, and a step
    that was taken is undone by the step back. *)
Lemma halves_closed :
  forallb
    (fun v =>
       on_halves (if v - 0.5 >=? 0 then v - 0.5 else v)
       && on_halves (if v + 0.5 <=? 10 then v + 0.5 else v)
       && ((0 <=? v) && (v <=? 10))
       && (if v - 0.5 >=? 0
           then (v - 0.5 + 0.5 <=? 10) && Leibniz.eqb (v - 0.5 + 0.5) v
           else true)
       && (if v + 0.5 <=? 10
           then (v + 0.5 - 0.5 >=? 0) && Leibniz.eqb (v + 0.5 - 0.5) v
           else true))
    halves = true.
Proof. vm_compute. reflexivity. Qed.

Lemma on_halves_facts (v : float) :
  on_halves v = true ->
  on_halves (if v - 0.5 >=? 0 then v - 0.5 else v) = true
  /\ on_halves (if v + 0.5 <=? 10 then v + 0.5 else v) = true
  /\ (0 <=? v) && (v <=? 10) = true
  /\ ((v - 0.5 >=? 0) = true ->
      (v - 0.5 + 0.5 <=? 10) = true /\ v - 0.5 + 0.5 = v)
  /\ ((v + 0.5 <=? 10) = true ->
      (v + 0.5 - 0.5 >=? 0) = true /\ v + 0.5 - 0.5 = v).
Proof.
  intros H. unfold on_halves in H.
  apply existsb_exists in H as (h & Hin & Heq).
  apply FloatAxioms.Leibniz.eqb_spec in Heq. subst h.
  pose proof (proj1 (forallb_forall _ _) halves_closed v Hin) as Hv.
  cbv beta in Hv.
  apply andb_true_iff in Hv as [Hv H5]. apply andb_true_iff in Hv as [Hv H4].
  apply andb_true_iff in Hv as [Hv H3]. apply andb_true_iff in Hv as [H1 H2].
  split; [ assumption | split; [ assumption | split; [ assumption | ] ] ].
  split; intros G.
  - rewrite G in H4. apply andb_true_iff in H4 as [? E].
    now apply FloatAxioms.Leibniz.eqb_spec in E.
  - rewrite G in H5. apply andb_true_iff in H5 as [? E].
    now apply FloatAxioms.Leibniz.eqb_spec in E.
Qed.

Lemma move_on_halves (key : string) (p : Vector2.t) :
  on_halves (Vector2.x p) = true -> on_halves (Vector2.y p) = true ->
  let p' := fst (Prototype.move key p) in
  on_halves (Vector2.x p') = true /\ on_halves (Vector2.y p') = true.
Proof.
  intros Hx Hy. destruct p as [x y]. cbn [Vector2.x Vector2.y] in *.
  destruct (on_halves_facts x Hx) as (Hx1 & Hx2 & _).
  destruct (on_halves_facts y Hy) as (Hy1 & Hy2 & _).
  unfold Prototype.move, Prototype.speed, Prototype.GRID_ROWS,
    Prototype.GRID_COLS. cbn [Vector2.x Vector2.y].
  destruct (keyDirection key) as [[ | | | ] | ]; cbn [fst].
  - destruct (y - 0.5 >=? 0); cbn [Vector2.x Vector2.y]; now split.
  - destruct (x - 0.5 >=? 0); cbn [Vector2.x Vector2.y]; now split.
  - destruct (y + 0.5 <=? 10); cbn [Vector2.x Vector2.y]; now split.
  - destruct (x + 0.5 <=? 10); cbn [Vector2.x Vector2.y]; now split.
  - now split.
Qed.

Lemma prototype_after_on_halves (keys : list string) :
  on_halves (Vector2.x (prototype_after keys)) = true
  /\ on_halves (Vector2.y (prototype_after keys)) = true.
Proof.
  unfold prototype_after.
  assert (H : forall p,
            on_halves (Vector2.x p) = true ->
            on_halves (Vector2.y p) = true ->
            let q := fold_left
                       (fun player1 key => fst (Prototype.move key player1))
                       keys p in
            on_halves (Vector2.x q) = true /\ on_halves (Vector2.y q) = true).
  { induction keys as [ | key keys IH]; intros p Hx Hy; [ now split | ].
    cbn [fold_left].
    destruct (move_on_halves key p Hx Hy) as [Hx' Hy']. now apply IH. }
  apply H; reflexivity.
Qed.

(** X18.  The prototype keeps its player on the half-cell lattice of the grid.
    After any sequence of key presses, both coordinates are among
    0, 0.5, 1, ..., 10, exactly, and so inside the grid. *)
Theorem prototype_stays_on_the_lattice (keys : list string) :
  let p := prototype_after keys in
  on_halves (Vector2.x p) = true
  /\ on_halves (Vector2.y p) = true
  /\ (0 <=? Vector2.x p) && (Vector2.x p <=? Prototype.GRID_COLS) = true
  /\ (0 <=? Vector2.y p) && (Vector2.y p <=? Prototype.GRID_ROWS) = true.
Proof.
  cbn zeta. destruct (prototype_after_on_halves keys) as [Hx Hy].
  destruct (on_halves_facts _ Hx) as (_ & _ & Hx3 & _).
  destruct (on_halves_facts _ Hy) as (_ & _ & Hy3 & _).
  repeat split; assumption.
Qed.

(** X19.  In the prototype a step that was taken is undone by the opposite
    key.  From any position the player can be in, if the key of a
    direction changes the position, the key of the opposite direction
    changes it back, exactly. *)
Theorem prototype_opposite_key_undoes
        (keys : list string) (k k' : string) (d : Direction) :
  keyDirection k = Some d ->
  keyDirection k' = Some (opposite d) ->
  let p := prototype_after keys in
  let p' := fst (Prototype.move k p) in
  p' <> p ->
  fst (Prototype.move k' p') = p.
Proof.
  intros Hk Hk'. cbn zeta.
  destruct (prototype_after_on_halves keys) as [Hx Hy].
  destruct (prototype_after keys) as [x y]. cbn [Vector2.x Vector2.y] in *.
  destruct (on_halves_facts x Hx) as (_ & _ & _ & Hx4 & Hx5).
  destruct (on_halves_facts y Hy) as (_ & _ & _ & Hy4 & Hy5).
  unfold Prototype.move, Prototype.speed, Prototype.GRID_ROWS,
    Prototype.GRID_COLS. rewrite Hk, Hk'. cbn [Vector2.x Vector2.y fst].
  destruct d; cbn [opposite fst].
  - destruct (y - 0.5 >=? 0) eqn:G; [ | congruence ]. intros _.
    cbn [Vector2.x Vector2.y]. destruct (Hy4 eq_refl) as [-> ->].
    reflexivity.
  - destruct (x - 0.5 >=? 0) eqn:G; [ | congruence ]. intros _.
    cbn [Vector2.x Vector2.y]. destruct (Hx4 eq_refl) as [-> ->].
    reflexivity.
  - destruct (y + 0.5 <=? 10) eqn:G; [ | congruence ]. intros _.
    cbn [Vector2.x Vector2.y]. destruct (Hy5 eq_refl) as [-> ->].
    reflexivity.
  - destruct (x + 0.5 <=? 10) eqn:G; [ | congruence ]. intros _.
    cbn [Vector2.x Vector2.y]. destruct (Hx5 eq_refl) as [-> ->].
    reflexivity.
Qed.

Lemma prototype_opposite_key_undoes_witness :
  fst (Prototype.move "a" (fst (Prototype.move "D" (prototype_after ["s"%string]))))
  = prototype_after ["s"%string].
Proof.
  apply (prototype_opposite_key_undoes ["s"%string] "D" "a" Right);
    try reflexivity.
  intros E. apply (f_equal (fun v => Vector2.x v =? 0.5)) in E.
  vm_compute in E. discriminate.
Defined.

Lemma gridLines_ends (n : nat) :
  Prototype.gridLines (12 + n) = Some (grid_calls "#303030").
Proof. apply drawGrid_ends. Qed.

(** X20.  How the prototype starts.  Without a canvas "game" it throws and has
    touched nothing; with a canvas that gives no 2D context it throws
    after sizing the canvas; otherwise it sizes the canvas, scales the
    context by 80, strokes the grid, and creates the player at
    (0.5, 0.5) without drawing it: no circle is filled before the first
    key press. *)
Theorem prototype_startup (n : nat) (document : Dom.Document) :
  match document "game"%string with
  | None =>
      Prototype.main (12 + n) document
      = Some (document, Dom.Throw "Canvas with the id `game` not found")
  | Some game =>
      let sized := Dom.update document "game" (Dom.resize game 800 800) in
      if Dom.supports2d game
      then exists ctx,
             Prototype.main (12 + n) document
             = Some (sized, Dom.Return (ctx, Vector2.new 0.5 0.5))
             /\ Dom.size ctx = Canvas.mkSize 800 800
             /\ In (Canvas.scale 80 80) (Dom.calls ctx)
             /\ segments (Dom.calls ctx) = grid_segments "#303030"
             /\ circles (Dom.calls ctx) = []
      else Prototype.main (12 + n) document
           = Some (sized, Dom.Throw "2D context is not supported")
  end.
Proof.
  unfold Prototype.main.
  destruct (document "game"%string) as [[w h c] | ]; [ | reflexivity ].
  cbn zeta. unfold Dom.getContext. cbn [Dom.resize Dom.supports2d].
  destruct c; [ | reflexivity ].
  rewrite gridLines_ends.
  eexists. split; [ reflexivity | ].
  cbn [Dom.scaleToGrid Dom.call Dom.calls Dom.canvas Dom.size Dom.width
       Dom.height app].
  repeat split.
  right. right. left. reflexivity.
Qed.

(** X21.  Every key press redraws everything.  Whatever the key (a movement
    key whose move is blocked by the edge, or a key that is no movement
    key at all), the listener of the prototype clears the canvas, strokes
    the whole grid again and fills one circle, the player at the position
    the key has left it in; a movement key is logged whether it moved the
    player or not. *)
Theorem prototype_keydown_redraws (n : nat) (ctx : Canvas.Size)
                                  (key : string) (player1 : Vector2.t) :
  let p' := fst (Prototype.move key player1) in
  exists out,
    Prototype.onKeyDown (12 + n) ctx key player1 = Some (p', out)
    /\ hd_error (drawn out)
       = Some (Canvas.clearRect 0 0 (Canvas.width ctx) (Canvas.height ctx))
    /\ segments (drawn out) = grid_segments "#303030"
    /\ circles (drawn out)
       = [(Vector2.x p', Vector2.y p', Prototype.playerRadius)]
    /\ (forall d, keyDirection key = Some d ->
          hd_error out = Some (Prototype.LogMovement d)).
Proof.
  cbn zeta. unfold Prototype.onKeyDown, Prototype.updateContext.
  rewrite gridLines_ends. unfold Prototype.move.
  destruct (keyDirection key) as [[ | | | ] | ];
    (eexists; split; [ reflexivity | ]);
    (repeat split; try reflexivity; intros d [= <-]; reflexivity
     || (intros d; discriminate)).
Qed.

(** ** What a tick logs *)

(** In game.ts the statement [movement.normalize()] has no effect: the
    method allocates its result, and the result is dropped. *)
Lemma readMovement_raw (im : InputManager.t) (speed dt : float) :
  Game.readMovement im speed dt
  = accumulate (InputManager.isKeyPressed im "w")
               (InputManager.isKeyPressed im "s")
               (InputManager.isKeyPressed im "a")
               (InputManager.isKeyPressed im "d") speed dt.
Proof.
  unfold Game.readMovement.
  destruct (_ || _); [ apply normalize_receiver | reflexivity ].
Qed.

(** X22.  The movement a tick logs is not the same thing in the two versions
    that log one.  game.ts logs the raw sum of the held directions, of
    length [speed * dt], because its [normalize] does not assign to the
    vector; part_001, whose [normalize] works in place, logs the vector as
    [move] left it, which for one held direction is the unit vector. *)
Theorem logged_movement (d : Direction) (currentTime : float) :
  (forall s,
     Game.GAMERUN s = true ->
     Game.pausedAfterCheck s = false ->
     let im := Game.inputManager s in
     let dt := (currentTime - Game.lastTime s) / 1000 in
     In (ConsoleLog
           (LogMovement
              (Vector2.array
                 (accumulate (InputManager.isKeyPressed im "w")
                             (InputManager.isKeyPressed im "s")
                             (InputManager.isKeyPressed im "a")
                             (InputManager.isKeyPressed im "d")
                             (Player.speed (Game.player1 s)) dt))))
        (snd (Game.gameLoop currentTime s)))
  /\ (forall s,
        Part001.GAMERUN s = true ->
        (Part001.moveUp s, Part001.moveDown s,
         Part001.moveLeft s, Part001.moveRight s) = only d ->
        step_in_range (Player.speed (Part001.player1 s))
                      ((currentTime - Part001.lastTime s) / 1000) = true ->
        In (ConsoleLog (LogMovement (Vector2.array (unit_vector d))))
           (snd (Part001.gameLoop currentTime s))).
Proof.
  split.
  - intros s Hrun Hp im dt. subst im dt.
    unfold Game.gameLoop, Game.pausedAfterCheck in *. rewrite Hrun.
    cbn [negb].
    destruct (InputManager.isKeyPressed _ "Escape" && negb _); rewrite Hp;
      destruct (sampleFPS _ _ _) as [[l c] fps]; cbn [snd];
      rewrite readMovement_raw; rewrite !in_app_iff; cbn [In]; auto.
  - intros s Hrun Hk Hrange. unfold Part001.gameLoop. rewrite Hrun.
    cbn [negb]. destruct (sampleFPS _ _ _) as [[l c] fps].
    destruct (movement_of_raw d d _ _ _ Hrange
                (accumulate_only_value d _ _ Hrange)) as (_ & _ & H1).
    rewrite (H1 s eq_refl Hk). unfold Part001.move.
    rewrite (proj2 (normalize_unit_vector d)). cbn [snd].
    rewrite in_app_iff. right. left. reflexivity.
Qed.

Lemma logged_movement_witness :
  In (ConsoleLog (LogMovement (0.05 * ((16 - 0) / 1000), 0)))
     (snd (Game.gameLoop 16
             (Game.mkState true initial_player 0 0 0
                           (InputManager.mk keyboard ["d"%string])
                           false false)))
  /\ In (ConsoleLog (LogMovement (1, 0)))
        (snd (Part001.gameLoop 16
                (Part001.mkState true initial_player 0 0 0
                                 false false false true))).
Proof.
  destruct (logged_movement Right 16) as [H1 H2]. split.
  - apply (H1 (Game.mkState true initial_player 0 0 0
                            (InputManager.mk keyboard ["d"%string])
                            false false)); reflexivity.
  - apply (H2 (Part001.mkState true initial_player 0 0 0
                               false false false true)); reflexivity.
Defined.

(** ** The timer of part_001 *)

(** [frameDuration] is 1000 / 60 milliseconds; a [dt] of at most 16, which
    is in seconds, is not above it. *)
Lemma at_most_16_not_past_frame (dt : float) :
  (dt <=? 16) = true -> (dt >? Part001.frameDuration) = false.
Proof.
  unfold gtb.
  rewrite FloatAxioms.leb_spec, FloatAxioms.ltb_spec.
  change (Prim2SF 16) with (S754_finite false 4503599627370496 (-48)).
  change (Prim2SF Part001.frameDuration)
    with (S754_finite false 4691249611844267 (-48)).
  unfold SFleb, SFltb.
  destruct (Prim2SF dt) as [s | s | | s m e]; cbn [SFcompare];
    try destruct s; try discriminate; try reflexivity.
  rewrite !compare_cont_Z. generalize (Zpos m). intros z.
  destruct (Z.compare_spec e (-48)) as [He | He | He];
    destruct (Z.compare_spec (-48) e) as [He' | He' | He'];
    try (exfalso; clear - He He'; lia); try discriminate; try reflexivity.
  destruct (Z.compare_spec z 4503599627370496);
    destruct (Z.compare_spec 4691249611844267 z);
    try lia; try discriminate; reflexivity.
Qed.

(** X23.  part_001 compares seconds with milliseconds.  [dt] is in seconds and
    [frameDuration] in milliseconds, so on every tick that comes at most
    16 seconds after the previous one the test [dt > frameDuration] fails:
    the loop never requests the next frame directly, it sets a timer of
    [frameDuration - dt] milliseconds that will request it. *)
Theorem part001_always_sets_a_timer (currentTime : float)
                                    (s : Part001.State) :
  Part001.GAMERUN s = true ->
  let dt := (currentTime - Part001.lastTime s) / 1000 in
  (dt <=? 16) = true ->
  let out := snd (Part001.gameLoop currentTime s) in
  In (SetTimeout (Part001.frameDuration - dt)) out
  /\ Game.requestsFrame out = false.
Proof.
  intros Hrun dt Hdt. subst dt. cbn zeta.
  unfold Part001.gameLoop. rewrite Hrun. cbn [negb].
  rewrite (at_most_16_not_past_frame _ Hdt).
  pose proof (sampleFPS_quiet currentTime (Part001.lastFPS s)
                              (Part001.frameCount s)) as [_ Hq].
  destruct (sampleFPS _ _ _) as [[l c] fps]. cbn [snd] in Hq.
  destruct (Part001.move _ _) as [p m]. cbn [snd]. split.
  - rewrite in_app_iff. right. right. right. left. reflexivity.
  - unfold Game.requestsFrame in *. rewrite existsb_app, Hq. reflexivity.
Qed.

Lemma part001_always_sets_a_timer_witness :
  let out := snd (Part001.gameLoop 16 (Part001.initial 0 0)) in
  In (SetTimeout (Part001.frameDuration - (16 - 0) / 1000)) out
  /\ Game.requestsFrame out = false.
Proof.
  apply (part001_always_sets_a_timer 16 (Part001.initial 0 0));
    reflexivity.
Defined.
